(** * Pothole detector: the classifier, the session aggregator and the
      confirmation ledger of the route page, embedded from the TypeScript.

    JavaScript numbers are IEEE 754 binary64 values; they are modelled by
    Rocq's primitive floats, whose operations are the same binary64
    operations (round to nearest, ties to even), so [NaN], the infinities
    and rounding behave here as they do in the program. *)

From Stdlib Require Import ZArith List Bool String Lia.
From Stdlib Require Import Floats.
From Stdlib Require Uint63.
Import ListNotations.

Open Scope float_scope.

(** ** lib/types

    Field names are the source's; where two interfaces share a field name
    the projections carry a prefix ([l_] for [LocationData], [e_] for
    [PotholeEvent], [s_] for [DrivingSession], [r_] for the reading). *)

Record AccelerometerReading : Set := mkReading {
  x : float;
  y : float;
  z : float;
  r_timestamp : float
}.

Record LocationData : Set := mkLocation {
  latitude : float;
  longitude : float;
  l_speed : option float;      (* number | null, in m/s *)
  accuracy : float;
  l_timestamp : float
}.

Inductive Severity : Set := low | medium | high.

Inductive Label : Set := pothole_detected | pothole_confirmed | false_positive.

Record PotholeEvent : Set := mkEvent {
  e_id : string;
  e_timestamp : float;
  accelerometer : AccelerometerReading;
  location : LocationData;
  e_speed : option float;
  label : Label;
  userConfirmed : option bool;   (* null | true | false *)
  severity : Severity
}.

Record DrivingSession : Set := mkSession {
  s_id : string;
  startTime : float;
  endTime : option float;
  events : list PotholeEvent;
  s_totalDistance : float;
  averageSpeed : float
}.

Inductive SessionStatus : Set := idle | active | paused.

(** ** lib/utils/sensors.ts *)

Definition POTHOLE_THRESHOLD : float := 15.

(** [Math.sqrt(reading.x * reading.x + reading.y * reading.y +
    reading.z * reading.z)], the expression both classifier functions bind
    to [magnitude]. *)
Definition magnitude (reading : AccelerometerReading) : float :=
  sqrt (x reading * x reading + y reading * y reading + z reading * z reading).

(** [a > b] of JavaScript: false as soon as one side is [NaN]. *)
Definition gt (a b : float) : bool := b <? a.

Definition detectPothole (reading : AccelerometerReading) : bool :=
  gt (magnitude reading) POTHOLE_THRESHOLD.

Definition calculateSeverity (reading : AccelerometerReading) : Severity :=
  if gt (magnitude reading) 25 then high
  else if gt (magnitude reading) 20 then medium
  else low.

(** [v || 0] on an axis of [accelerationIncludingGravity], a number or
    null: null, [NaN] and the two zeros are falsy and give 0. *)
Definition orZero (v : option float) : float :=
  match v with
  | Some f => if is_nan f || is_zero f then 0 else f
  | None => 0
  end.

(** The [devicemotion] listener installed by [startAccelerometer]: the
    reading it passes to the callback, none when the event carries no
    [accelerationIncludingGravity]. *)
Definition handleMotion
           (acc : option (option float * option float * option float))
           (now : float) : option AccelerometerReading :=
  match acc with
  | Some (ax, ay, az) => Some (mkReading (orZero ax) (orZero ay) (orZero az) now)
  | None => None
  end.

(** The functions of the JavaScript [Math] object that binary64 arithmetic
    does not determine (the language leaves their last bits to the engine).
    [Math.sqrt] is the correctly rounded [sqrt]. *)
Class JSMath : Set := {
  Math_sin : float -> float;
  Math_cos : float -> float;
  Math_atan2 : float -> float -> float
}.

(** [Math.round]: the integer nearest to the argument, a tie going up;
    the zeros, the infinities and [NaN] are returned as they are and a
    result of zero keeps the sign of the argument. *)
Definition Math_round (f : float) : float :=
  match Prim2SF f with
  | S754_finite s m e =>
      if (0 <=? e)%Z then f
      else
        let n := (((if s then Z.neg m else Z.pos m) * 2 + 2 ^ (- e))
                  / 2 ^ (- e + 1))%Z in
        match n with
        | Z0 => if s then (-0) else 0
        | Z.pos k => of_uint63 (Uint63.of_Z n)
        | Z.neg k => - of_uint63 (Uint63.of_Z (Z.pos k))
        end
  | _ => f
  end.

(** [Math.PI], the binary64 value nearest to pi. *)
Definition Math_PI : float := 0x1.921fb54442d18p+1.

Definition calculateDistance `{JSMath} (lat1 lon1 lat2 lon2 : float) : float :=
  let R := 6371e3 in
  let phi1 := lat1 * Math_PI / 180 in
  let phi2 := lat2 * Math_PI / 180 in
  let dphi := (lat2 - lat1) * Math_PI / 180 in
  let dlambda := (lon2 - lon1) * Math_PI / 180 in
  let a := Math_sin (dphi / 2) * Math_sin (dphi / 2) +
           Math_cos phi1 * Math_cos phi2 *
           Math_sin (dlambda / 2) * Math_sin (dlambda / 2) in
  let c := 2 * Math_atan2 (sqrt a) (sqrt (1 - a)) in
  R * c.

(** ** The route page component (the script block of the page)

    The component's variables that the session logic reads or writes,
    together with the two effects that leave the component: [alert] and
    [exportSessionData].  The map widget, the console, the vibration and
    the one-second display timer are not part of the model. *)

Record LatLng : Set := mkLatLng { lat : float; lng : float }.

Record PermissionDetails : Set := mkPermissions {
  p_accelerometer : bool;
  p_location : bool
}.

Record State : Set := mkState {
  sessionStatus : SessionStatus;
  currentSession : option DrivingSession;
  permissionDetails : PermissionDetails;
  currentAccelerometer : option AccelerometerReading;
  currentLocation : option LocationData;
  currentSpeed : float;
  eventsCount : nat;
  confirmedPotholes : nat;
  falsePositives : nat;
  totalDistance : float;
  lastLocation : option LocationData;
  sessionStartTime : float;
  startCoords : option LatLng;
  destinationCoords : option LatLng;
  alerts : list string;               (* calls of alert, oldest first *)
  exported : list DrivingSession      (* calls of exportSessionData *)
}.

(** The declarations at the top of the script. *)
Definition initialState : State :=
  {| sessionStatus := idle;
     currentSession := None;
     permissionDetails := mkPermissions false false;
     currentAccelerometer := None;
     currentLocation := None;
     currentSpeed := 0;
     eventsCount := 0;
     confirmedPotholes := 0;
     falsePositives := 0;
     totalDistance := 0;
     lastLocation := None;
     sessionStartTime := 0;
     startCoords := None;
     destinationCoords := None;
     alerts := [];
     exported := [] |}.

Definition with_events (l : list PotholeEvent) (s : DrivingSession)
  : DrivingSession :=
  mkSession (s_id s) (startTime s) (endTime s) l (s_totalDistance s)
            (averageSpeed s).

Definition with_totalDistance (d : float) (s : DrivingSession)
  : DrivingSession :=
  mkSession (s_id s) (startTime s) (endTime s) (events s) d (averageSpeed s).

Definition with_endTime (t : float) (s : DrivingSession) : DrivingSession :=
  mkSession (s_id s) (startTime s) (Some t) (events s) (s_totalDistance s)
            (averageSpeed s).

Definition with_averageSpeed (v : float) (s : DrivingSession)
  : DrivingSession :=
  mkSession (s_id s) (startTime s) (endTime s) (events s) (s_totalDistance s) v.

Definition alert (msg : string) (st : State) : State :=
  mkState (sessionStatus st) (currentSession st) (permissionDetails st)
          (currentAccelerometer st) (currentLocation st) (currentSpeed st)
          (eventsCount st) (confirmedPotholes st) (falsePositives st)
          (totalDistance st) (lastLocation st) (sessionStartTime st)
          (startCoords st) (destinationCoords st)
          (alerts st ++ [msg]) (exported st).

Definition isNull {A : Type} (o : option A) : bool :=
  match o with Some _ => false | None => true end.

(** [startSession()], the same in both script blocks.  [now] is the value
    of [Date.now()] and [newId] the value of [generateEventId()] at the
    call.  There is no test of [sessionStatus] or of [currentSession]. *)
Definition startSession (now : float) (newId : string) (st : State) : State :=
  if negb (p_accelerometer (permissionDetails st)) then
    alert "Motion sensor access is required for pothole detection. Please enable sensors first." st
  else if negb (p_location (permissionDetails st)) then
    alert "Location access is required for navigation. Please enable location services first." st
  else if isNull (startCoords st) || isNull (destinationCoords st) then
    alert "Please select both start location and destination before starting your session." st
  else
    {| sessionStatus := active;
       sessionStartTime := now;
       currentSession := Some (mkSession newId now None [] 0 0);
       eventsCount := 0;
       confirmedPotholes := 0;
       falsePositives := 0;
       totalDistance := 0;
       permissionDetails := permissionDetails st;
       currentAccelerometer := currentAccelerometer st;
       currentLocation := currentLocation st;
       currentSpeed := currentSpeed st;
       lastLocation := lastLocation st;
       startCoords := startCoords st;
       destinationCoords := destinationCoords st;
       alerts := alerts st;
       exported := exported st |}.

(** The record that [stopSession] hands to [exportSessionData]. *)
Definition finishSession (now : float) (total : float) (s : DrivingSession)
  : DrivingSession :=
  let s1 := with_endTime now s in
  let duration := (now - startTime s1) / 1000 / 60 in
  let s2 := with_averageSpeed
              (if gt duration 0 then (total / duration) * 60 else 0) s1 in
  with_totalDistance total s2.

(** [stopSession()], with [now] the value of [Date.now()]. *)
Definition stopSession (now : float) (st : State) : State :=
  match currentSession st with
  | None => st
  | Some s =>
    {| sessionStatus := idle;
       exported := exported st ++ [finishSession now (totalDistance st) s];
       currentSession := None;
       currentAccelerometer := None;
       currentLocation := None;
       currentSpeed := 0;
       permissionDetails := permissionDetails st;
       eventsCount := eventsCount st;
       confirmedPotholes := confirmedPotholes st;
       falsePositives := falsePositives st;
       totalDistance := totalDistance st;
       lastLocation := lastLocation st;
       sessionStartTime := sessionStartTime st;
       startCoords := startCoords st;
       destinationCoords := destinationCoords st;
       alerts := alerts st |}
  end.

Definition set_currentAccelerometer (r : AccelerometerReading) (st : State)
  : State :=
  mkState (sessionStatus st) (currentSession st) (permissionDetails st)
          (Some r) (currentLocation st) (currentSpeed st)
          (eventsCount st) (confirmedPotholes st) (falsePositives st)
          (totalDistance st) (lastLocation st) (sessionStartTime st)
          (startCoords st) (destinationCoords st) (alerts st) (exported st).

(** The event object literal of [handleAccelerometerData]. *)
Definition newEvent (newId : string) (reading : AccelerometerReading)
           (loc : LocationData) (sev : Severity) : PotholeEvent :=
  {| e_id := newId;
     e_timestamp := r_timestamp reading;
     accelerometer := reading;
     location := loc;
     e_speed := l_speed loc;
     label := pothole_detected;
     userConfirmed := None;
     severity := sev |}.

(** [currentSession.events.push(event)], [eventsCount = ...length] and the
    reassignment of [currentSession] to a copy. *)
Definition pushEvent (e : PotholeEvent) (s : DrivingSession) (st : State)
  : State :=
  mkState (sessionStatus st) (Some (with_events (events s ++ [e]) s))
          (permissionDetails st)
          (currentAccelerometer st) (currentLocation st) (currentSpeed st)
          (List.length (events s ++ [e])) (confirmedPotholes st) (falsePositives st)
          (totalDistance st) (lastLocation st) (sessionStartTime st)
          (startCoords st) (destinationCoords st) (alerts st) (exported st).

(** The repository holds the route page twice (the two script blocks of
    [src/unnamed/part_000]); for the session logic the two differ in
    [handleAccelerometerData] only. *)
Inductive PageVariant : Set :=
| recordAll          (* first script block, handler at lines 768-807 *)
| recordMediumHigh.  (* second script block, handler at lines 3798-3848 *)

(** [handleAccelerometerData] of the first script block (the map-less page
    of [src/unnamed/part_001] records in the same way): every candidate
    with a current location and a session becomes an event.  [newId] is
    the value [generateEventId()] returns if it is called. *)
Definition handleAccelerometerData_all
           (reading : AccelerometerReading) (newId : string) (st : State)
  : State :=
  let st1 := set_currentAccelerometer reading st in
  if detectPothole reading then
    match currentLocation st1, currentSession st1 with
    | Some loc, Some s =>
        pushEvent (newEvent newId reading loc (calculateSeverity reading)) s st1
    | _, _ => st1
    end
  else st1.

(** [handleAccelerometerData] of the second script block: the severity is
    computed first and only medium and high candidates are recorded; a low
    one is written to the console only. *)
Definition handleAccelerometerData_filtered
           (reading : AccelerometerReading) (newId : string) (st : State)
  : State :=
  let st1 := set_currentAccelerometer reading st in
  if detectPothole reading then
    match currentLocation st1, currentSession st1 with
    | Some loc, Some s =>
        let sev := calculateSeverity reading in
        match sev with
        | medium | high => pushEvent (newEvent newId reading loc sev) s st1
        | low => st1
        end
    | _, _ => st1
    end
  else st1.

Definition handleAccelerometerData (v : PageVariant) :=
  match v with
  | recordAll => handleAccelerometerData_all
  | recordMediumHigh => handleAccelerometerData_filtered
  end.

(** [handleLocationData(location)]. *)
Definition handleLocationData `{JSMath} (loc : LocationData) (st : State)
  : State :=
  let speed' := match l_speed loc with
                | Some v => Math_round (v * 0x1.ccccccccccccdp+1)   (* 3.6 *)
                | None => currentSpeed st
                end in
  let '(total', session') :=
    match lastLocation st, currentSession st with
    | Some prev, Some s =>
        let distance := calculateDistance (latitude prev) (longitude prev)
                                          (latitude loc) (longitude loc) in
        let total := totalDistance st + distance / 1000 in
        (total, Some (with_totalDistance total s))
    | _, _ => (totalDistance st, currentSession st)
    end in
  {| currentLocation := Some loc;
     currentSpeed := speed';
     totalDistance := total';
     currentSession := session';
     lastLocation := Some loc;
     sessionStatus := sessionStatus st;
     permissionDetails := permissionDetails st;
     currentAccelerometer := currentAccelerometer st;
     eventsCount := eventsCount st;
     confirmedPotholes := confirmedPotholes st;
     falsePositives := falsePositives st;
     sessionStartTime := sessionStartTime st;
     startCoords := startCoords st;
     destinationCoords := destinationCoords st;
     alerts := alerts st;
     exported := exported st |}.

(** [events.find((e) => e.id === eventId)] followed by the assignments to
    the object found: the first event with that id is the one changed. *)
Definition hasId (eventId : string) (e : PotholeEvent) : bool :=
  String.eqb (e_id e) eventId.

Fixpoint updateFirst (eventId : string) (f : PotholeEvent -> PotholeEvent)
         (l : list PotholeEvent) : list PotholeEvent :=
  match l with
  | [] => []
  | e :: l' => if hasId eventId e then f e :: l'
               else e :: updateFirst eventId f l'
  end.

Definition resolve (confirmed : bool) (lbl : Label) (e : PotholeEvent)
  : PotholeEvent :=
  mkEvent (e_id e) (e_timestamp e) (accelerometer e) (location e) (e_speed e)
          lbl (Some confirmed) (severity e).

Definition set_ledger (s : DrivingSession) (nConfirmed nFalse : nat)
           (st : State) : State :=
  mkState (sessionStatus st) (Some s) (permissionDetails st)
          (currentAccelerometer st) (currentLocation st) (currentSpeed st)
          (eventsCount st) nConfirmed nFalse
          (totalDistance st) (lastLocation st) (sessionStartTime st)
          (startCoords st) (destinationCoords st) (alerts st) (exported st).

(** [confirmPothole(eventId)]: no test of the event's current
    [userConfirmed]. *)
Definition confirmPothole (eventId : string) (st : State) : State :=
  match currentSession st with
  | None => st
  | Some s =>
    match find (hasId eventId) (events s) with
    | Some _ =>
        set_ledger
          (with_events (updateFirst eventId (resolve true pothole_confirmed)
                                    (events s)) s)
          (S (confirmedPotholes st)) (falsePositives st) st
    | None => st
    end
  end.

(** [markFalsePositive(eventId)]. *)
Definition markFalsePositive (eventId : string) (st : State) : State :=
  match currentSession st with
  | None => st
  | Some s =>
    match find (hasId eventId) (events s) with
    | Some _ =>
        set_ledger
          (with_events (updateFirst eventId (resolve false false_positive)
                                    (events s)) s)
          (confirmedPotholes st) (S (falsePositives st)) st
    | None => st
    end
  end.

(** The assignment to [permissionDetails] in [requestPermissions], whose
    two booleans are the answer of the [SensorManager], and its alert. *)
Definition requestPermissions (acc loc : bool) (st : State) : State :=
  let st1 :=
    mkState (sessionStatus st) (currentSession st) (mkPermissions acc loc)
            (currentAccelerometer st) (currentLocation st) (currentSpeed st)
            (eventsCount st) (confirmedPotholes st) (falsePositives st)
            (totalDistance st) (lastLocation st) (sessionStartTime st)
            (startCoords st) (destinationCoords st) (alerts st) (exported st) in
  if negb acc then
    alert "Motion sensor access is required for pothole detection. Please grant permissions first." st1
  else st1.

(** The assignments to [startCoords] and [destinationCoords] made when a
    place is chosen or cleared. *)
Definition selectStart (c : option LatLng) (st : State) : State :=
  mkState (sessionStatus st) (currentSession st) (permissionDetails st)
          (currentAccelerometer st) (currentLocation st) (currentSpeed st)
          (eventsCount st) (confirmedPotholes st) (falsePositives st)
          (totalDistance st) (lastLocation st) (sessionStartTime st)
          c (destinationCoords st) (alerts st) (exported st).

Definition selectDestination (c : option LatLng) (st : State) : State :=
  mkState (sessionStatus st) (currentSession st) (permissionDetails st)
          (currentAccelerometer st) (currentLocation st) (currentSpeed st)
          (eventsCount st) (confirmedPotholes st) (falsePositives st)
          (totalDistance st) (lastLocation st) (sessionStartTime st)
          (startCoords st) c (alerts st) (exported st).

(** [e.userConfirmed === true] and [e.userConfirmed === false]. *)
Definition isConfirmed (e : PotholeEvent) : bool :=
  match userConfirmed e with Some true => true | _ => false end.

Definition isRejected (e : PotholeEvent) : bool :=
  match userConfirmed e with Some false => true | _ => false end.

(** The reactive block [$: if (currentSession) { eventsCount = ...;
    confirmedPotholes = ...; falsePositives = ... }], which the framework
    runs again after a handler has assigned [currentSession]. *)
Definition reactiveStats (st : State) : State :=
  match currentSession st with
  | Some s =>
      mkState (sessionStatus st) (currentSession st) (permissionDetails st)
              (currentAccelerometer st) (currentLocation st) (currentSpeed st)
              (List.length (events s))
              (List.length (filter isConfirmed (events s)))
              (List.length (filter isRejected (events s)))
              (totalDistance st) (lastLocation st) (sessionStartTime st)
              (startCoords st) (destinationCoords st) (alerts st) (exported st)
  | None => st
  end.

(** ** The component as a transition system

    One [Action] per callback the browser or the user can trigger, with the
    values the environment supplies ([Date.now()], [generateEventId()],
    the sensor sample).  Callbacks run one at a time, to completion. *)

Inductive Action : Set :=
| RequestPermissions (acc loc : bool)
| SelectStart (c : option LatLng)
| SelectDestination (c : option LatLng)
| StartSession (now : float) (newId : string)
| StopSession (now : float)
| AccelerometerData (reading : AccelerometerReading) (newId : string)
| LocationFix (loc : LocationData)
| ConfirmPothole (eventId : string)
| MarkFalsePositive (eventId : string).

Definition handle `{JSMath} (v : PageVariant) (a : Action) (st : State)
  : State :=
  match a with
  | RequestPermissions acc loc => requestPermissions acc loc st
  | SelectStart c => selectStart c st
  | SelectDestination c => selectDestination c st
  | StartSession now newId => startSession now newId st
  | StopSession now => stopSession now st
  | AccelerometerData reading newId => handleAccelerometerData v reading newId st
  | LocationFix loc => handleLocationData loc st
  | ConfirmPothole eventId => confirmPothole eventId st
  | MarkFalsePositive eventId => markFalsePositive eventId st
  end.

(** A callback followed by the framework's update of the derived counters. *)
Definition step `{JSMath} (v : PageVariant) (a : Action) (st : State) : State :=
  reactiveStats (handle v a st).

Definition run `{JSMath} (v : PageVariant) (tr : list Action) (st : State)
  : State :=
  fold_left (fun s a => step v a s) tr st.

(** The events of the current session, none when there is no session. *)
Definition sessionEvents (st : State) : list PotholeEvent :=
  match currentSession st with
  | Some s => events s
  | None => []
  end.

(** ** lib/utils/sensors.ts: the class [SensorManager]

    The class keeps two permission flags and the identifier of its
    geolocation watch; it registers a [devicemotion] listener on [window]
    and position watches with [navigator.geolocation].  What it uses of
    the browser is modelled by [Browser]: the listeners and watches
    registered, each with the callback its closure captured, a source of
    fresh handles (closure identities and watch identifiers), and whether
    [navigator] has [geolocation]. *)

Module SensorManager.

Record Browser (M L : Type) : Type := mkBrowser {
  motionListeners : list (nat * M);   (* in registration order *)
  positionWatches : list (nat * L);
  nextHandle : nat;
  geolocation : bool
}.

Arguments mkBrowser {M L}.
Arguments motionListeners {M L}.
Arguments positionWatches {M L}.
Arguments nextHandle {M L}.
Arguments geolocation {M L}.

Record t : Set := mk {
  _accelerometerPermission : bool;
  _locationPermission : bool;
  watchId : option nat;
  accelerometerInterval : option nat
}.

(** [new SensorManager()]. *)
Definition new : t := mk false false None None.

(** How [DeviceMotionEvent.requestPermission] answers: the function does
    not exist, it resolves (with ['granted'] or with something else), or
    it fails. *)
Inductive MotionPrompt : Set :=
| noPrompt
| promptAnswers (granted : bool)
| promptFails.

(** How the one-off [getCurrentPosition] ends. *)
Inductive PositionProbe : Set := positionResolves | positionRejects.

(** [requestPermissions()], first version of the file (lines 20-60): the
    value returned and the manager afterwards. *)
Definition requestPermissions {M L} (prompt : MotionPrompt)
           (probe : PositionProbe) (br : Browser M L) (sm : t) : bool * t :=
  let acc := match prompt with
             | noPrompt => true
             | promptAnswers granted => granted
             | promptFails => false
             end in
  let loc := if geolocation br then
               match probe with
               | positionResolves => true
               | positionRejects => geolocation br
               end
             else _locationPermission sm in
  (acc, mk acc loc (watchId sm) (accelerometerInterval sm)).

(** [window.addEventListener('devicemotion', f)] with [f] a closure just
    created. *)
Definition addMotionListener {M L} (callback : M) (br : Browser M L)
  : Browser M L :=
  mkBrowser (motionListeners br ++ [(nextHandle br, callback)])
            (positionWatches br) (S (nextHandle br)) (geolocation br).

(** [window.removeEventListener('devicemotion', f)]: the listener whose
    function is [f] is removed, if there is one. *)
Definition removeMotionListener {M L} (f : nat) (br : Browser M L)
  : Browser M L :=
  mkBrowser (filter (fun l => negb (Nat.eqb (fst l) f)) (motionListeners br))
            (positionWatches br) (nextHandle br) (geolocation br).

(** [navigator.geolocation.watchPosition(...)]: the watch and its
    identifier. *)
Definition watchPosition {M L} (callback : L) (br : Browser M L)
  : nat * Browser M L :=
  (nextHandle br,
   mkBrowser (motionListeners br)
             (positionWatches br ++ [(nextHandle br, callback)])
             (S (nextHandle br)) (geolocation br)).

(** [navigator.geolocation.clearWatch(id)]. *)
Definition clearWatch {M L} (id : nat) (br : Browser M L) : Browser M L :=
  mkBrowser (motionListeners br)
            (filter (fun w => negb (Nat.eqb (fst w) id)) (positionWatches br))
            (nextHandle br) (geolocation br).

(** [startAccelerometer(callback)]. *)
Definition startAccelerometer {M L} (callback : M) (sm : t) (br : Browser M L)
  : Browser M L :=
  if negb (_accelerometerPermission sm) then br
  else addMotionListener callback br.

(** [startLocationTracking(callback)]. *)
Definition startLocationTracking {M L} (callback : L) (sm : t)
           (br : Browser M L) : t * Browser M L :=
  if negb (_locationPermission sm) || negb (geolocation br) then (sm, br)
  else
    let '(id, br') := watchPosition callback br in
    (mk (_accelerometerPermission sm) (_locationPermission sm) (Some id)
        (accelerometerInterval sm),
     br').

(** [stopAllSensors()].  The function passed to [removeEventListener] is
    an arrow function written in place, so a closure of its own; no
    method assigns [accelerometerInterval], whose timer is not modelled. *)
Definition stopAllSensors {M L} (sm : t) (br : Browser M L)
  : t * Browser M L :=
  let br1 := match watchId sm with
             | Some id => clearWatch id br
             | None => br
             end in
  let fresh := nextHandle br1 in
  let br2 := mkBrowser (motionListeners br1) (positionWatches br1)
                       (S fresh) (geolocation br1) in
  (mk (_accelerometerPermission sm) (_locationPermission sm) None None,
   removeMotionListener fresh br2).

(** The calls a client can make, and a sequence of them. *)
Inductive Call (M L : Type) : Type :=
| CallRequestPermissions (prompt : MotionPrompt) (probe : PositionProbe)
| CallStartAccelerometer (callback : M)
| CallStartLocationTracking (callback : L)
| CallStopAllSensors.

Arguments CallRequestPermissions {M L}.
Arguments CallStartAccelerometer {M L}.
Arguments CallStartLocationTracking {M L}.
Arguments CallStopAllSensors {M L}.

Definition call {M L} (c : Call M L) (w : t * Browser M L) : t * Browser M L :=
  let '(sm, br) := w in
  match c with
  | CallRequestPermissions prompt probe =>
      (snd (requestPermissions prompt probe br sm), br)
  | CallStartAccelerometer callback => (sm, startAccelerometer callback sm br)
  | CallStartLocationTracking callback => startLocationTracking callback sm br
  | CallStopAllSensors => stopAllSensors sm br
  end.

Definition calls {M L} (cs : list (Call M L)) (w : t * Browser M L)
  : t * Browser M L :=
  fold_left (fun w c => call c w) cs w.

(** A browser in which nothing is registered yet. *)
Definition emptyBrowser {M L} (geo : bool) : Browser M L :=
  mkBrowser [] [] 0 geo.

(** Every handle in use was handed out: it is below the next one. *)
Definition handlesFresh {M L} (br : Browser M L) : bool :=
  forallb (fun l => Nat.ltb (fst l) (nextHandle br)) (motionListeners br)
  && forallb (fun w => Nat.ltb (fst w) (nextHandle br)) (positionWatches br).

(** The identifiers of the watches that are running. *)
Definition watchIds {M L} (br : Browser M L) : list nat :=
  map fst (positionWatches br).

(** What keeps a watch alive: it is running and it is not the one the
    manager remembers. *)
Definition orphaned {M L} (id : nat) (w : t * Browser M L) : Prop :=
  handlesFresh (snd w) = true /\
  In id (watchIds (snd w)) /\
  watchId (fst w) <> Some id.

End SensorManager.

(** The position callback of [startLocationTracking]: the sample it passes
    on, stamped with [Date.now()]. *)
Record Coordinates : Set := mkCoordinates {
  c_latitude : float;
  c_longitude : float;
  c_speed : option float;
  c_accuracy : float
}.

Definition positionCallback (coords : Coordinates) (now : float)
  : LocationData :=
  mkLocation (c_latitude coords) (c_longitude coords) (c_speed coords)
             (c_accuracy coords) now.

(** ** The page together with its [SensorManager]

    The page creates one [SensorManager] when it is mounted and passes
    [handleAccelerometerData] and [handleLocationData] to it as callbacks.
    A [World] holds the component's variables, the manager and the
    browser's registrations.  The asynchronous [requestPermissions] and
    [enableLocation] are taken as one step each, with the answers of the
    two permission requests given by the environment. *)

Definition MotionCallback : Type :=
  AccelerometerReading -> string -> State -> State.

Definition LocationCallback : Type := LocationData -> State -> State.

Record World : Type := mkWorld {
  page : State;
  sensorManager : SensorManager.t;
  browser : SensorManager.Browser MotionCallback LocationCallback
}.

(** The component after [sensorManager = new SensorManager()] in
    [onMount], in a browser with or without geolocation. *)
Definition mounted (geo : bool) : World :=
  mkWorld initialState SensorManager.new (SensorManager.emptyBrowser geo).

Definition set_permissionDetails (p : PermissionDetails) (st : State) : State :=
  mkState (sessionStatus st) (currentSession st) p
          (currentAccelerometer st) (currentLocation st) (currentSpeed st)
          (eventsCount st) (confirmedPotholes st) (falsePositives st)
          (totalDistance st) (lastLocation st) (sessionStartTime st)
          (startCoords st) (destinationCoords st) (alerts st) (exported st).

(** The page's [requestPermissions()] (lines 615-629). *)
Definition pageRequestPermissions
           (prompt : SensorManager.MotionPrompt)
           (probe : SensorManager.PositionProbe) (w : World) : World :=
  let '(permissionsGranted, sm) :=
    SensorManager.requestPermissions prompt probe (browser w)
                                     (sensorManager w) in
  let st1 := set_permissionDetails
               (mkPermissions (SensorManager._accelerometerPermission sm)
                              (SensorManager._locationPermission sm))
               (page w) in
  mkWorld
    (if negb permissionsGranted then
       alert "Motion sensor access is required for pothole detection. Please grant permissions first." st1
     else st1)
    sm (browser w).

(** [enableLocation()] (lines 632-665), which [onMount] calls and which
    the location button calls again. *)
Definition enableLocation `{JSMath}
           (prompt : SensorManager.MotionPrompt)
           (probe : SensorManager.PositionProbe) (w : World) : World :=
  let '(_, sm) :=
    SensorManager.requestPermissions prompt probe (browser w)
                                     (sensorManager w) in
  let details := mkPermissions (SensorManager._accelerometerPermission sm)
                               (SensorManager._locationPermission sm) in
  let st1 := set_permissionDetails details (page w) in
  let w2 :=
    if p_location details then
      let '(sm', br') :=
        SensorManager.startLocationTracking handleLocationData sm (browser w) in
      mkWorld st1 sm' br'
    else
      mkWorld
        (alert "Location access is required for navigation features. Please grant location permissions." st1)
        sm (browser w) in
  if negb (p_accelerometer details) then
    mkWorld
      (alert "Motion sensor access is required for pothole detection. Please grant motion sensor permissions." (page w2))
      (sensorManager w2) (browser w2)
  else w2.

(** [startSession()] with the two calls that start the sensors, which are
    reached only when none of the three guards returns. *)
Definition worldStartSession `{JSMath} (v : PageVariant)
           (now : float) (newId : string) (w : World) : World :=
  let st := page w in
  if negb (p_accelerometer (permissionDetails st))
     || negb (p_location (permissionDetails st))
     || (isNull (startCoords st) || isNull (destinationCoords st))
  then mkWorld (startSession now newId st) (sensorManager w) (browser w)
  else
    let br1 := SensorManager.startAccelerometer (handleAccelerometerData v)
                                                (sensorManager w) (browser w) in
    let '(sm2, br2) :=
      SensorManager.startLocationTracking handleLocationData
                                          (sensorManager w) br1 in
    mkWorld (startSession now newId st) sm2 br2.

(** [stopSession()] with its call of [stopAllSensors], which the early
    return skips. *)
Definition worldStopSession (now : float) (w : World) : World :=
  match currentSession (page w) with
  | None => w
  | Some _ =>
      let '(sm, br) :=
        SensorManager.stopAllSensors (sensorManager w) (browser w) in
      mkWorld (stopSession now (page w)) sm br
  end.

(** One [devicemotion] event: the browser calls every registered listener
    in registration order.  Each listener is the [handleMotion] closure of
    one [startAccelerometer] call; [env k] gives the values of
    [Date.now()] and of [generateEventId()] during the call of the
    listener at position [k]. *)
Fixpoint dispatchMotion
         (acc : option (option float * option float * option float))
         (env : nat -> float * string) (k : nat)
         (listeners : list (nat * MotionCallback)) (st : State) : State :=
  match listeners with
  | [] => st
  | (_, callback) :: rest =>
      let st' := match handleMotion acc (fst (env k)) with
                 | Some reading =>
                     reactiveStats (callback reading (snd (env k)) st)
                 | None => st
                 end in
      dispatchMotion acc env (S k) rest st'
  end.

(** One position delivered to the watch [id]. *)
Definition dispatchPosition (id : nat) (coords : Coordinates) (now : float)
           (w : World) : World :=
  match find (fun watch => Nat.eqb (fst watch) id)
             (SensorManager.positionWatches (browser w)) with
  | Some (_, callback) =>
      mkWorld (reactiveStats (callback (positionCallback coords now) (page w)))
              (sensorManager w) (browser w)
  | None => w
  end.

Inductive Event : Type :=
| RequestPermissionsCall (prompt : SensorManager.MotionPrompt)
                         (probe : SensorManager.PositionProbe)
| EnableLocation (prompt : SensorManager.MotionPrompt)
                 (probe : SensorManager.PositionProbe)
| ChooseStart (c : option LatLng)
| ChooseDestination (c : option LatLng)
| StartClick (now : float) (newId : string)
| StopClick (now : float)
| DeviceMotion (acc : option (option float * option float * option float))
               (env : nat -> float * string)
| Position (id : nat) (coords : Coordinates) (now : float)
| ConfirmClick (eventId : string)
| RejectClick (eventId : string).

Definition onPage (f : State -> State) (w : World) : World :=
  mkWorld (reactiveStats (f (page w))) (sensorManager w) (browser w).

Definition react `{JSMath} (v : PageVariant) (ev : Event) (w : World) : World :=
  match ev with
  | RequestPermissionsCall prompt probe =>
      onPage (fun st => st) (pageRequestPermissions prompt probe w)
  | EnableLocation prompt probe =>
      onPage (fun st => st) (enableLocation prompt probe w)
  | ChooseStart c => onPage (selectStart c) w
  | ChooseDestination c => onPage (selectDestination c) w
  | StartClick now newId =>
      onPage (fun st => st) (worldStartSession v now newId w)
  | StopClick now => onPage (fun st => st) (worldStopSession now w)
  | DeviceMotion acc env =>
      mkWorld (dispatchMotion acc env 0
                              (SensorManager.motionListeners (browser w))
                              (page w))
              (sensorManager w) (browser w)
  | Position id coords now => dispatchPosition id coords now w
  | ConfirmClick eventId => onPage (confirmPothole eventId) w
  | RejectClick eventId => onPage (markFalsePositive eventId) w
  end.

Definition play `{JSMath} (v : PageVariant) (evs : list Event) (w : World)
  : World :=
  fold_left (fun w ev => react v ev w) evs w.

(** ** A portable [Math]

    Truncated power series, accurate to about nine digits on the angles
    that latitudes and longitudes give; it serves to run the model on
    concrete fixes. *)

Module SeriesMath.

Fixpoint horner (coeffs : list float) (u : float) : float :=
  match coeffs with
  | [] => 0
  | c :: cs => c + u * horner cs u
  end.

(** 1/1!, -1/3!, 1/5!, ... as quotients, so that each is correctly
    rounded. *)
Fixpoint altFact (n : nat) (k : float) (fact : float) (sign : float)
  : list float :=
  match n with
  | O => []
  | S n' => (sign / fact)
            :: altFact n' (k + 2) (fact * (k + 1) * (k + 2)) (- sign)
  end.

Definition sin (u : float) : float :=
  u * horner (altFact 12 1 1 1) (u * u).

Definition cos (u : float) : float :=
  horner (altFact 12 0 1 1) (u * u).

Fixpoint altOdd (n : nat) (k : float) (sign : float) : list float :=
  match n with
  | O => []
  | S n' => (sign / k) :: altOdd n' (k + 2) (- sign)
  end.

Definition halve (t : float) : float := t / (1 + sqrt (1 + t * t)).

(** Arc tangent on [-1, 1]: two halvings of the angle, then the series. *)
Definition atanSmall (t : float) : float :=
  let t2 := halve (halve t) in
  4 * (t2 * horner (altOdd 12 1 1) (t2 * t2)).

Definition atan (t : float) : float :=
  if 1 <? t then Math_PI / 2 - atanSmall (1 / t)
  else if t <? -1 then - (Math_PI / 2) - atanSmall (1 / t)
  else atanSmall t.

Definition atan2 (v u : float) : float :=
  if 0 <? u then atan (v / u)
  else if u <? 0 then
    (if v <? 0 then atan (v / u) - Math_PI else atan (v / u) + Math_PI)
  else if 0 <? v then Math_PI / 2
  else if v <? 0 then - (Math_PI / 2)
  else 0.

End SeriesMath.

Definition seriesMath : JSMath :=
  {| Math_sin := SeriesMath.sin;
     Math_cos := SeriesMath.cos;
     Math_atan2 := SeriesMath.atan2 |}.

(** ** Sample inputs *)

Definition fixA : LocationData := mkLocation 40 (-73) (Some 12) 5 1500.
Definition fixB : LocationData := mkLocation 40.0087890625 (-73) None 5 2500.

Definition jolt18 : AccelerometerReading := mkReading 0 0 18 3000.
Definition jolt22 : AccelerometerReading := mkReading 0 0 22 3100.
Definition jolt30 : AccelerometerReading := mkReading 0 0 30 3200.
Definition calm : AccelerometerReading := mkReading 0 0.5 9.75 3300.

(** Permissions granted and a route chosen. *)
Definition setup : list Action :=
  [ RequestPermissions true true;
    SelectStart (Some (mkLatLng 40 (-73)));
    SelectDestination (Some (mkLatLng 41 (-73))) ].

(** A session started at time 1000, with one fix received since. *)
Definition activeWithFix (v : PageVariant) : State :=
  @run seriesMath v
       (setup ++ [StartSession 1000 "s1"; LocationFix fixA]) initialState.

(** A manager that tracks, in a browser where its watch is the only
    registration. *)
Definition trackingManager : SensorManager.t :=
  SensorManager.mk true true (Some 0%nat) None.

Definition trackingBrowser : SensorManager.Browser unit unit :=
  SensorManager.mkBrowser [] [(0%nat, tt)] 1%nat true.

(** A first session started and stopped; then a second one started, and
    a position delivered to the watch that [enableLocation] started. *)
Definition oneSessionStopped : list Event :=
  [ EnableLocation SensorManager.noPrompt SensorManager.positionResolves;
    ChooseStart (Some (mkLatLng 0.5 32.5));
    ChooseDestination (Some (mkLatLng 0.25 32.5));
    StartClick 1000 "session-1";
    StopClick 2000 ].

Definition secondSessionWithFix : list Event :=
  oneSessionStopped
  ++ [ StartClick 3000 "session-2";
       Position 0 (mkCoordinates 0.5 32.5 None 5) 3500 ].

Definition clock (k : nat) : float * string := (4000, "event"%string).

(** A drive from [fixA] to [fixB], and back after the session is stopped. *)
Definition driveOut : list Action :=
  setup ++ [StartSession 1000 "s1"; LocationFix fixA].

Definition driveBack : list Action :=
  [LocationFix fixB; StopSession 5000; LocationFix fixA].

(** A location sample delivered before the session starts, as the watch
    started by [enableLocation] does, and a jolt before the session's own
    first sample. *)
Definition fixThenStart : list Action :=
  setup ++ [LocationFix fixA; StartSession 2000 "s1"].

(** ** Notions used to state the properties *)

Definition isLocationFix (a : Action) : bool :=
  match a with LocationFix _ => true | _ => false end.

(** Both ledger functions are one function of the flag and the label. *)
Definition setConfirmation (b : bool) (eventId : string) (st : State) : State :=
  if b then confirmPothole eventId st else markFalsePositive eventId st.

Definition labelOf (b : bool) : Label :=
  if b then pothole_confirmed else false_positive.

(** The three guards of [startSession] taken together. *)
Definition canStart (st : State) : bool :=
  p_accelerometer (permissionDetails st) && p_location (permissionDetails st)
  && negb (isNull (startCoords st)) && negb (isNull (destinationCoords st)).

(** A trace after which the page holds no current location: the empty
    one (the page was just loaded), or one that ends with the
    [stopSession] that ended a session. *)
Definition clearsLocation `{JSMath} (v : PageVariant) (tr : list Action)
  : Prop :=
  tr = [] \/
  exists tr' now,
    tr = tr' ++ [StopSession now] /\
    currentSession (run v tr' initialState) <> None.

(** The part of an event that is fixed when it is created: everything but
    [label] and [userConfirmed]. *)
Definition snapshot (e : PotholeEvent) :=
  (e_id e, e_timestamp e, accelerometer e, location e, e_speed e, severity e).

(** The severity stored is the one of the stored reading, and that reading
    is a candidate. *)
Definition wellFormed (e : PotholeEvent) : Prop :=
  severity e = calculateSeverity (accelerometer e) /\
  detectPothole (accelerometer e) = true.

Definition pendingCandidate (e : PotholeEvent) : Prop :=
  wellFormed e /\ userConfirmed e = None /\ label e = pothole_detected.

(** The session after a callback, seen from the state before it: there is
    none, or it is a new empty one, or it is the previous session with its
    identifier, times and average speed, whose events are the previous
    ones, snapshots unchanged and in order, followed by newly created
    pending candidates. *)
Inductive SessionChange (st : State) : option DrivingSession -> Prop :=
| change_none : SessionChange st None
| change_fresh newId now :
    SessionChange st (Some (mkSession newId now None [] 0 0))
| change_kept s kept d new :
    currentSession st = Some s ->
    map snapshot kept = map snapshot (events s) ->
    Forall pendingCandidate new ->
    SessionChange st (Some (mkSession (s_id s) (startTime s) (endTime s)
                                      (kept ++ new) d (averageSpeed s))).

(** [wellFormed] read on a snapshot. *)
Definition wellFormedSnapshot
           (sn : string * float * AccelerometerReading * LocationData
                 * option float * Severity) : Prop :=
  let '(_, _, reading, _, _, sev) := sn in
  sev = calculateSeverity reading /\ detectPothole reading = true.

(** While a session is active its average speed is still the initial 0,
    it has no end time, and its events are well formed. *)
Definition sessionInvariant (o : option DrivingSession) : Prop :=
  match o with
  | Some s => averageSpeed s = 0 /\ endTime s = None
              /\ Forall wellFormed (events s)
  | None => True
  end.

(** The increment [handleLocationData] adds for a fix [loc] received after
    [prev]. *)
Definition distanceKm `{JSMath} (prev loc : LocationData) : float :=
  calculateDistance (latitude prev) (longitude prev)
                    (latitude loc) (longitude loc) / 1000.

(** The status says active exactly when there is a session. *)
Definition statusAgrees (st : State) : Prop :=
  match sessionStatus st, currentSession st with
  | active, Some _ => True
  | idle, None => True
  | _, _ => False
  end.

(** [e.userConfirmed === null]: the event is still pending. *)
Definition isPending (e : PotholeEvent) : bool :=
  match userConfirmed e with None => true | Some _ => false end.

(** The buttons the template offers: an event can be confirmed or
    rejected only while its [userConfirmed] is null. *)
Definition offered (a : Action) (st : State) : bool :=
  match a with
  | ConfirmPothole eventId | MarkFalsePositive eventId =>
      match find (hasId eventId) (sessionEvents st) with
      | Some e => isPending e
      | None => true
      end
  | _ => true
  end.

(** The location samples delivered in a trace, oldest first. *)
Definition fixesOf (tr : list Action) : list LocationData :=
  flat_map (fun a => match a with LocationFix loc => [loc] | _ => [] end) tr.

(** What a record handed to [exportSessionData] satisfies: it has an end
    time, and its average speed is the one its own distance, start and end
    give. *)
Definition finished (s : DrivingSession) : Prop :=
  exists t : float,
    endTime s = Some t /\
    averageSpeed s
    = (let duration := (t - startTime s) / 1000 / 60 in
       if gt duration 0 then s_totalDistance s / duration * 60 else 0).

(** An event is geotagged by one of the fixes [fixes]: its location is one
    of them, its speed is the speed of that location, and its time is the
    time of its reading. *)
Definition geotagged (fixes : list LocationData) (e : PotholeEvent) : Prop :=
  In (location e) fixes /\
  e_speed e = l_speed (location e) /\
  e_timestamp e = r_timestamp (accelerometer e).

(** A property [P] of events holds of every event the page holds, in the
    session and in the records exported, and [L] holds of the current
    location. *)
Definition eventsInvariant (P : PotholeEvent -> Prop)
           (L : LocationData -> Prop) (st : State) : Prop :=
  Forall P (sessionEvents st) /\
  Forall (fun s => Forall P (events s)) (exported st) /\
  (forall loc, currentLocation st = Some loc -> L loc).

Definition isStop (a : Action) : bool :=
  match a with StopSession _ => true | _ => false end.

(** The component's own copies of the distance and of the start time are
    those of the session. *)
Definition mirrorsSession (st : State) : Prop :=
  match currentSession st with
  | Some s => s_totalDistance s = totalDistance st /\
              startTime s = sessionStartTime st
  | None => True
  end.

(** The three counters of the page are those of the session's events. *)
Definition countersMatch (st : State) : Prop :=
  match currentSession st with
  | Some s =>
      eventsCount st = List.length (events s) /\
      confirmedPotholes st = List.length (filter isConfirmed (events s)) /\
      falsePositives st = List.length (filter isRejected (events s)) /\
      eventsCount st
      = (confirmedPotholes st + falsePositives st
         + List.length (filter isPending (events s)))%nat
  | None => True
  end.

(** What holds of the page and its sensors after every event: handles
    are fresh, the callbacks registered are the page's two handlers, the
    page's copy of the permissions is the manager's, the location
    permission is held only where there is geolocation, and every session
    started so far has left a listener. *)
Definition worldInvariant `{JSMath} (v : PageVariant) (w : World) : Prop :=
  SensorManager.handlesFresh (browser w) = true /\
  Forall (fun l => snd l = handleAccelerometerData v)
         (SensorManager.motionListeners (browser w)) /\
  Forall (fun watch => snd watch = handleLocationData)
         (SensorManager.positionWatches (browser w)) /\
  permissionDetails (page w)
  = mkPermissions (SensorManager._accelerometerPermission (sensorManager w))
                  (SensorManager._locationPermission (sensorManager w)) /\
  (SensorManager._locationPermission (sensorManager w) = true ->
   SensorManager.geolocation (browser w) = true) /\
  (List.length (exported (page w))
   + match currentSession (page w) with Some _ => 1 | None => 0 end
   <= List.length (SensorManager.motionListeners (browser w)))%nat.

Definition isStart (a : Action) : bool :=
  match a with StartSession _ _ => true | _ => false end.

(** The distances computed between the samples of a list are numbers and
    not negative. *)
Definition distancesAreNumbers `{JSMath} (fixes : list LocationData) : Prop :=
  forall prev loc,
    In prev fixes -> In loc fixes -> (0 <=? distanceKm prev loc) = true.

(** The distance is a number and not negative, and the location stored is
    one of the samples. *)
Definition measured (fixes : list LocationData) (st : State) : Prop :=
  (0 <=? totalDistance st) = true /\
  forall prev, lastLocation st = Some prev -> In prev fixes.

(** What the language requires of [Math.sin] and [Math.atan2] at zero:
    [Math.sin(+0)] is [+0], and [Math.atan2(+0, x)] is [+0] for [x > 0]. *)
Definition exactAtZero `{JSMath} : Prop :=
  Math_sin 0 = 0 /\ Math_atan2 0 1 = 0.

(** The order of the severities. *)
Definition rank (s : Severity) : nat :=
  match s with low => 0 | medium => 1 | high => 2 end.

(** An axis read in the opposite direction. *)
Definition flip (b : bool) (a : float) : float := if b then - a else a.

(** A callback that leaves the permissions and the exported records
    alone and neither opens nor closes a session. *)
Definition keepsFrame (f : State -> State) : Prop :=
  forall st,
    permissionDetails (f st) = permissionDetails st /\
    exported (f st) = exported st /\
    isNull (currentSession (f st)) = isNull (currentSession st).

(** The reading the listener at position [k] builds from the three axes. *)
Definition readingAt (ax ay az : option float) (env : nat -> float * string)
           (k : nat) : AccelerometerReading :=
  mkReading (orZero ax) (orZero ay) (orZero az) (fst (env k)).

(** * Properties *)

(** ** Facts on binary64 comparisons and on [NaN]

    Derived from the specification of the primitive operations
    ([SpecFloat]); they are what the classifier's comparisons rely on. *)

Module FloatFacts.

Lemma SFcompare_refl (a : spec_float) :
  a <> S754_nan -> SFcompare a a = Some Eq.
Proof.
  destruct a as [s | s | | s m e]; simpl; intros Hn.
  - reflexivity.
  - now destruct s.
  - now elim Hn.
  - rewrite Z.compare_refl, Pos.compare_cont_refl. now destruct s.
Qed.

Lemma is_nan_spec (f : float) :
  is_nan f = true <-> Prim2SF f = S754_nan.
Proof.
  unfold is_nan. rewrite eqb_spec. unfold SFeqb.
  split.
  - intros H. destruct (Prim2SF f) eqn:E; try reflexivity;
      rewrite SFcompare_refl in H by discriminate; discriminate H.
  - intros ->. reflexivity.
Qed.

Lemma is_nan_false (f : float) :
  is_nan f = false <-> Prim2SF f <> S754_nan.
Proof.
  rewrite <- is_nan_spec. destruct (is_nan f); split; congruence.
Qed.

Lemma SFcompare_antisym (a b : spec_float) :
  SFcompare a b = option_map CompOpp (SFcompare b a).
Proof.
  destruct a as [sa | sa | | sa ma ea], b as [sb | sb | | sb mb eb];
    simpl; try reflexivity;
    try (now destruct sa); try (now destruct sb);
    try (now destruct sa, sb).
  rewrite (Z.compare_antisym eb ea).
  destruct sa, sb; try reflexivity;
    destruct (eb ?= ea)%Z; simpl; try reflexivity;
    rewrite ?CompOpp_involutive, Pos.compare_cont_antisym; reflexivity.
Qed.

Lemma ltb_nan_l (a b : float) : is_nan a = true -> (a <? b) = false.
Proof.
  rewrite is_nan_spec, ltb_spec. intros ->. reflexivity.
Qed.

Lemma ltb_nan_r (a b : float) : is_nan b = true -> (a <? b) = false.
Proof.
  rewrite is_nan_spec, ltb_spec. intros ->.
  unfold SFltb. now destruct (Prim2SF a).
Qed.

Lemma ltb_not_nan (a b : float) :
  (a <? b) = true -> is_nan a = false /\ is_nan b = false.
Proof.
  intros H. split.
  - destruct (is_nan a) eqn:E; [ | reflexivity ].
    now rewrite (ltb_nan_l a b E) in H.
  - destruct (is_nan b) eqn:E; [ | reflexivity ].
    now rewrite (ltb_nan_r a b E) in H.
Qed.

(** On numbers, [a < b] is the negation of [b <= a]. *)
Lemma ltb_negb_leb (a b : float) :
  is_nan a = false -> is_nan b = false -> (a <? b) = negb (b <=? a).
Proof.
  rewrite !is_nan_false, ltb_spec, leb_spec. unfold SFltb, SFleb.
  intros Ha Hb. rewrite (SFcompare_antisym (Prim2SF b) (Prim2SF a)).
  destruct (Prim2SF a) as [sa | sa | | sa ma ea] eqn:Ea;
    destruct (Prim2SF b) as [sb | sb | | sb mb eb] eqn:Eb;
    try (now elim Ha); try (now elim Hb);
    match goal with
    | |- context [SFcompare ?u ?v] =>
        destruct (SFcompare u v) as [[ | | ] | ] eqn:Ec; try reflexivity
    end;
    simpl in Ec; try discriminate Ec;
    destruct sa; try discriminate Ec; destruct sb; discriminate Ec.
Qed.

Lemma leb_ltb_false (a b : float) : (a <=? b) = true -> (b <? a) = false.
Proof.
  rewrite ltb_spec, leb_spec. unfold SFltb, SFleb.
  rewrite (SFcompare_antisym (Prim2SF b) (Prim2SF a)).
  now destruct (SFcompare (Prim2SF a) (Prim2SF b)) as [[ | | ] | ].
Qed.

Lemma mul_nan_l (a b : float) : is_nan a = true -> is_nan (a * b) = true.
Proof.
  rewrite !is_nan_spec, mul_spec. intros ->. reflexivity.
Qed.

Lemma mul_nan_r (a b : float) : is_nan b = true -> is_nan (a * b) = true.
Proof.
  rewrite !is_nan_spec, mul_spec. intros ->.
  unfold SF64mul, SFmul. now destruct (Prim2SF a).
Qed.

Lemma add_nan_l (a b : float) : is_nan a = true -> is_nan (a + b) = true.
Proof.
  rewrite !is_nan_spec, add_spec. intros ->. reflexivity.
Qed.

Lemma add_nan_r (a b : float) : is_nan b = true -> is_nan (a + b) = true.
Proof.
  rewrite !is_nan_spec, add_spec. intros ->.
  unfold SF64add, SFadd. now destruct (Prim2SF a).
Qed.

Lemma sqrt_nan (a : float) : is_nan a = true -> is_nan (sqrt a) = true.
Proof.
  rewrite !is_nan_spec, sqrt_spec. intros ->. reflexivity.
Qed.

(** *** Addition of non-negative numbers

    The sum of two non-negative binary64 numbers is not below the first
    one.  The proof follows the specification of the rounded sum:
    alignment of the two mantissas, shift to the exponent of the format,
    rounding to nearest. *)

Section Rounding.

Local Open Scope Z_scope.
Variables prec emax : Z.
Hypothesis Hprec : 0 < prec.

Abbreviation fexp := (SpecFloat.fexp prec emax).
Abbreviation emin := (SpecFloat.emin prec emax).

Lemma digits2_bounds (p : positive) :
  2 ^ (Z.pos (digits2_pos p) - 1) <= Z.pos p < 2 ^ Z.pos (digits2_pos p).
Proof.
  induction p as [p IH | p IH | ]; simpl digits2_pos.
  - rewrite Pos2Z.inj_succ.
    replace (Z.succ (Z.pos (digits2_pos p)) - 1)
      with (Z.succ (Z.pos (digits2_pos p) - 1)) by lia.
    rewrite !Z.pow_succ_r by lia. lia.
  - rewrite Pos2Z.inj_succ.
    replace (Z.succ (Z.pos (digits2_pos p)) - 1)
      with (Z.succ (Z.pos (digits2_pos p) - 1)) by lia.
    rewrite !Z.pow_succ_r by lia. lia.
  - simpl. lia.
Qed.

Lemma digits2_mono (p q : positive) :
  (p <= q)%positive -> (digits2_pos p <= digits2_pos q)%positive.
Proof.
  intros Hle.
  destruct (Pos.leb_spec (digits2_pos p) (digits2_pos q)) as [ | Hlt ];
    [ assumption | exfalso ].
  pose proof (digits2_bounds p) as [Hp _].
  pose proof (digits2_bounds q) as [_ Hq].
  assert (2 ^ Z.pos (digits2_pos q) <= 2 ^ (Z.pos (digits2_pos p) - 1))
    by (apply Z.pow_le_mono_r; lia).
  lia.
Qed.

Lemma iter_xO (d m : positive) :
  Z.pos (Pos.iter xO m d) = Z.pos m * 2 ^ Z.pos d.
Proof.
  induction d as [ | d IH] using Pos.peano_ind.
  - simpl. lia.
  - rewrite Pos.iter_succ, Pos2Z.inj_succ, Z.pow_succ_r by lia.
    rewrite Pos2Z.inj_xO, IH. lia.
Qed.

Lemma shl_align_fst (m : positive) (e e' : Z) :
  e' <= e -> Z.pos (fst (shl_align m e e')) = Z.pos m * 2 ^ (e - e').
Proof.
  intros Hle. unfold shl_align.
  destruct (e' - e) as [ | d | d] eqn:E; simpl.
  - replace (e - e') with 0 by lia. simpl. lia.
  - lia.
  - rewrite iter_xO. replace (e - e') with (Z.pos d) by lia. reflexivity.
Qed.

Lemma shr_1_m (mrs : shr_record) :
  0 <= shr_m mrs -> shr_m (shr_1 mrs) = shr_m mrs / 2.
Proof.
  destruct mrs as [m r s]. simpl. intros Hm.
  destruct m as [ | [q | q | ] | q ]; simpl; try lia; try reflexivity.
  - apply Z.div_unique with (r := 1); lia.
  - apply Z.div_unique with (r := 0); lia.
Qed.

Lemma iter_shr_1_m (n : positive) :
  forall mrs, 0 <= shr_m mrs ->
              shr_m (iter_pos shr_1 n mrs) = shr_m mrs / 2 ^ Z.pos n.
Proof.
  assert (Hpos : forall k, 0 < 2 ^ Z.pos k)
    by (intros; apply Z.pow_pos_nonneg; lia).
  induction n as [n IH | n IH | ]; intros mrs Hm; simpl iter_pos.
  - assert (HxI : 2 ^ Z.pos n~1 = 2 * (2 ^ Z.pos n * 2 ^ Z.pos n)).
    { rewrite <- Z.pow_add_r, <- Z.pow_succ_r by lia. f_equal. lia. }
    assert (H1 : 0 <= shr_m (shr_1 mrs))
      by (rewrite shr_1_m by assumption; apply Z.div_pos; lia).
    assert (H2 : 0 <= shr_m (iter_pos shr_1 n (shr_1 mrs)))
      by (rewrite IH by assumption; apply Z.div_pos; [ lia | apply Hpos ]).
    rewrite IH, IH, shr_1_m by assumption.
    pose proof (Hpos n).
    rewrite !Z.div_div by lia. now rewrite HxI.
  - assert (HxO : 2 ^ Z.pos n~0 = 2 ^ Z.pos n * 2 ^ Z.pos n).
    { rewrite <- Z.pow_add_r by lia. f_equal. lia. }
    assert (H2 : 0 <= shr_m (iter_pos shr_1 n mrs))
      by (rewrite IH by assumption; apply Z.div_pos; [ lia | apply Hpos ]).
    rewrite IH, IH by assumption.
    pose proof (Hpos n).
    rewrite !Z.div_div by lia. now rewrite HxO.
  - rewrite shr_1_m by assumption. reflexivity.
Qed.

Lemma fexp_mono (a b : Z) : a <= b -> fexp a <= fexp b.
Proof. unfold SpecFloat.fexp. lia. Qed.

Lemma fexp_emin (a : Z) : emin <= fexp a.
Proof. unfold SpecFloat.fexp. lia. Qed.

Lemma Zdigits2_pos (m : positive) : Zdigits2 (Z.pos m) = Z.pos (digits2_pos m).
Proof. reflexivity. Qed.

(** Dropping fewer bits than the number has leaves a positive number. *)
Lemma div_pow2_pos (m : positive) (k : Z) :
  0 <= k <= Z.pos (digits2_pos m) - 1 -> 1 <= Z.pos m / 2 ^ k.
Proof.
  intros Hk. pose proof (digits2_bounds m) as [Hlo _].
  assert (Hpk : 0 < 2 ^ k) by (apply Z.pow_pos_nonneg; lia).
  apply Z.div_le_lower_bound; [ exact Hpk | ].
  assert (2 ^ k <= 2 ^ (Z.pos (digits2_pos m) - 1))
    by (apply Z.pow_le_mono_r; lia).
  lia.
Qed.

Lemma shr_m_of_loc (m : Z) (l : SpecFloat.location) :
  shr_m (shr_record_of_loc m l) = m.
Proof. now destruct l as [ | [ | | ] ]. Qed.

(** [shr_fexp] moves to the exponent of the format, never below the
    exponent given, and divides the mantissa accordingly. *)
Lemma shr_fexp_spec (m e : Z) (l : SpecFloat.location) :
  0 <= m ->
  shr_m (fst (shr_fexp prec emax m e l))
  = m / 2 ^ (Z.max e (fexp (Zdigits2 m + e)) - e) /\
  snd (shr_fexp prec emax m e l) = Z.max e (fexp (Zdigits2 m + e)).
Proof.
  intros Hm. unfold shr_fexp, shr.
  destruct (fexp (Zdigits2 m + e) - e) as [ | n | n ] eqn:En; simpl.
  - rewrite shr_m_of_loc. replace (Z.max e (fexp (Zdigits2 m + e))) with e by lia.
    rewrite Z.sub_diag. simpl. now rewrite Z.div_1_r.
  - rewrite iter_shr_1_m by now rewrite shr_m_of_loc.
    rewrite shr_m_of_loc.
    replace (Z.max e (fexp (Zdigits2 m + e))) with (e + Z.pos n) by lia.
    split; [ f_equal; f_equal; lia | reflexivity ].
  - rewrite shr_m_of_loc. replace (Z.max e (fexp (Zdigits2 m + e))) with e by lia.
    rewrite Z.sub_diag. simpl. now rewrite Z.div_1_r.
Qed.

Lemma round_nearest_even_bounds (m : Z) (l : SpecFloat.location) :
  m <= round_nearest_even m l <= m + 1.
Proof.
  destruct l as [ | [ | | ] ]; simpl; try lia.
  destruct (Z.even m); lia.
Qed.

(** A positive mantissa at an exponent of the format stays positive
    through [shr_fexp]. *)
Lemma shr_fexp_pos (m : positive) (e : Z) (l : SpecFloat.location) :
  emin <= e ->
  1 <= shr_m (fst (shr_fexp prec emax (Z.pos m) e l)).
Proof.
  intros He.
  destruct (shr_fexp_spec (Z.pos m) e l) as [-> _]; [ lia | ].
  rewrite Zdigits2_pos.
  apply div_pow2_pos. unfold SpecFloat.fexp, SpecFloat.emin in *. lia.
Qed.

(** The rounded sum: [M] at exponent [ez], not below [mt] at exponent
    [et], rounds to a number not below [mt] at [et]. *)
Lemma binary_round_aux_ge (M mt : positive) (ez et : Z) :
  emin <= ez -> ez <= et ->
  Z.pos mt * 2 ^ (et - ez) <= Z.pos M ->
  et <= fexp (Z.pos (digits2_pos M) + ez) ->
  match binary_round_aux prec emax false (Z.pos M) ez loc_Exact with
  | S754_finite false m e => et < e \/ (et = e /\ (mt <= m)%positive)
  | S754_infinity false => True
  | _ => False
  end.
Proof.
  intros Hez Hle HM HE. unfold binary_round_aux.
  pose proof (shr_fexp_spec (Z.pos M) ez loc_Exact ltac:(lia)) as [Hm1 He1].
  pose proof (shr_fexp_pos M ez loc_Exact Hez) as Hp1.
  destruct (shr_fexp prec emax (Z.pos M) ez loc_Exact) as [mrs1 e1].
  cbn [fst snd] in Hm1, He1, Hp1. rewrite Zdigits2_pos in Hm1, He1.
  pose proof (round_nearest_even_bounds (shr_m mrs1) (loc_of_shr_record mrs1))
    as Hr.
  assert (He1' : emin <= e1) by lia.
  destruct (round_nearest_even (shr_m mrs1) (loc_of_shr_record mrs1))
    as [ | m1 | m1 ] eqn:Em1; try lia.
  pose proof (shr_fexp_spec (Z.pos m1) e1 loc_Exact ltac:(lia)) as [Hm2 He2].
  pose proof (shr_fexp_pos m1 e1 loc_Exact He1') as Hp2.
  destruct (shr_fexp prec emax (Z.pos m1) e1 loc_Exact) as [mrs2 e2].
  cbn [fst snd] in Hm2, He2, Hp2. rewrite Zdigits2_pos in Hm2, He2.
  destruct (shr_m mrs2) as [ | m2 | m2 ] eqn:Em2; try lia.
  destruct (e2 <=? emax - prec); [ | exact I ].
  assert (Hge : et <= e1) by lia.
  destruct (Z.eq_dec et e2) as [Heq | Hne]; [ right | left; lia ].
  split; [ exact Heq | ].
  assert (e2 = e1) by lia. assert (e1 = et) by lia. subst e2.
  replace (Z.max e1 (fexp (Z.pos (digits2_pos m1) + e1)) - e1) with 0 in Hm2
    by lia.
  rewrite Z.pow_0_r, Z.div_1_r in Hm2.
  assert (Z.pos mt <= shr_m mrs1).
  { rewrite Hm1.
    replace (Z.max ez (fexp (Z.pos (digits2_pos M) + ez)) - ez)
      with (et - ez) by lia.
    apply Z.div_le_lower_bound; [ apply Z.pow_pos_nonneg; lia | lia ]. }
  lia.
Qed.

(** Shifting left by [k] bits adds [k] digits at least. *)
Lemma digits2_shift (a mt : positive) (k : Z) :
  0 <= k -> Z.pos a = Z.pos mt * 2 ^ k ->
  Z.pos (digits2_pos mt) + k <= Z.pos (digits2_pos a).
Proof.
  intros Hk Ha.
  destruct (Z.le_gt_cases (Z.pos (digits2_pos mt) + k) (Z.pos (digits2_pos a)))
    as [ | Hlt ]; [ assumption | exfalso ].
  pose proof (digits2_bounds mt) as [Hlo _].
  pose proof (digits2_bounds a) as [_ Hhi].
  assert (Hpk : 0 < 2 ^ k) by (apply Z.pow_pos_nonneg; lia).
  assert (2 ^ Z.pos (digits2_pos a) <= 2 ^ (Z.pos (digits2_pos mt) - 1 + k))
    by (apply Z.pow_le_mono_r; lia).
  rewrite Z.pow_add_r in H by lia.
  nia.
Qed.

Lemma canonical_exponent (m : positive) (e : Z) :
  bounded prec emax m e = true ->
  e = fexp (Z.pos (digits2_pos m) + e).
Proof.
  unfold bounded, canonical_mantissa. intros H.
  apply andb_prop in H. destruct H as [H _].
  apply Z.eqb_eq in H. now symmetry.
Qed.

(** The sum of two positive numbers of the format is not below the first
    one, and is not negative. *)
Lemma SFadd_finite_ge (mt md : positive) (et ed : Z) :
  bounded prec emax mt et = true ->
  bounded prec emax md ed = true ->
  SFleb (S754_finite false mt et)
        (SFadd prec emax (S754_finite false mt et) (S754_finite false md ed))
  = true /\
  SFleb (S754_zero false)
        (SFadd prec emax (S754_finite false mt et) (S754_finite false md ed))
  = true.
Proof.
  intros Ht Hd.
  pose proof (canonical_exponent mt et Ht) as Cet.
  pose proof (canonical_exponent md ed Hd) as Ced.
  pose proof (fexp_emin (Z.pos (digits2_pos mt) + et)) as Het.
  pose proof (fexp_emin (Z.pos (digits2_pos md) + ed)) as Hed.
  unfold SFadd. cbn [cond_Zopp].
  set (ez := Z.min et ed).
  assert (Hez : emin <= ez) by (unfold ez; lia).
  assert (Hle : ez <= et) by (unfold ez; lia).
  pose proof (shl_align_fst mt et ez Hle) as Ha.
  set (a := fst (shl_align mt et ez)) in *.
  set (b := fst (shl_align md ed ez)).
  change (Z.pos a + Z.pos b) with (Z.pos (a + b)).
  cbn [binary_normalize]. unfold binary_round.
  assert (HE : et <= fexp (Z.pos (digits2_pos (a + b)) + ez)).
  { rewrite Cet at 1. apply fexp_mono.
    pose proof (digits2_shift a mt (et - ez) ltac:(lia) Ha).
    pose proof (digits2_mono a (a + b) ltac:(lia)).
    lia. }
  assert (Hal : shl_align (a + b) ez (fexp (Z.pos (digits2_pos (a + b)) + ez))
                = ((a + b)%positive, ez)).
  { unfold shl_align.
    destruct (fexp (Z.pos (digits2_pos (a + b)) + ez) - ez) eqn:E;
      try reflexivity. lia. }
  rewrite Hal.
  pose proof (binary_round_aux_ge (a + b) mt ez et Hez Hle ltac:(lia) HE) as Hr.
  destruct (binary_round_aux prec emax false (Z.pos (a + b)) ez loc_Exact)
    as [s | s | | s m e]; try contradiction.
  - destruct s; [ contradiction | ]. split; reflexivity.
  - destruct s; [ contradiction | ]. split; [ | reflexivity ].
    unfold SFleb, SFcompare.
    destruct Hr as [Hlt | [Heq Hm]].
    + apply Z.compare_lt_iff in Hlt. now rewrite Hlt.
    + subst e. rewrite Z.compare_refl.
      change (Pos.compare_cont Eq mt m) with (Pos.compare mt m).
      apply Pos.compare_le_iff in Hm.
      now destruct (mt ?= m)%positive.
Qed.

End Rounding.

Lemma add_nonneg_ge (t d : float) :
  (0 <=? t)%float = true -> (0 <=? d)%float = true ->
  (t <=? t + d)%float = true /\ (0 <=? t + d)%float = true.
Proof.
  rewrite !leb_spec, add_spec.
  pose proof (Prim2SF_valid t) as Vt. pose proof (Prim2SF_valid d) as Vd.
  change (Prim2SF 0) with (S754_zero false).
  destruct (Prim2SF t) as [st | st | | st mt et];
    destruct (Prim2SF d) as [sd | sd | | sd md ed];
    intros Ht Hd; try discriminate Ht; try discriminate Hd;
    try (destruct st; try discriminate Ht);
    try (destruct sd; try discriminate Hd);
    try (split; reflexivity).
  - split; [ | reflexivity ]. unfold SF64add, SFadd, SFleb, SFcompare.
    rewrite Z.compare_refl, Pos.compare_cont_refl. reflexivity.
  - split; [ | reflexivity ]. unfold SF64add, SFadd, SFleb, SFcompare.
    rewrite Z.compare_refl, Pos.compare_cont_refl. reflexivity.
  - apply SFadd_finite_ge; [ reflexivity | assumption | assumption ].
Qed.

Lemma leb_refl (a : float) : is_nan a = false -> (a <=? a) = true.
Proof.
  rewrite is_nan_false, leb_spec. unfold SFleb. intros Ha.
  now rewrite SFcompare_refl.
Qed.

Lemma leb_not_nan (a b : float) :
  (a <=? b) = true -> is_nan a = false /\ is_nan b = false.
Proof.
  rewrite leb_spec, !is_nan_false. unfold SFleb. intros H.
  split; intros E; rewrite E in H; [ discriminate H | ].
  now destruct (Prim2SF a).
Qed.

End FloatFacts.

(** ** The classifier *)

Example magnitude_3_4_12 : magnitude (mkReading 3 4 12 0) = 13.
Proof. reflexivity. Qed.

Example detect_at_threshold : detectPothole (mkReading 9 12 0 0) = false.
Proof. reflexivity. Qed.

Example detect_above_threshold :
  detectPothole (mkReading 9 12 0.125 0) = true.
Proof. reflexivity. Qed.

Example severity_at_20 : calculateSeverity (mkReading 12 16 0 0) = low.
Proof. reflexivity. Qed.

Example severity_above_20 : calculateSeverity (mkReading 12 16 0.5 0) = medium.
Proof. reflexivity. Qed.

Example severity_at_25 : calculateSeverity (mkReading 15 20 0 0) = medium.
Proof. reflexivity. Qed.

Example severity_above_25 : calculateSeverity (mkReading 15 20 0.5 0) = high.
Proof. reflexivity. Qed.

Lemma gt_not_nan (a b : float) : gt a b = true -> is_nan a = false.
Proof.
  unfold gt. intros H. now apply FloatFacts.ltb_not_nan in H.
Qed.

(** Above [lo] and not above [hi] is the same as above [lo] and at most
    [hi]: the two differ on [NaN] only, which is not above [lo]. *)
Lemma between_tiers (m lo hi : float) :
  is_nan hi = false ->
  gt m hi = false /\ gt m lo = true <-> gt m lo = true /\ (m <=? hi) = true.
Proof.
  intros Hhi. split.
  - intros [Hh Hl]. split; [ exact Hl | ].
    pose proof (gt_not_nan _ _ Hl) as Hm.
    unfold gt in Hh. rewrite (FloatFacts.ltb_negb_leb hi m Hhi Hm) in Hh.
    now destruct (m <=? hi).
  - intros [Hl Hle]. split; [ | exact Hl ].
    unfold gt. now apply FloatFacts.leb_ltb_false.
Qed.

(** C6. [calculateSeverity] returns [high] exactly when the magnitude is
    above 25, [medium] exactly when it is above 20 and at most 25, and
    [low] exactly when it is neither; a magnitude of exactly 20 gives [low]
    and a magnitude of exactly 25 gives [medium]. *)
Theorem calculateSeverity_tiers (r : AccelerometerReading) :
  (calculateSeverity r = high <-> gt (magnitude r) 25 = true) /\
  (calculateSeverity r = medium <->
     gt (magnitude r) 20 = true /\ (magnitude r <=? 25) = true) /\
  (calculateSeverity r = low <->
     ~ gt (magnitude r) 25 = true /\
     ~ (gt (magnitude r) 20 = true /\ (magnitude r <=? 25) = true)) /\
  (magnitude r = 20 -> calculateSeverity r = low) /\
  (magnitude r = 25 -> calculateSeverity r = medium).
Proof.
  pose proof (between_tiers (magnitude r) 20 25 eq_refl) as Hb.
  assert (H20c : gt 20 25 = false) by reflexivity.
  assert (H25c : gt 25 25 = false) by reflexivity.
  assert (H2520 : gt 25 20 = true) by reflexivity.
  assert (H2020 : gt 20 20 = false) by reflexivity.
  unfold calculateSeverity.
  destruct (gt (magnitude r) 25) eqn:H25;
    [ | destruct (gt (magnitude r) 20) eqn:H20 ].
  - split; [ | split; [ | split; [ | split ] ] ].
    + split; reflexivity.
    + split; [ discriminate | ].
      intros [_ Hle]. apply FloatFacts.leb_ltb_false in Hle.
      unfold gt in H25. congruence.
    + split; [ discriminate | ]. intros [Hn _]. now elim Hn.
    + intros E. rewrite E in H25. congruence.
    + intros E. rewrite E in H25. congruence.
  - assert (Hle : (magnitude r <=? 25) = true)
      by (apply (proj1 Hb); split; reflexivity).
    split; [ | split; [ | split; [ | split ] ] ].
    + split; discriminate.
    + split; [ intros _; now split | reflexivity ].
    + split; [ discriminate | ]. intros [_ Hn]. elim Hn. now split.
    + intros E. rewrite E in H20. congruence.
    + reflexivity.
  - split; [ | split; [ | split; [ | split ] ] ].
    + split; discriminate.
    + split; [ discriminate | ]. intros [E _]. discriminate E.
    + split; [ intros _ | reflexivity ].
      split; [ discriminate | ]. intros [E _]. discriminate E.
    + reflexivity.
    + intros E. rewrite E in H20. congruence.
Qed.

Lemma calculateSeverity_tiers_witness :
  magnitude (mkReading 12 16 0 0) = 20 /\
  calculateSeverity (mkReading 12 16 0 0) = low /\
  magnitude (mkReading 15 20 0 0) = 25 /\
  calculateSeverity (mkReading 15 20 0 0) = medium.
Proof.
  split; [ reflexivity | split; [ | split; [ reflexivity | ] ] ].
  - apply (proj1 (proj2 (proj2 (proj2
             (calculateSeverity_tiers (mkReading 12 16 0 0)))))).
    reflexivity.
  - apply (proj2 (proj2 (proj2 (proj2
             (calculateSeverity_tiers (mkReading 15 20 0 0)))))).
    reflexivity.
Defined.

(** C7. [detectPothole] returns true exactly when the computed
    [sqrt (x*x + y*y + z*z)] is above 15; it returns false for a magnitude
    of at most 15, and the only other case of false is a magnitude that is
    not a number. *)
Theorem detectPothole_threshold (r : AccelerometerReading) :
  (detectPothole r = true <->
     (15 <? sqrt (x r * x r + y r * y r + z r * z r)) = true) /\
  ((magnitude r <=? 15) = true -> detectPothole r = false) /\
  (detectPothole r = false <->
     (magnitude r <=? 15) = true \/ is_nan (magnitude r) = true).
Proof.
  unfold detectPothole, gt, POTHOLE_THRESHOLD. split; [ | split ].
  - reflexivity.
  - apply FloatFacts.leb_ltb_false.
  - split.
    + intros H. destruct (is_nan (magnitude r)) eqn:Hn; [ now right | left ].
      rewrite (FloatFacts.ltb_negb_leb 15 (magnitude r) eq_refl Hn) in H.
      now destruct (magnitude r <=? 15).
    + intros [H | H].
      * now apply FloatFacts.leb_ltb_false.
      * now apply FloatFacts.ltb_nan_r.
Qed.

Lemma detectPothole_threshold_witness :
  (magnitude (mkReading 9 12 0 0) <=? 15) = true /\
  detectPothole (mkReading 9 12 0 0) = false.
Proof.
  split.
  - reflexivity.
  - apply (proj1 (proj2 (detectPothole_threshold (mkReading 9 12 0 0)))).
    reflexivity.
Defined.

Lemma magnitude_nan (r : AccelerometerReading) :
  (is_nan (x r) || is_nan (y r) || is_nan (z r)) = true ->
  is_nan (magnitude r) = true.
Proof.
  intros H. unfold magnitude. apply FloatFacts.sqrt_nan.
  apply orb_true_iff in H. destruct H as [H | H];
    [ apply orb_true_iff in H; destruct H as [H | H] | ].
  - apply FloatFacts.add_nan_l, FloatFacts.add_nan_l.
    now apply FloatFacts.mul_nan_l.
  - apply FloatFacts.add_nan_l, FloatFacts.add_nan_r.
    now apply FloatFacts.mul_nan_l.
  - apply FloatFacts.add_nan_r. now apply FloatFacts.mul_nan_l.
Qed.

(** The readings that the sensor listener builds have no [NaN] axis. *)
Lemma orZero_not_nan (v : option float) : is_nan (orZero v) = false.
Proof.
  destruct v as [f | ]; simpl; [ | reflexivity ].
  destruct (is_nan f) eqn:E; simpl; [ reflexivity | ].
  now destruct (is_zero f).
Qed.

Lemma handleMotion_not_nan acc now r :
  handleMotion acc now = Some r ->
  (is_nan (x r) || is_nan (y r) || is_nan (z r)) = false.
Proof.
  destruct acc as [[[ax ay] az] | ]; simpl; [ | discriminate ].
  intros E. injection E as <-. simpl.
  now rewrite !orZero_not_nan.
Qed.

(** C9. A reading with a [NaN] axis is classified as a reading of
    magnitude zero is: [detectPothole] returns false and
    [calculateSeverity] returns [low].  Both are total functions into
    [bool] and [Severity], so no fault and no [NaN] leaves them. *)
Theorem nan_axis_classified_as_zero (r : AccelerometerReading) :
  (is_nan (x r) || is_nan (y r) || is_nan (z r)) = true ->
  detectPothole r = false /\
  calculateSeverity r = low /\
  detectPothole r = detectPothole (mkReading 0 0 0 (r_timestamp r)) /\
  calculateSeverity r = calculateSeverity (mkReading 0 0 0 (r_timestamp r)).
Proof.
  intros H. apply magnitude_nan in H.
  assert (Hgt : forall c, gt (magnitude r) c = false)
    by (intros c; unfold gt; now apply FloatFacts.ltb_nan_r).
  unfold detectPothole, calculateSeverity. rewrite !Hgt.
  repeat split; reflexivity.
Qed.

Lemma nan_axis_classified_as_zero_witness :
  detectPothole (mkReading 3 nan 40 0) = false /\
  calculateSeverity (mkReading 3 nan 40 0) = low /\
  detectPothole (mkReading 3 nan 40 0) = detectPothole (mkReading 0 0 0 0) /\
  calculateSeverity (mkReading 3 nan 40 0)
  = calculateSeverity (mkReading 0 0 0 0).
Proof.
  apply (nan_axis_classified_as_zero (mkReading 3 nan 40 0)). reflexivity.
Defined.

(** ** Recording of candidates *)

Lemma sessionEvents_reactiveStats st :
  sessionEvents (reactiveStats st) = sessionEvents st.
Proof.
  unfold reactiveStats, sessionEvents.
  destruct (currentSession st) eqn:E; simpl; now rewrite ?E.
Qed.

Example activeWithFix_is_active :
  sessionStatus (activeWithFix recordAll) = active /\
  currentLocation (activeWithFix recordAll) = Some fixA /\
  sessionEvents (activeWithFix recordAll) = [].
Proof. repeat split. Qed.

(** With the first variant of the handler a candidate of low severity, here
    of magnitude 18, is appended to the session's events. *)
Lemma low_candidate_recorded_by_recordAll :
  sessionStatus (activeWithFix recordAll) = active /\
  currentLocation (activeWithFix recordAll) = Some fixA /\
  detectPothole jolt18 = true /\
  calculateSeverity jolt18 = low /\
  sessionEvents (activeWithFix recordAll) = [] /\
  sessionEvents
    (handleAccelerometerData recordAll jolt18 "e1" (activeWithFix recordAll))
  = [newEvent "e1" jolt18 fixA low].
Proof. repeat split. Qed.

(** C1 (amended). While a session exists and a current location is known,
    a candidate reading is appended by the variant [recordMediumHigh] only
    when its severity is medium or high, a low one leaving the events as
    they are; the variant [recordAll] appends every candidate with the
    severity computed for it, low included. *)
Theorem candidate_recorded_by_variant
        (v : PageVariant) (st : State) (s : DrivingSession)
        (loc : LocationData) (r : AccelerometerReading) (newId : string) :
  currentSession st = Some s ->
  currentLocation st = Some loc ->
  detectPothole r = true ->
  sessionEvents (handleAccelerometerData v r newId st) =
    match v, calculateSeverity r with
    | recordMediumHigh, low => events s
    | _, sev => events s ++ [newEvent newId r loc sev]
    end.
Proof.
  intros Hs Hl Hd.
  destruct v; simpl;
    unfold handleAccelerometerData_all, handleAccelerometerData_filtered;
    rewrite Hd; simpl; rewrite Hs, Hl.
  - now destruct (calculateSeverity r).
  - destruct (calculateSeverity r); unfold sessionEvents; simpl;
      now rewrite ?Hs.
Qed.

Lemma candidate_recorded_by_variant_witness :
  currentSession (activeWithFix recordMediumHigh)
  = Some (mkSession "s1" 1000 None [] 0 0) /\
  currentLocation (activeWithFix recordMediumHigh) = Some fixA /\
  detectPothole jolt18 = true /\
  sessionEvents (handleAccelerometerData recordMediumHigh jolt18 "e1"
                                         (activeWithFix recordMediumHigh))
  = [].
Proof.
  split; [ reflexivity | split; [ reflexivity | split; [ reflexivity | ] ] ].
  exact (candidate_recorded_by_variant
           recordMediumHigh (activeWithFix recordMediumHigh)
           (mkSession "s1" 1000 None [] 0 0) fixA jolt18 "e1"
           eq_refl eq_refl eq_refl).
Defined.

(** ** Candidates before the first fix *)

Lemma run_app `{JSMath} v tr1 tr2 st :
  run v (tr1 ++ tr2) st = run v tr2 (run v tr1 st).
Proof. unfold run. apply fold_left_app. Qed.

Lemma run_cons `{JSMath} v a tr st :
  run v (a :: tr) st = run v tr (step v a st).
Proof. reflexivity. Qed.

Lemma currentLocation_reactiveStats st :
  currentLocation (reactiveStats st) = currentLocation st.
Proof. unfold reactiveStats. now destruct (currentSession st). Qed.

(** A reading never changes the current location. *)
Lemma currentLocation_handleAccelerometerData v r newId st :
  currentLocation (handleAccelerometerData v r newId st) = currentLocation st.
Proof.
  destruct v; simpl;
    unfold handleAccelerometerData_all, handleAccelerometerData_filtered;
    destruct (detectPothole r); simpl; try reflexivity;
    destruct (currentLocation st) eqn:El, (currentSession st); simpl;
    rewrite ?El; try reflexivity;
    destruct (calculateSeverity r); simpl; now rewrite ?El.
Qed.

(** No callback other than [handleLocationData] sets a location. *)
Lemma step_keeps_no_location `{JSMath} v a st :
  isLocationFix a = false ->
  currentLocation st = None ->
  currentLocation (step v a st) = None.
Proof.
  intros Ha Hl. unfold step. rewrite currentLocation_reactiveStats.
  destruct a; simpl in *; try discriminate Ha.
  - unfold requestPermissions. now destruct acc.
  - exact Hl.
  - exact Hl.
  - unfold startSession.
    destruct (p_accelerometer (permissionDetails st)),
             (p_location (permissionDetails st)),
             (startCoords st), (destinationCoords st); simpl; exact Hl.
  - unfold stopSession. now destruct (currentSession st).
  - now rewrite currentLocation_handleAccelerometerData.
  - unfold confirmPothole.
    destruct (currentSession st) as [s | ]; [ | exact Hl ].
    now destruct (find (hasId eventId) (events s)).
  - unfold markFalsePositive.
    destruct (currentSession st) as [s | ]; [ | exact Hl ].
    now destruct (find (hasId eventId) (events s)).
Qed.

Lemma run_keeps_no_location `{JSMath} v tr :
  forall st,
    forallb (fun a => negb (isLocationFix a)) tr = true ->
    currentLocation st = None ->
    currentLocation (run v tr st) = None.
Proof.
  induction tr as [ | a tr IH]; intros st Htr Hl; [ exact Hl | ].
  simpl in Htr. apply andb_true_iff in Htr. destruct Htr as [Ha Htr].
  rewrite run_cons. apply IH; [ exact Htr | ].
  apply step_keeps_no_location; [ | exact Hl ].
  now destruct (isLocationFix a).
Qed.

(** Without a current location the handler records nothing. *)
Lemma no_location_no_event v r newId st :
  currentLocation st = None ->
  sessionEvents (handleAccelerometerData v r newId st) = sessionEvents st.
Proof.
  intros Hl.
  destruct v; simpl;
    unfold handleAccelerometerData_all, handleAccelerometerData_filtered;
    destruct (detectPothole r); simpl; rewrite ?Hl; reflexivity.
Qed.

(** A sample received before [startSession] is still the current
    location when the session starts, and a jolt that arrives in the
    session before any sample of its own is recorded and geotagged with
    it: here the sample is stamped 1500, the session starts at 2000 and
    receives no sample, and the jolt becomes an event. *)
Lemma fix_before_start_geotags_candidate :
  sessionStatus (@run seriesMath recordAll fixThenStart initialState) = active /\
  option_map startTime
    (currentSession (@run seriesMath recordAll fixThenStart initialState))
  = Some 2000 /\
  l_timestamp fixA = 1500 /\
  detectPothole jolt30 = true /\
  sessionEvents (@run seriesMath recordAll fixThenStart initialState) = [] /\
  sessionEvents
    (@run seriesMath recordAll
          (fixThenStart ++ [AccelerometerData jolt30 "e1"]) initialState)
  = [newEvent "e1" jolt30 fixA high] /\
  sessionEvents
    (@run seriesMath recordMediumHigh
          (fixThenStart ++ [AccelerometerData jolt30 "e1"]) initialState)
  = [newEvent "e1" jolt30 fixA high].
Proof. repeat split. Qed.

(** The state a session starts in keeps the current location. *)
Lemma start_then_candidate `{JSMath} v now sessionId r newId st loc :
  currentLocation st = Some loc ->
  canStart st = true ->
  detectPothole r = true ->
  (v = recordMediumHigh -> calculateSeverity r <> low) ->
  sessionEvents (step v (AccelerometerData r newId)
                      (step v (StartSession now sessionId) st))
  = [newEvent newId r loc (calculateSeverity r)].
Proof.
  intros Hl Hc Hd Hs. unfold canStart in Hc.
  apply andb_prop in Hc as [Hc Hdest]. apply andb_prop in Hc as [Hc Hstart].
  apply andb_prop in Hc as [Hacc Hloc].
  apply negb_true_iff in Hstart, Hdest.
  unfold step at 2. simpl handle. unfold startSession.
  rewrite Hacc, Hloc, Hstart, Hdest. simpl.
  unfold step. rewrite sessionEvents_reactiveStats. simpl handle.
  destruct v; simpl;
    unfold handleAccelerometerData_all, handleAccelerometerData_filtered;
    simpl; rewrite Hd, Hl.
  - reflexivity.
  - destruct (calculateSeverity r) eqn:E; [ now destruct Hs | | ]; reflexivity.
Qed.

(** C8 (amended). What decides is whether the page holds a current
    location.  It holds none after the page was loaded and after a
    [stopSession] that ended a session, until the next location sample:
    a motion sample that arrives then, candidate or not, leaves the
    events unchanged.  [startSession] does not clear it: when a sample was
    received before the session started, a candidate that arrives first
    in the new session is recorded, geotagged with that sample. *)
Theorem candidate_discarded_without_current_location
        `{JSMath} (v : PageVariant) :
  (forall (tr0 tr : list Action) (r : AccelerometerReading) (newId : string),
      clearsLocation v tr0 ->
      forallb (fun a => negb (isLocationFix a)) tr = true ->
      sessionEvents
        (run v ((tr0 ++ tr) ++ [AccelerometerData r newId]) initialState)
      = sessionEvents (run v (tr0 ++ tr) initialState)) /\
  (forall (tr : list Action) (loc : LocationData) (now : float)
          (sessionId : string) (r : AccelerometerReading) (newId : string),
      currentLocation (run v tr initialState) = Some loc ->
      canStart (run v tr initialState) = true ->
      detectPothole r = true ->
      (v = recordMediumHigh -> calculateSeverity r <> low) ->
      sessionEvents
        (run v (tr ++ [StartSession now sessionId; AccelerometerData r newId])
             initialState)
      = [newEvent newId r loc (calculateSeverity r)]).
Proof.
  split.
  - intros tr0 tr r newId Hc Htr.
    rewrite (run_app v (tr0 ++ tr)). simpl. unfold step. simpl.
    rewrite sessionEvents_reactiveStats.
    apply no_location_no_event.
    rewrite run_app. apply run_keeps_no_location; [ exact Htr | ].
    destruct Hc as [-> | (tr' & now & -> & Hs)]; [ reflexivity | ].
    rewrite run_app. simpl. unfold step.
    rewrite currentLocation_reactiveStats. simpl. unfold stopSession.
    now destruct (currentSession (run v tr' initialState)).
  - intros tr loc now sessionId r newId Hl Hc Hd Hs.
    rewrite run_app. simpl. now apply start_then_candidate.
Qed.

Lemma candidate_discarded_without_current_location_witness :
  ((@clearsLocation seriesMath recordMediumHigh
                    (setup ++ [StartSession 1000 "s1"; LocationFix fixA]
                     ++ [StopSession 2000]) /\
    forallb (fun a => negb (isLocationFix a)) [StartSession 3000 "s2"] = true /\
    detectPothole jolt30 = true /\
    sessionStatus
      (@run seriesMath recordMediumHigh
            ((setup ++ [StartSession 1000 "s1"; LocationFix fixA]
              ++ [StopSession 2000]) ++ [StartSession 3000 "s2"])
            initialState) = active) /\
   sessionEvents
     (@run seriesMath recordMediumHigh
           (((setup ++ [StartSession 1000 "s1"; LocationFix fixA]
              ++ [StopSession 2000]) ++ [StartSession 3000 "s2"])
            ++ [AccelerometerData jolt30 "e1"]) initialState)
   = sessionEvents
       (@run seriesMath recordMediumHigh
             ((setup ++ [StartSession 1000 "s1"; LocationFix fixA]
               ++ [StopSession 2000]) ++ [StartSession 3000 "s2"])
             initialState)) /\
  ((currentLocation
      (@run seriesMath recordMediumHigh (setup ++ [LocationFix fixA])
            initialState) = Some fixA /\
    canStart
      (@run seriesMath recordMediumHigh (setup ++ [LocationFix fixA])
            initialState) = true /\
    detectPothole jolt30 = true /\
    calculateSeverity jolt30 <> low) /\
   sessionEvents
     (@run seriesMath recordMediumHigh
           ((setup ++ [LocationFix fixA])
            ++ [StartSession 2000 "s1"; AccelerometerData jolt30 "e1"])
           initialState)
   = [newEvent "e1" jolt30 fixA (calculateSeverity jolt30)]).
Proof.
  assert (Hc : @clearsLocation seriesMath recordMediumHigh
                 (setup ++ [StartSession 1000 "s1"; LocationFix fixA]
                  ++ [StopSession 2000])).
  { right. exists (setup ++ [StartSession 1000 "s1"; LocationFix fixA]), 2000.
    split; [ reflexivity | discriminate ]. }
  assert (Hs : calculateSeverity jolt30 <> low) by (vm_compute; discriminate).
  split.
  - split;
      [ split; [ exact Hc
               | split; [ reflexivity | split; reflexivity ] ]
      | ].
    exact (proj1 (@candidate_discarded_without_current_location
                    seriesMath recordMediumHigh)
                 (setup ++ [StartSession 1000 "s1"; LocationFix fixA]
                  ++ [StopSession 2000])
                 [StartSession 3000 "s2"] jolt30 "e1"%string Hc eq_refl).
  - split;
      [ split; [ reflexivity
               | split; [ reflexivity | split; [ reflexivity | exact Hs ] ] ]
      | ].
    exact (proj2 (@candidate_discarded_without_current_location
                    seriesMath recordMediumHigh)
                 (setup ++ [LocationFix fixA]) fixA 2000 "s1"%string
                 jolt30 "e1"%string eq_refl eq_refl eq_refl (fun _ => Hs)).
Defined.

(** ** The confirmation ledger *)

Lemma hasId_resolve eventId b lbl e :
  hasId eventId (resolve b lbl e) = hasId eventId e.
Proof. reflexivity. Qed.

Lemma find_updateFirst eventId f l :
  (forall e, hasId eventId (f e) = hasId eventId e) ->
  find (hasId eventId) (updateFirst eventId f l)
  = option_map f (find (hasId eventId) l).
Proof.
  intros Hf. induction l as [ | e l IH]; simpl; [ reflexivity | ].
  destruct (hasId eventId e) eqn:He; simpl.
  - now rewrite Hf, He.
  - now rewrite He.
Qed.

Lemma updateFirst_twice eventId f g l :
  (forall e, hasId eventId (g e) = hasId eventId e) ->
  updateFirst eventId f (updateFirst eventId g l)
  = updateFirst eventId (fun e => f (g e)) l.
Proof.
  intros Hg. induction l as [ | e l IH]; simpl; [ reflexivity | ].
  destruct (hasId eventId e) eqn:He; simpl.
  - now rewrite Hg, He.
  - now rewrite He, IH.
Qed.

Lemma updateFirst_resolve_twice eventId b lbl b' lbl' l :
  updateFirst eventId (resolve b lbl) (updateFirst eventId (resolve b' lbl') l)
  = updateFirst eventId (resolve b lbl) l.
Proof.
  rewrite updateFirst_twice by (intros; apply hasId_resolve).
  induction l as [ | e l IH]; simpl; [ reflexivity | ].
  destruct (hasId eventId e); [ reflexivity | now rewrite IH ].
Qed.

Lemma setConfirmation_session b eventId st :
  currentSession (setConfirmation b eventId st)
  = match currentSession st with
    | Some s =>
        Some (with_events
                (updateFirst eventId (resolve b (labelOf b)) (events s)) s)
    | None => None
    end.
Proof.
  unfold setConfirmation, confirmPothole, markFalsePositive.
  destruct (currentSession st) as [s | ] eqn:Es;
    [ | destruct b; exact Es ].
  assert (Hnone : find (hasId eventId) (events s) = None ->
                  updateFirst eventId (resolve b (labelOf b)) (events s)
                  = events s).
  { clear Es. induction (events s) as [ | e l IH]; simpl; [ reflexivity | ].
    destruct (hasId eventId e); [ discriminate | ].
    intros Hf. now rewrite IH. }
  destruct b; simpl;
    (destruct (find (hasId eventId) (events s)) eqn:Ef; simpl;
     [ reflexivity | ]);
    pose proof (Hnone eq_refl) as Hn; simpl in Hn;
    rewrite Es, Hn; now destruct s.
Qed.

(** After the reactive block has run, the state is determined by the
    session and by the fields the ledger never writes. *)
Lemma reactiveStats_setConfirmation b eventId st :
  reactiveStats (setConfirmation b eventId st)
  = match currentSession st with
    | Some s =>
        let l := updateFirst eventId (resolve b (labelOf b)) (events s) in
        mkState (sessionStatus st) (Some (with_events l s))
                (permissionDetails st)
                (currentAccelerometer st) (currentLocation st)
                (currentSpeed st)
                (List.length l)
                (List.length (filter isConfirmed l))
                (List.length (filter isRejected l))
                (totalDistance st) (lastLocation st) (sessionStartTime st)
                (startCoords st) (destinationCoords st) (alerts st)
                (exported st)
    | None => st
    end.
Proof.
  pose proof (setConfirmation_session b eventId st) as Hs.
  unfold reactiveStats. rewrite Hs.
  destruct (currentSession st) as [s | ] eqn:Es.
  - unfold setConfirmation, confirmPothole, markFalsePositive.
    rewrite Es.
    destruct b; destruct (find (hasId eventId) (events s)); reflexivity.
  - unfold setConfirmation, confirmPothole, markFalsePositive.
    rewrite Es. now destruct b.
Qed.

(** A session with one pending event of high severity. *)
Example oneEvent_pending :
  sessionEvents
    (@step seriesMath recordAll (AccelerometerData jolt30 "e1")
           (activeWithFix recordAll))
  = [newEvent "e1" jolt30 fixA high].
Proof. reflexivity. Qed.

(** Rejecting an event that was confirmed makes it rejected: the second
    call is not ignored. *)
Lemma reject_after_confirm_rejects :
  map (fun e => (userConfirmed e, label e))
      (sessionEvents
         (confirmPothole "e1"
            (handleAccelerometerData recordAll jolt30 "e1"
                                     (activeWithFix recordAll))))
  = [(Some true, pothole_confirmed)] /\
  map (fun e => (userConfirmed e, label e))
      (sessionEvents
         (markFalsePositive "e1"
            (confirmPothole "e1"
               (handleAccelerometerData recordAll jolt30 "e1"
                                        (activeWithFix recordAll)))))
  = [(Some false, false_positive)].
Proof. split; reflexivity. Qed.

(** C2 (amended). Neither ledger function looks at the confirmation an
    event already has.  Confirming twice gives the state that confirming
    once gives; rejecting after confirming gives the state that rejecting
    alone gives, so the event ends rejected; and confirming after rejecting
    gives the state that confirming alone gives.  The states compared are
    those the page shows, after its derived counters are updated. *)
Theorem ledger_last_call_wins
        `{JSMath} (v : PageVariant) (eventId : string) (st : State) :
  step v (ConfirmPothole eventId) (step v (ConfirmPothole eventId) st)
  = step v (ConfirmPothole eventId) st /\
  step v (MarkFalsePositive eventId) (step v (ConfirmPothole eventId) st)
  = step v (MarkFalsePositive eventId) st /\
  step v (ConfirmPothole eventId) (step v (MarkFalsePositive eventId) st)
  = step v (ConfirmPothole eventId) st /\
  find (hasId eventId)
       (sessionEvents
          (step v (MarkFalsePositive eventId)
                (step v (ConfirmPothole eventId) st)))
  = option_map (resolve false false_positive)
               (find (hasId eventId) (sessionEvents st)).
Proof.
  assert (Hstep : forall b b' s0,
             reactiveStats
               (setConfirmation b eventId
                  (reactiveStats (setConfirmation b' eventId s0)))
             = reactiveStats (setConfirmation b eventId s0)).
  { intros b b' s0. rewrite !reactiveStats_setConfirmation.
    destruct (currentSession s0) as [s | ] eqn:Es; simpl.
    - now rewrite updateFirst_resolve_twice.
    - now rewrite Es. }
  unfold step. simpl.
  split; [ exact (Hstep true true st) | ].
  split; [ exact (Hstep false true st) | ].
  split; [ exact (Hstep true false st) | ].
  change (reactiveStats
            (markFalsePositive eventId
               (reactiveStats (confirmPothole eventId st))))
    with (reactiveStats
            (setConfirmation false eventId
               (reactiveStats (setConfirmation true eventId st)))).
  rewrite Hstep, sessionEvents_reactiveStats.
  unfold sessionEvents. rewrite setConfirmation_session.
  destruct (currentSession st) as [s | ]; simpl; [ | reflexivity ].
  apply find_updateFirst. intros e. apply hasId_resolve.
Qed.

(** ** Starting and stopping *)

(** Starting while a session with one event is active replaces that
    session by a new, empty one. *)
Lemma start_while_active_replaces_session :
  sessionStatus
    (handleAccelerometerData recordAll jolt30 "e1" (activeWithFix recordAll))
  = active /\
  currentSession
    (handleAccelerometerData recordAll jolt30 "e1" (activeWithFix recordAll))
  = Some (mkSession "s1" 1000 None [newEvent "e1" jolt30 fixA high] 0 0) /\
  currentSession
    (startSession 5000 "s2"
       (handleAccelerometerData recordAll jolt30 "e1"
                                (activeWithFix recordAll)))
  = Some (mkSession "s2" 5000 None [] 0 0) /\
  exported
    (startSession 5000 "s2"
       (handleAccelerometerData recordAll jolt30 "e1"
                                (activeWithFix recordAll)))
  = [].
Proof. repeat split. Qed.

(** C3 (amended). [startSession] never looks at the session: when the two
    permissions and the two route coordinates are present it installs a
    new empty session, an active one being replaced, sets the status to
    active and resets the distance; when one of them is missing it only
    raises an alert.  [stopSession] without a session changes nothing.
    Both are total. *)
Theorem lifecycle_guards (now : float) (newId : string) (st : State) :
  (canStart st = true ->
     currentSession (startSession now newId st)
     = Some (mkSession newId now None [] 0 0) /\
     sessionStatus (startSession now newId st) = active /\
     totalDistance (startSession now newId st) = 0 /\
     exported (startSession now newId st) = exported st) /\
  (canStart st = false ->
     exists msg, startSession now newId st = alert msg st) /\
  (currentSession st = None -> stopSession now st = st).
Proof.
  unfold canStart, startSession, stopSession.
  destruct (p_accelerometer (permissionDetails st)),
           (p_location (permissionDetails st)),
           (startCoords st), (destinationCoords st); simpl;
    (split; [ intros Hc; try discriminate Hc; repeat split
            | split; [ intros Hc; try discriminate Hc; eexists; reflexivity
                     | intros Hs; now rewrite Hs ] ]).
Qed.

Lemma lifecycle_guards_witness :
  canStart (activeWithFix recordAll) = true /\
  currentSession (startSession 5000 "s2" (activeWithFix recordAll))
  = Some (mkSession "s2" 5000 None [] 0 0) /\
  canStart initialState = false /\
  (exists msg, startSession 5000 "s2" initialState = alert msg initialState) /\
  currentSession initialState = None /\
  stopSession 5000 initialState = initialState.
Proof.
  split; [ reflexivity | ].
  split; [ exact (proj1 (proj1 (lifecycle_guards
                                  5000 "s2" (activeWithFix recordAll))
                                eq_refl)) | ].
  split; [ reflexivity | ].
  split; [ exact (proj1 (proj2 (lifecycle_guards 5000 "s2" initialState))
                        eq_refl) | ].
  split; [ reflexivity | ].
  exact (proj2 (proj2 (lifecycle_guards 5000 "s2" initialState)) eq_refl).
Defined.

(** ** What a callback may do to the session *)

Lemma SessionChange_same st o : currentSession st = o -> SessionChange st o.
Proof.
  intros <-. destruct (currentSession st) as [s | ] eqn:Es;
    [ | constructor ].
  replace s with (mkSession (s_id s) (startTime s) (endTime s) (events s)
                            (s_totalDistance s) (averageSpeed s))
    by now destruct s.
  simpl. rewrite <- (app_nil_r (events s)).
  apply (change_kept st s (events s) (s_totalDistance s) []);
    [ exact Es | reflexivity | constructor ].
Qed.

Lemma map_snapshot_updateFirst eventId b lbl l :
  map snapshot (updateFirst eventId (resolve b lbl) l) = map snapshot l.
Proof.
  induction l as [ | e l IH]; simpl; [ reflexivity | ].
  destruct (hasId eventId e); simpl; [ reflexivity | now rewrite IH ].
Qed.

Lemma currentSession_reactiveStats st :
  currentSession (reactiveStats st) = currentSession st.
Proof.
  unfold reactiveStats. destruct (currentSession st) eqn:E; simpl; congruence.
Qed.

Lemma handleAccelerometerData_change v r newId st :
  SessionChange st (currentSession (handleAccelerometerData v r newId st)).
Proof.
  assert (Hpush : forall s loc,
             currentSession st = Some s ->
             detectPothole r = true ->
             SessionChange st
               (Some (with_events
                        (events s
                         ++ [newEvent newId r loc (calculateSeverity r)]) s))).
  { intros s loc Es Hd.
    apply (change_kept st s (events s) (s_totalDistance s)
                       [newEvent newId r loc (calculateSeverity r)]);
      [ exact Es | reflexivity | ].
    constructor; [ | constructor ]. repeat split. exact Hd. }
  destruct v; simpl;
    unfold handleAccelerometerData_all, handleAccelerometerData_filtered;
    destruct (detectPothole r) eqn:Hd; simpl;
    try (now apply SessionChange_same);
    destruct (currentLocation st) as [loc | ];
    try (now apply SessionChange_same);
    destruct (currentSession st) as [s | ] eqn:Es;
    try (now apply SessionChange_same).
  - now apply Hpush.
  - specialize (Hpush s loc eq_refl eq_refl).
    destruct (calculateSeverity r); simpl;
      [ now apply SessionChange_same | exact Hpush | exact Hpush ].
Qed.

Lemma handleLocationData_change `{JSMath} loc st :
  SessionChange st (currentSession (handleLocationData loc st)).
Proof.
  unfold handleLocationData.
  destruct (lastLocation st) as [prev | ];
    destruct (currentSession st) as [s | ] eqn:Es; simpl;
    try constructor; try (now apply SessionChange_same).
  unfold with_totalDistance. rewrite <- (app_nil_r (events s)).
  apply (change_kept st s (events s) _ []);
    [ exact Es | reflexivity | constructor ].
Qed.

Lemma setConfirmation_change b eventId st :
  SessionChange st (currentSession (setConfirmation b eventId st)).
Proof.
  rewrite setConfirmation_session.
  destruct (currentSession st) as [s | ] eqn:Es; [ | constructor ].
  unfold with_events. simpl.
  rewrite <- (app_nil_r (updateFirst _ _ _)).
  apply (change_kept st s _ (s_totalDistance s) []);
    [ exact Es | apply map_snapshot_updateFirst | constructor ].
Qed.

Lemma step_session_change `{JSMath} v a st :
  SessionChange st (currentSession (step v a st)).
Proof.
  unfold step. rewrite currentSession_reactiveStats.
  destruct a; simpl.
  - apply SessionChange_same. unfold requestPermissions. now destruct acc.
  - now apply SessionChange_same.
  - now apply SessionChange_same.
  - unfold startSession.
    destruct (p_accelerometer (permissionDetails st)),
             (p_location (permissionDetails st)),
             (startCoords st), (destinationCoords st); simpl;
      try (now apply SessionChange_same); constructor.
  - unfold stopSession.
    destruct (currentSession st) eqn:Es; simpl;
      [ constructor | rewrite Es; constructor ].
  - apply handleAccelerometerData_change.
  - apply handleLocationData_change.
  - apply (setConfirmation_change true).
  - apply (setConfirmation_change false).
Qed.

(** ** Status and session *)

Lemma statusAgrees_step `{JSMath} v a st :
  statusAgrees st -> statusAgrees (step v a st).
Proof.
  unfold statusAgrees, step. intros Hst.
  assert (Hr : forall s0,
             sessionStatus (reactiveStats s0) = sessionStatus s0 /\
             currentSession (reactiveStats s0) = currentSession s0).
  { intros s0. unfold reactiveStats.
    destruct (currentSession s0) eqn:E; simpl; auto. }
  destruct (Hr (handle v a st)) as [-> ->]. clear Hr.
  destruct a; simpl.
  - unfold requestPermissions. now destruct acc.
  - exact Hst.
  - exact Hst.
  - unfold startSession.
    destruct (p_accelerometer (permissionDetails st)),
             (p_location (permissionDetails st)),
             (startCoords st), (destinationCoords st); simpl;
      solve [ exact Hst | exact I ].
  - unfold stopSession.
    destruct (currentSession st) eqn:Es; simpl; [ exact I | ].
    now rewrite Es.
  - destruct v; simpl;
      unfold handleAccelerometerData_all, handleAccelerometerData_filtered;
      destruct (detectPothole reading); simpl; try exact Hst;
      destruct (currentLocation st); try exact Hst;
      destruct (currentSession st) eqn:Es; simpl; rewrite ?Es;
      try exact Hst;
      destruct (calculateSeverity reading); simpl; rewrite ?Es; exact Hst.
  - unfold handleLocationData.
    destruct (lastLocation st); simpl; try exact Hst.
    destruct (currentSession st); simpl; exact Hst.
  - unfold confirmPothole.
    destruct (currentSession st) as [s | ] eqn:Es; [ | now rewrite Es ].
    destruct (find (hasId eventId) (events s)); simpl;
      [ exact Hst | now rewrite Es ].
  - unfold markFalsePositive.
    destruct (currentSession st) as [s | ] eqn:Es; [ | now rewrite Es ].
    destruct (find (hasId eventId) (events s)); simpl;
      [ exact Hst | now rewrite Es ].
Qed.

(** In every state the page can reach, [sessionStatus] is [active] when a
    session exists and [idle] when none does. *)
Lemma status_matches_session `{JSMath} v tr :
  statusAgrees (run v tr initialState).
Proof.
  assert (Hgen : forall st, statusAgrees st -> statusAgrees (run v tr st)).
  { induction tr as [ | a tr IH]; intros st Hst; [ exact Hst | ].
    rewrite run_cons. apply IH. now apply statusAgrees_step. }
  apply Hgen. exact I.
Qed.

(** ** Invariants of the session *)

Lemma wellFormed_snapshot l :
  Forall wellFormed l <-> Forall wellFormedSnapshot (map snapshot l).
Proof. rewrite Forall_map. reflexivity. Qed.

Lemma SessionChange_invariant st o :
  sessionInvariant (currentSession st) ->
  SessionChange st o ->
  sessionInvariant o.
Proof.
  intros Hinv Hch.
  destruct Hch as [ | newId now | s kept d new Es Hmap Hnew ].
  - exact I.
  - simpl. repeat split. constructor.
  - rewrite Es in Hinv. destruct Hinv as [Hav [Hend Hwf]].
    simpl. split; [ exact Hav | split; [ exact Hend | ] ].
    apply Forall_app. split.
    + apply wellFormed_snapshot. rewrite Hmap.
      now apply wellFormed_snapshot.
    + eapply Forall_impl; [ | exact Hnew ]. intros e He. apply He.
Qed.

Lemma run_invariant `{JSMath} v tr :
  forall st,
    sessionInvariant (currentSession st) ->
    sessionInvariant (currentSession (run v tr st)).
Proof.
  induction tr as [ | a tr IH]; intros st Hinv; [ exact Hinv | ].
  rewrite run_cons. apply IH.
  eapply SessionChange_invariant; [ exact Hinv | ].
  apply step_session_change.
Qed.

(** C10. In every state the page can reach, each event of the session
    carries the severity that [calculateSeverity] gives for its own stored
    reading, and that reading is a candidate.  Every callback either ends
    or restarts the session, or keeps the snapshot (identifier, time,
    reading, location, speed, severity) of every event in place and
    appends only events that are pending, labelled [pothole_detected] and
    well formed. *)
Theorem events_keep_reading_and_severity `{JSMath} (v : PageVariant) :
  (forall tr, Forall wellFormed (sessionEvents (run v tr initialState))) /\
  (forall a st, SessionChange st (currentSession (step v a st))).
Proof.
  split.
  - intros tr.
    pose proof (run_invariant v tr initialState I) as Hinv.
    unfold sessionEvents.
    destruct (currentSession (run v tr initialState)); [ apply Hinv | ].
    constructor.
  - intros a st. apply step_session_change.
Qed.

(** ** The average speed *)

Example finishSession_example :
  finishSession 61000 2 (mkSession "s1" 1000 None [] 0 0)
  = mkSession "s1" 1000 (Some 61000) [] 2 120.
Proof. reflexivity. Qed.

(** C5. While a session is active its [averageSpeed] is the 0 it was
    created with; [stopSession] computes it, for the one record it exports,
    as [totalDistance / duration * 60] of that record when the duration in
    minutes is above 0 and as 0 otherwise, and leaves no session behind. *)
Theorem averageSpeed_computed_at_stop
        `{JSMath} (v : PageVariant) (tr : list Action) (now : float)
        (s : DrivingSession) :
  currentSession (run v tr initialState) = Some s ->
  averageSpeed s = 0 /\
  exists s' : DrivingSession,
    exported (step v (StopSession now) (run v tr initialState))
    = exported (run v tr initialState) ++ [s'] /\
    currentSession (step v (StopSession now) (run v tr initialState)) = None /\
    startTime s' = startTime s /\
    endTime s' = Some now /\
    events s' = events s /\
    s_totalDistance s' = totalDistance (run v tr initialState) /\
    averageSpeed s' =
      (let duration := (now - startTime s') / 1000 / 60 in
       if gt duration 0 then s_totalDistance s' / duration * 60 else 0).
Proof.
  intros Hs.
  pose proof (run_invariant v tr initialState I) as Hinv.
  rewrite Hs in Hinv. destruct Hinv as [Hav _].
  split; [ exact Hav | ].
  exists (finishSession now (totalDistance (run v tr initialState)) s).
  unfold step. simpl. unfold stopSession. rewrite Hs.
  unfold reactiveStats. simpl.
  repeat split.
Qed.

Lemma averageSpeed_computed_at_stop_witness :
  currentSession (activeWithFix recordMediumHigh)
  = Some (mkSession "s1" 1000 None [] 0 0) /\
  exists s' : DrivingSession,
    exported (@step seriesMath recordMediumHigh (StopSession 61000)
                    (activeWithFix recordMediumHigh))
    = exported (activeWithFix recordMediumHigh) ++ [s'] /\
    averageSpeed s' =
      (let duration := (61000 - startTime s') / 1000 / 60 in
       if gt duration 0 then s_totalDistance s' / duration * 60 else 0).
Proof.
  split; [ reflexivity | ].
  destruct (@averageSpeed_computed_at_stop
              seriesMath recordMediumHigh
              (setup ++ [StartSession 1000 "s1"; LocationFix fixA])
              61000 (mkSession "s1" 1000 None [] 0 0) eq_refl)
    as [_ [s' [Hex [_ [_ [_ [_ [_ Hav]]]]]]]].
  exists s'. split; [ exact Hex | exact Hav ].
Defined.

(** ** The distance *)

Lemma totalDistance_reactiveStats st :
  totalDistance (reactiveStats st) = totalDistance st.
Proof. unfold reactiveStats. now destruct (currentSession st). Qed.

(** The distance is written by two callbacks only: [startSession] resets
    it, and [handleLocationData] adds to it when a previous location is
    stored and a session exists. *)
Lemma totalDistance_step `{JSMath} v a st :
  totalDistance (step v a st) = totalDistance st \/
  (exists now newId, a = StartSession now newId /\
                     totalDistance (step v a st) = 0) \/
  (exists loc prev s,
      a = LocationFix loc /\ lastLocation st = Some prev /\
      currentSession st = Some s /\
      totalDistance (step v a st) = totalDistance st + distanceKm prev loc).
Proof.
  unfold step. rewrite totalDistance_reactiveStats.
  destruct a; simpl.
  - left. unfold requestPermissions. now destruct acc.
  - now left.
  - now left.
  - unfold startSession.
    destruct (p_accelerometer (permissionDetails st)),
             (p_location (permissionDetails st)),
             (startCoords st), (destinationCoords st); simpl;
      try (now left).
    right. left. now exists now, newId.
  - left. unfold stopSession. now destruct (currentSession st).
  - left. destruct v; simpl;
      unfold handleAccelerometerData_all, handleAccelerometerData_filtered;
      destruct (detectPothole reading); simpl; try reflexivity;
      destruct (currentLocation st), (currentSession st); simpl;
      try reflexivity; now destruct (calculateSeverity reading).
  - unfold handleLocationData.
    destruct (lastLocation st) as [prev | ] eqn:El;
      destruct (currentSession st) as [s | ] eqn:Es; simpl;
      try (now left).
    right. right. now exists loc, prev, s.
  - left. unfold confirmPothole.
    destruct (currentSession st) as [s | ]; [ | reflexivity ].
    now destruct (find (hasId eventId) (events s)).
  - left. unfold markFalsePositive.
    destruct (currentSession st) as [s | ]; [ | reflexivity ].
    now destruct (find (hasId eventId) (events s)).
Qed.

(** Within a session the distance does not decrease, as long as the
    distances computed between fixes are numbers and not negative: a
    callback other than [startSession] leaves it where it is or adds such
    a distance to it. *)
Lemma totalDistance_nondecreasing `{JSMath} v a st :
  (0 <=? totalDistance st) = true ->
  (forall loc prev,
      a = LocationFix loc -> lastLocation st = Some prev ->
      (0 <=? distanceKm prev loc) = true) ->
  (0 <=? totalDistance (step v a st)) = true /\
  ((forall now newId, a <> StartSession now newId) ->
   (totalDistance st <=? totalDistance (step v a st)) = true).
Proof.
  intros Ht Hd.
  destruct (totalDistance_step v a st)
    as [E | [[now [newId [Ea E]]] | [loc [prev [s [Ea [El [Es E]]]]]]]];
    rewrite E.
  - split; [ exact Ht | intros _ ].
    apply FloatFacts.leb_refl.
    now apply FloatFacts.leb_not_nan in Ht.
  - split; [ reflexivity | intros Hns ]. now elim (Hns now newId).
  - destruct (FloatFacts.add_nonneg_ge (totalDistance st) (distanceKm prev loc)
                                       Ht (Hd loc prev Ea El)) as [Hle Hnn].
    split; [ exact Hnn | intros _; exact Hle ].
Qed.

(** No callback clears [lastLocation]: once a fix was received, one is
    stored for ever, whatever sessions start and stop afterwards. *)
Lemma lastLocation_never_cleared `{JSMath} v a st prev :
  lastLocation st = Some prev ->
  exists prev', lastLocation (step v a st) = Some prev'.
Proof.
  intros Hl. unfold step.
  assert (Hr : forall s0, lastLocation (reactiveStats s0) = lastLocation s0)
    by (intros s0; unfold reactiveStats; now destruct (currentSession s0)).
  rewrite Hr. destruct a; simpl.
  - exists prev. unfold requestPermissions. now destruct acc.
  - now exists prev.
  - now exists prev.
  - exists prev. unfold startSession.
    destruct (p_accelerometer (permissionDetails st)),
             (p_location (permissionDetails st)),
             (startCoords st), (destinationCoords st); simpl; exact Hl.
  - exists prev. unfold stopSession. now destruct (currentSession st).
  - exists prev. destruct v; simpl;
      unfold handleAccelerometerData_all, handleAccelerometerData_filtered;
      destruct (detectPothole reading); simpl; try exact Hl;
      destruct (currentLocation st), (currentSession st); simpl;
      try exact Hl; now destruct (calculateSeverity reading).
  - exists loc. unfold handleLocationData.
    now destruct (lastLocation st), (currentSession st).
  - exists prev. unfold confirmPothole.
    destruct (currentSession st) as [s | ]; [ | exact Hl ].
    now destruct (find (hasId eventId) (events s)).
  - exists prev. unfold markFalsePositive.
    destruct (currentSession st) as [s | ]; [ | exact Hl ].
    now destruct (find (hasId eventId) (events s)).
Qed.

(** C4 (the code at the failing input). A fix [l0] received before the
    session starts is still stored in [lastLocation] when the session's
    first fix [l1] arrives, so the distance from [l0] to [l1] is added to
    the new session, which has received a single fix; the same happens
    with the last fix of the previous session.  With [fixA] and [fixB],
    about a kilometre apart, the session's distance is above half a
    kilometre after its first fix. *)
Theorem fix_before_start_adds_distance
        `{JSMath} (v : PageVariant) (l0 l1 : LocationData)
        (now : float) (newId : string) :
  currentSession
    (run v (setup ++ [LocationFix l0; StartSession now newId; LocationFix l1])
         initialState)
  = Some (mkSession newId now None [] (0 + distanceKm l0 l1) 0) /\
  currentSession
    (run v (setup ++ [StartSession 1000 "s1"; LocationFix l0;
                      StopSession 2000;
                      StartSession now newId; LocationFix l1])
         initialState)
  = Some (mkSession newId now None [] (0 + distanceKm l0 l1) 0) /\
  option_map (fun s => gt (s_totalDistance s) 0.5)
    (currentSession
       (@run seriesMath v
             (setup ++ [LocationFix fixA; StartSession 1000 "s1";
                        LocationFix fixB])
             initialState))
  = Some true.
Proof.
  split; [ reflexivity | split; [ reflexivity | ] ].
  now destruct v.
Qed.

Example distance_fixA_fixB :
  gt (@distanceKm seriesMath fixA fixB) 0.9765625 = true /\
  gt 0.984375 (@distanceKm seriesMath fixA fixB) = true.
Proof. split; reflexivity. Qed.

(** ** Scenarios *)

(** A reading at rest is no candidate and a medium one is recorded by both
    variants. *)
Example calm_is_ignored (v : PageVariant) :
  detectPothole calm = false /\
  sessionEvents (handleAccelerometerData v calm "e1" (activeWithFix v)) = [].
Proof. now destruct v. Qed.

Example medium_is_recorded (v : PageVariant) :
  sessionEvents (handleAccelerometerData v jolt22 "e1" (activeWithFix v))
  = [newEvent "e1" jolt22 fixA medium].
Proof. now destruct v. Qed.

(** Start, a fix, a jolt of magnitude 30, its confirmation: one event,
    high, confirmed, at the fix; the derived counter shows one. *)
Example confirm_scenario :
  let st := @run seriesMath recordMediumHigh
                 (setup ++ [StartSession 1000 "s1"; LocationFix fixA;
                            AccelerometerData jolt30 "e1";
                            ConfirmPothole "e1"])
                 initialState in
  sessionEvents st = [resolve true pothole_confirmed
                              (newEvent "e1" jolt30 fixA high)] /\
  confirmedPotholes st = 1%nat /\ falsePositives st = 0%nat /\
  eventsCount st = 1%nat.
Proof. repeat split. Qed.

(** Start, two fixes about a kilometre apart, stop after one minute: the
    exported record has an average speed between 58 and 59 km/h. *)
Example average_speed_scenario :
  map (fun s => (gt (averageSpeed s) 58, gt 59 (averageSpeed s), endTime s))
      (exported
         (@run seriesMath recordMediumHigh
               (setup ++ [StartSession 1000 "s1"; LocationFix fixA;
                          LocationFix fixB; StopSession 61000])
               initialState))
  = [(true, true, Some 61000)].
Proof. reflexivity. Qed.

(** After a stop the motion listener is still installed; its readings find
    no session and record nothing. *)
Example reading_after_stop :
  sessionEvents
    (@run seriesMath recordAll
          (setup ++ [StartSession 1000 "s1"; LocationFix fixA;
                     StopSession 61000; LocationFix fixB;
                     AccelerometerData jolt30 "e1"])
          initialState)
  = [].
Proof. reflexivity. Qed.

(** * Further properties of the page *)

(** ** The handler, case by case *)

(** [handleAccelerometerData] stores the reading and then either leaves
    everything else alone or pushes one event, built from the reading, the
    current location and the severity of the reading; the filtering variant
    pushes only when that severity is not low. *)
Lemma handleAccelerometerData_cases v r newId st :
  handleAccelerometerData v r newId st = set_currentAccelerometer r st \/
  exists loc s,
    currentLocation st = Some loc /\
    currentSession st = Some s /\
    detectPothole r = true /\
    (v = recordMediumHigh -> calculateSeverity r <> low) /\
    handleAccelerometerData v r newId st
    = pushEvent (newEvent newId r loc (calculateSeverity r)) s
                (set_currentAccelerometer r st).
Proof.
  destruct v; simpl;
    unfold handleAccelerometerData_all, handleAccelerometerData_filtered;
    destruct (detectPothole r) eqn:Hd; simpl; try (now left);
    destruct (currentLocation st) as [loc | ] eqn:El; try (now left);
    destruct (currentSession st) as [s | ] eqn:Es; try (now left).
  - right. exists loc, s. repeat split. discriminate.
  - destruct (calculateSeverity r) eqn:Hs; [ now left | | ];
      right; exists loc, s; repeat split; congruence.
Qed.

(** ** Properties kept by every event *)

Lemma exported_reactiveStats st : exported (reactiveStats st) = exported st.
Proof. unfold reactiveStats. now destruct (currentSession st). Qed.

Lemma setConfirmation_frame b eventId st :
  exported (setConfirmation b eventId st) = exported st /\
  currentLocation (setConfirmation b eventId st) = currentLocation st /\
  totalDistance (setConfirmation b eventId st) = totalDistance st.
Proof.
  unfold setConfirmation, confirmPothole, markFalsePositive.
  destruct b; destruct (currentSession st) as [s | ]; try (now repeat split);
    destruct (find (hasId eventId) (events s)); now repeat split.
Qed.

Lemma Forall_updateFirst (P : PotholeEvent -> Prop) eventId f l :
  (forall e, P e -> P (f e)) -> Forall P l -> Forall P (updateFirst eventId f l).
Proof.
  intros Hf. induction 1 as [ | e l He Hl IH]; simpl; [ constructor | ].
  destruct (hasId eventId e); constructor; auto.
Qed.

Section EventInvariant.

Context `{JSMath}.
Variable v : PageVariant.
Variable P : PotholeEvent -> Prop.
Variable L : LocationData -> Prop.

Hypothesis P_resolve : forall b lbl e, P e -> P (resolve b lbl e).
Hypothesis P_new :
  forall newId r loc,
    L loc -> detectPothole r = true ->
    (v = recordMediumHigh -> calculateSeverity r <> low) ->
    P (newEvent newId r loc (calculateSeverity r)).

Lemma setConfirmation_eventsInvariant b eventId st :
  eventsInvariant P L st -> eventsInvariant P L (setConfirmation b eventId st).
Proof.
  intros [He [Hx Hl]].
  destruct (setConfirmation_frame b eventId st) as [Ex [El _]].
  unfold eventsInvariant. rewrite Ex, El.
  split; [ | split; assumption ].
  unfold sessionEvents in *. rewrite setConfirmation_session.
  destruct (currentSession st) as [s | ]; simpl; [ | constructor ].
  apply Forall_updateFirst; [ apply P_resolve | exact He ].
Qed.

Lemma step_eventsInvariant a st :
  (forall loc, a = LocationFix loc -> L loc) ->
  eventsInvariant P L st -> eventsInvariant P L (step v a st).
Proof.
  intros Ha Hinv.
  assert (Hflush : forall s0, eventsInvariant P L s0 ->
                              eventsInvariant P L (reactiveStats s0)).
  { intros s0 Hs0. unfold eventsInvariant.
    now rewrite sessionEvents_reactiveStats, exported_reactiveStats,
      currentLocation_reactiveStats. }
  unfold step. apply Hflush. clear Hflush.
  destruct Hinv as [He [Hx Hl]].
  destruct a; simpl.
  - unfold requestPermissions. destruct acc; now repeat split.
  - now repeat split.
  - now repeat split.
  - unfold startSession.
    destruct (p_accelerometer (permissionDetails st)),
             (p_location (permissionDetails st)),
             (startCoords st), (destinationCoords st); simpl;
      now repeat split.
  - unfold stopSession, eventsInvariant, sessionEvents in *.
    destruct (currentSession st) as [s | ] eqn:Es; simpl;
      [ | rewrite Es; now repeat split ].
    split; [ constructor | split; [ | discriminate ] ].
    apply Forall_app. split; [ exact Hx | ].
    constructor; [ exact He | constructor ].
  - destruct (handleAccelerometerData_cases v reading newId st)
      as [-> | [loc [s [El [Es [Hd [Hv ->]]]]]]].
    + now repeat split.
    + unfold eventsInvariant, sessionEvents in *. simpl.
      rewrite Es in He.
      split; [ | now split ].
      apply Forall_app. split; [ exact He | ].
      constructor; [ | constructor ]. apply P_new; auto.
  - unfold handleLocationData, eventsInvariant, sessionEvents in *.
    destruct (lastLocation st); destruct (currentSession st); simpl;
      (split; [ exact He
              | split; [ exact Hx
                       | intros l0 E; injection E as <-; now apply Ha ] ]).
  - now apply (setConfirmation_eventsInvariant true).
  - now apply (setConfirmation_eventsInvariant false).
Qed.

Lemma run_eventsInvariant tr :
  forall st,
    (forall loc, In loc (fixesOf tr) -> L loc) ->
    eventsInvariant P L st -> eventsInvariant P L (run v tr st).
Proof.
  induction tr as [ | a tr IH]; intros st Hfix Hinv; [ exact Hinv | ].
  rewrite run_cons. apply IH.
  - intros loc Hin. apply Hfix. unfold fixesOf. simpl.
    apply in_or_app. now right.
  - apply step_eventsInvariant; [ | exact Hinv ].
    intros loc ->. apply Hfix. simpl. now left.
Qed.

End EventInvariant.

Lemma initial_eventsInvariant P L : eventsInvariant P L initialState.
Proof. repeat split; try constructor. discriminate. Qed.

(** X1. Every event the page holds, in the current session or in a record
    already exported, is geotagged by a fix that was delivered: its
    location is one of the location samples of the trace, its speed is
    that sample's speed and its time is the time of its reading. *)
Theorem events_are_geotagged `{JSMath} (v : PageVariant) (tr : list Action) :
  Forall (geotagged (fixesOf tr)) (sessionEvents (run v tr initialState)) /\
  Forall (fun s => Forall (geotagged (fixesOf tr)) (events s))
         (exported (run v tr initialState)).
Proof.
  destruct (run_eventsInvariant
              v (geotagged (fixesOf tr)) (fun loc => In loc (fixesOf tr))
              (fun b lbl e He => He)
              (fun newId r loc Hl _ _ => conj Hl (conj eq_refl eq_refl))
              tr initialState (fun loc Hin => Hin)
              (initial_eventsInvariant _ _))
    as [He [Hx _]].
  now split.
Qed.

(** X2. With the handler that filters, no event of severity low is ever
    in the session, nor in any exported record. *)
Theorem filtered_page_holds_no_low_event `{JSMath} (tr : list Action) :
  Forall (fun e => severity e <> low)
         (sessionEvents (run recordMediumHigh tr initialState)) /\
  Forall (fun s => Forall (fun e => severity e <> low) (events s))
         (exported (run recordMediumHigh tr initialState)).
Proof.
  destruct (run_eventsInvariant
              recordMediumHigh (fun e => severity e <> low) (fun _ => True)
              (fun b lbl e He => He)
              (fun newId r loc _ _ Hv => Hv eq_refl)
              tr initialState (fun _ _ => I)
              (initial_eventsInvariant _ _))
    as [He [Hx _]].
  now split.
Qed.

(** ** The exported records *)

(** A callback leaves the exported records as they are, except
    [stopSession] on a session, which appends the finished session. *)
Lemma exported_step `{JSMath} v a st :
  exported (step v a st) = exported st \/
  exists now s,
    a = StopSession now /\ currentSession st = Some s /\
    exported (step v a st)
    = exported st ++ [finishSession now (totalDistance st) s].
Proof.
  unfold step. rewrite exported_reactiveStats.
  destruct a; simpl.
  - left. unfold requestPermissions. now destruct acc.
  - now left.
  - now left.
  - left. unfold startSession.
    destruct (p_accelerometer (permissionDetails st)),
             (p_location (permissionDetails st)),
             (startCoords st), (destinationCoords st); reflexivity.
  - unfold stopSession.
    destruct (currentSession st) as [s | ] eqn:Es; [ | now left ].
    right. now exists now, s.
  - left.
    destruct (handleAccelerometerData_cases v reading newId st)
      as [-> | [loc [s [_ [_ [_ [_ ->]]]]]]]; reflexivity.
  - left. unfold handleLocationData.
    now destruct (lastLocation st), (currentSession st).
  - left. apply (setConfirmation_frame true).
  - left. apply (setConfirmation_frame false).
Qed.

Lemma finishSession_finished now total s : finished (finishSession now total s).
Proof. exists now. split; reflexivity. Qed.

(** X3. Every record handed to [exportSessionData] has an end time, and
    its average speed is the one that its own distance, start time and
    end time give: [totalDistance / minutes * 60] when the duration is
    above 0, and 0 otherwise. *)
Theorem exported_records_are_finished
        `{JSMath} (v : PageVariant) (tr : list Action) :
  Forall finished (exported (run v tr initialState)).
Proof.
  assert (Hgen : forall st, Forall finished (exported st) ->
                            Forall finished (exported (run v tr st))).
  { induction tr as [ | a tr IH]; intros st Hst; [ exact Hst | ].
    rewrite run_cons. apply IH.
    destruct (exported_step v a st) as [-> | [now [s [_ [_ ->]]]]];
      [ exact Hst | ].
    apply Forall_app. split; [ exact Hst | ].
    constructor; [ apply finishSession_finished | constructor ]. }
  apply Hgen. constructor.
Qed.

(** X4. Exported records are never removed or changed: what was exported
    after a trace is a prefix of what is exported after any continuation,
    and the continuation adds at most one record per [stopSession]. *)
Theorem exported_only_grows
        `{JSMath} (v : PageVariant) (tr1 tr2 : list Action) :
  exists added : list DrivingSession,
    exported (run v (tr1 ++ tr2) initialState)
    = exported (run v tr1 initialState) ++ added /\
    (List.length added <= List.length (filter isStop tr2))%nat.
Proof.
  rewrite run_app. generalize (run v tr1 initialState).
  induction tr2 as [ | a tr2 IH]; intros st.
  - exists []. split; [ now rewrite app_nil_r | apply le_n ].
  - rewrite run_cons. destruct (IH (step v a st)) as [added [Eq Hlen]].
    destruct (exported_step v a st) as [E | [now [s [Ea [_ E]]]]];
      rewrite E in Eq.
    + exists added. split; [ exact Eq | ].
      simpl. destruct (isStop a); simpl; lia.
    + exists (finishSession now (totalDistance st) s :: added).
      split; [ now rewrite Eq, <- app_assoc | ].
      subst a. simpl. lia.
Qed.

(** ** The component's copies of the session's fields *)

Lemma mirrorsSession_step `{JSMath} v a st :
  mirrorsSession st -> mirrorsSession (step v a st).
Proof.
  unfold step.
  assert (Hflush : forall s0, mirrorsSession s0 ->
                              mirrorsSession (reactiveStats s0)).
  { intros s0. unfold mirrorsSession, reactiveStats.
    destruct (currentSession s0) eqn:E; simpl; rewrite ?E; auto. }
  intros Hst. apply Hflush. clear Hflush.
  unfold mirrorsSession in *.
  destruct a; simpl.
  - unfold requestPermissions. now destruct acc.
  - exact Hst.
  - exact Hst.
  - unfold startSession.
    destruct (p_accelerometer (permissionDetails st)),
             (p_location (permissionDetails st)),
             (startCoords st), (destinationCoords st); simpl;
      solve [ exact Hst | now split ].
  - unfold stopSession.
    destruct (currentSession st) eqn:Es; simpl; [ exact I | now rewrite Es ].
  - destruct (handleAccelerometerData_cases v reading newId st)
      as [-> | [loc [s [_ [Es [_ [_ ->]]]]]]]; simpl; [ exact Hst | ].
    now rewrite Es in Hst.
  - unfold handleLocationData.
    destruct (lastLocation st); destruct (currentSession st) as [s | ];
      simpl; try exact Hst; try exact I.
    split; [ reflexivity | apply Hst ].
  - pose proof (setConfirmation_session true eventId st) as Hs.
    destruct (setConfirmation_frame true eventId st) as [_ [_ Ht]].
    simpl in Hs, Ht. rewrite Hs.
    assert (Hstart : sessionStartTime (confirmPothole eventId st)
                     = sessionStartTime st).
    { unfold confirmPothole. destruct (currentSession st) as [s | ];
        [ now destruct (find (hasId eventId) (events s)) | reflexivity ]. }
    destruct (currentSession st); simpl; [ | exact I ].
    now rewrite Ht, Hstart.
  - pose proof (setConfirmation_session false eventId st) as Hs.
    destruct (setConfirmation_frame false eventId st) as [_ [_ Ht]].
    simpl in Hs, Ht. rewrite Hs.
    assert (Hstart : sessionStartTime (markFalsePositive eventId st)
                     = sessionStartTime st).
    { unfold markFalsePositive. destruct (currentSession st) as [s | ];
        [ now destruct (find (hasId eventId) (events s)) | reflexivity ]. }
    destruct (currentSession st); simpl; [ | exact I ].
    now rewrite Ht, Hstart.
Qed.

(** X5. While a session exists, the distance and the start time that the
    page displays from its own variables are the session's
    [totalDistance] and [startTime]: the two copies never drift apart. *)
Theorem component_mirrors_session
        `{JSMath} (v : PageVariant) (tr : list Action) :
  mirrorsSession (run v tr initialState).
Proof.
  assert (Hgen : forall st, mirrorsSession st -> mirrorsSession (run v tr st)).
  { induction tr as [ | a tr IH]; intros st Hst; [ exact Hst | ].
    rewrite run_cons. apply IH. now apply mirrorsSession_step. }
  apply Hgen. exact I.
Qed.

(** ** The counters *)

Lemma confirmation_partition (l : list PotholeEvent) :
  List.length l
  = (List.length (filter isConfirmed l) + List.length (filter isRejected l)
     + List.length (filter isPending l))%nat.
Proof.
  induction l as [ | e l IH]; [ reflexivity | ].
  simpl. unfold isConfirmed, isRejected, isPending in *.
  destruct (userConfirmed e) as [[ | ] | ]; simpl; lia.
Qed.

Lemma countersMatch_reactiveStats st : countersMatch (reactiveStats st).
Proof.
  unfold countersMatch, reactiveStats.
  destruct (currentSession st) as [s | ] eqn:Es; simpl;
    [ | now rewrite Es ].
  repeat split. apply confirmation_partition.
Qed.

Lemma updateFirst_split eventId l e :
  find (hasId eventId) l = Some e ->
  exists before after,
    l = before ++ e :: after /\
    forallb (fun e' => negb (hasId eventId e')) before = true /\
    forall f, updateFirst eventId f l = before ++ f e :: after.
Proof.
  induction l as [ | e0 l IH]; simpl; [ discriminate | ].
  destruct (hasId eventId e0) eqn:H0.
  - intros E. injection E as <-. exists [], l. now repeat split.
  - intros Hf. destruct (IH Hf) as [before [after [-> [Hb Hu]]]].
    exists (e0 :: before), after. simpl. rewrite H0.
    split; [ reflexivity | split; [ exact Hb | ] ].
    intros f. now rewrite Hu.
Qed.

(** After every callback and the reactive block that follows it, the
    counters are those of the events. *)
Lemma countersMatch_run `{JSMath} (v : PageVariant) (tr : list Action) :
  countersMatch (run v tr initialState).
Proof.
  destruct tr as [ | a tr] using rev_ind; [ exact I | ].
  rewrite run_app. simpl. apply countersMatch_reactiveStats.
Qed.

(** Where the counters are right already, the reactive block changes
    nothing. *)
Lemma reactiveStats_fixed st : countersMatch st -> reactiveStats st = st.
Proof.
  unfold countersMatch, reactiveStats. destruct st. simpl.
  destruct currentSession0 as [s | ]; [ | reflexivity ].
  now intros (-> & -> & -> & _).
Qed.

Lemma countersMatch_intro st s :
  currentSession st = Some s ->
  eventsCount st = List.length (events s) ->
  confirmedPotholes st = List.length (filter isConfirmed (events s)) ->
  falsePositives st = List.length (filter isRejected (events s)) ->
  countersMatch st.
Proof.
  intros Es E1 E2 E3. unfold countersMatch. rewrite Es.
  repeat split; try assumption.
  rewrite E1, E2, E3. apply confirmation_partition.
Qed.

(** Resolving a pending event moves it from the pending ones to the
    confirmed or to the rejected ones. *)
Lemma counts_after_resolve (b : bool) (lbl : Label)
      (before after : list PotholeEvent) (e : PotholeEvent) :
  isPending e = true ->
  List.length (before ++ resolve b lbl e :: after)
  = List.length (before ++ e :: after) /\
  List.length (filter isConfirmed (before ++ resolve b lbl e :: after))
  = ((if b then 1 else 0)
     + List.length (filter isConfirmed (before ++ e :: after)))%nat /\
  List.length (filter isRejected (before ++ resolve b lbl e :: after))
  = ((if b then 0 else 1)
     + List.length (filter isRejected (before ++ e :: after)))%nat.
Proof.
  intros Hp. rewrite !filter_app, !length_app. simpl.
  unfold isPending in Hp. unfold isConfirmed, isRejected. simpl.
  destruct (userConfirmed e); [ discriminate | ].
  destruct b; simpl; rewrite ?length_app; simpl; lia.
Qed.

(** Each handler, called as the template allows, keeps the counters
    right by what it writes itself. *)
Lemma countersMatch_handle `{JSMath} v a st :
  countersMatch st -> offered a st = true -> countersMatch (handle v a st).
Proof.
  intros Hm Ho. destruct a; simpl handle.
  - unfold requestPermissions. now destruct acc.
  - exact Hm.
  - exact Hm.
  - unfold startSession.
    destruct (p_accelerometer (permissionDetails st)),
             (p_location (permissionDetails st)),
             (startCoords st), (destinationCoords st); simpl; try exact Hm.
    unfold countersMatch. simpl. now repeat split.
  - unfold stopSession.
    destruct (currentSession st) eqn:Es; [ exact I | exact Hm ].
  - destruct (handleAccelerometerData_cases v reading newId st)
      as [-> | (loc & s & _ & Es & _ & _ & ->)]; [ exact Hm | ].
    unfold countersMatch in Hm. rewrite Es in Hm.
    destruct Hm as (_ & E2 & E3 & _).
    apply (countersMatch_intro _ (with_events (events s ++ [newEvent newId reading loc (calculateSeverity reading)]) s));
      simpl; try reflexivity.
    + now rewrite E2, filter_app, length_app.
    + now rewrite E3, filter_app, length_app.
  - unfold countersMatch in *. unfold handleLocationData.
    destruct (lastLocation st), (currentSession st) as [s | ] eqn:Es; simpl;
      rewrite ?Es; exact Hm.
  - unfold confirmPothole. simpl in Ho. unfold sessionEvents in Ho.
    destruct (currentSession st) as [s | ] eqn:Es; [ | exact Hm ].
    destruct (find (hasId eventId) (events s)) as [e | ] eqn:Ef;
      [ | exact Hm ].
    destruct (updateFirst_split eventId (events s) e Ef)
      as (before & after & El & _ & Hu).
    unfold countersMatch in Hm. rewrite Es in Hm.
    destruct Hm as (E1 & E2 & E3 & _).
    destruct (counts_after_resolve true pothole_confirmed before after e Ho)
      as (L1 & L2 & L3).
    apply (countersMatch_intro
             _ (with_events (updateFirst eventId (resolve true pothole_confirmed)
                                         (events s)) s));
      simpl; try reflexivity; rewrite Hu.
    + now rewrite L1, <- El.
    + rewrite L2, <- El. simpl. now rewrite E2.
    + rewrite L3, <- El. simpl. now rewrite E3.
  - unfold markFalsePositive. simpl in Ho. unfold sessionEvents in Ho.
    destruct (currentSession st) as [s | ] eqn:Es; [ | exact Hm ].
    destruct (find (hasId eventId) (events s)) as [e | ] eqn:Ef;
      [ | exact Hm ].
    destruct (updateFirst_split eventId (events s) e Ef)
      as (before & after & El & _ & Hu).
    unfold countersMatch in Hm. rewrite Es in Hm.
    destruct Hm as (E1 & E2 & E3 & _).
    destruct (counts_after_resolve false false_positive before after e Ho)
      as (L1 & L2 & L3).
    apply (countersMatch_intro
             _ (with_events (updateFirst eventId (resolve false false_positive)
                                         (events s)) s));
      simpl; try reflexivity; rewrite Hu.
    + now rewrite L1, <- El.
    + rewrite L2, <- El. simpl. now rewrite E2.
    + rewrite L3, <- El. simpl. now rewrite E3.
Qed.

(** X6. The handlers keep the three counters right by their own writes, as
    long as the two ledger functions are called the way the template
    offers them, on an event that is still pending (or on an identifier
    that no event carries): in every reachable state and for every such
    callback, [eventsCount], [confirmedPotholes] and [falsePositives]
    are, when the handler returns, the number of the session's events, of
    the confirmed and of the rejected ones, and the reactive block that
    follows changes nothing. *)
Theorem handlers_keep_counters_when_offered
        `{JSMath} (v : PageVariant) (tr : list Action) (a : Action) :
  offered a (run v tr initialState) = true ->
  countersMatch (handle v a (run v tr initialState)) /\
  step v a (run v tr initialState) = handle v a (run v tr initialState).
Proof.
  intros Ho.
  pose proof (countersMatch_handle v a _ (countersMatch_run v tr) Ho) as Hm.
  split; [ exact Hm | ]. unfold step. now apply reactiveStats_fixed.
Qed.

Lemma handlers_keep_counters_when_offered_witness :
  offered (ConfirmPothole "e1")
          (@run seriesMath recordAll
                (setup ++ [StartSession 1000 "s1"; LocationFix fixA;
                           AccelerometerData jolt30 "e1"])
                initialState) = true /\
  @step seriesMath recordAll (ConfirmPothole "e1")
        (@run seriesMath recordAll
              (setup ++ [StartSession 1000 "s1"; LocationFix fixA;
                         AccelerometerData jolt30 "e1"])
              initialState)
  = @handle seriesMath recordAll (ConfirmPothole "e1")
            (@run seriesMath recordAll
                  (setup ++ [StartSession 1000 "s1"; LocationFix fixA;
                             AccelerometerData jolt30 "e1"])
                  initialState).
Proof.
  split; [ reflexivity | ].
  exact (proj2 (@handlers_keep_counters_when_offered
                  seriesMath recordAll
                  (setup ++ [StartSession 1000 "s1"; LocationFix fixA;
                             AccelerometerData jolt30 "e1"])
                  (ConfirmPothole "e1") eq_refl)).
Defined.

(** Without the template's guard the handler's own count is wrong: a
    second [confirmPothole] of the same event counts it again, and it is
    the reactive block that brings the counter back to the one confirmed
    event. *)
Example second_confirm_is_counted_twice_by_the_handler :
  confirmedPotholes
    (@handle seriesMath recordAll (ConfirmPothole "e1")
             (@run seriesMath recordAll
                   (setup ++ [StartSession 1000 "s1"; LocationFix fixA;
                              AccelerometerData jolt30 "e1";
                              ConfirmPothole "e1"])
                   initialState)) = 2%nat /\
  confirmedPotholes
    (@step seriesMath recordAll (ConfirmPothole "e1")
           (@run seriesMath recordAll
                 (setup ++ [StartSession 1000 "s1"; LocationFix fixA;
                            AccelerometerData jolt30 "e1";
                            ConfirmPothole "e1"])
                 initialState)) = 1%nat.
Proof. split; reflexivity. Qed.

(** ** The ledger on a missing event and on duplicates *)

Lemma find_none_updateFirst eventId f l :
  find (hasId eventId) l = None -> updateFirst eventId f l = l.
Proof.
  induction l as [ | e l IH]; simpl; [ reflexivity | ].
  destruct (hasId eventId e); [ discriminate | ].
  intros Hf. now rewrite IH.
Qed.

(** X7. Confirming or rejecting an identifier that no event of the session
    carries, or with no session at all, changes nothing: no field of the
    page's state, no counter. *)
Theorem ledger_ignores_unknown_id (eventId : string) (st : State) :
  find (hasId eventId) (sessionEvents st) = None ->
  confirmPothole eventId st = st /\ markFalsePositive eventId st = st.
Proof.
  unfold sessionEvents, confirmPothole, markFalsePositive.
  destruct (currentSession st) as [s | ]; [ | now split ].
  intros ->. now split.
Qed.

Lemma ledger_ignores_unknown_id_witness :
  find (hasId "e9")
       (sessionEvents
          (handleAccelerometerData recordAll jolt30 "e1"
                                   (activeWithFix recordAll))) = None /\
  confirmPothole "e9"
    (handleAccelerometerData recordAll jolt30 "e1" (activeWithFix recordAll))
  = handleAccelerometerData recordAll jolt30 "e1" (activeWithFix recordAll).
Proof.
  split; [ reflexivity | ].
  exact (proj1 (ledger_ignores_unknown_id
                  "e9"
                  (handleAccelerometerData recordAll jolt30 "e1"
                                           (activeWithFix recordAll))
                  eq_refl)).
Defined.

(** X8. [confirmPothole] and [markFalsePositive] change one event at most:
    the first one, in detection order, that carries the identifier.  The
    events before it do not carry the identifier, and every event after
    it stays as it is, one with the same identifier included. *)
Theorem ledger_changes_first_match_only
        (eventId : string) (st : State) (e : PotholeEvent) :
  find (hasId eventId) (sessionEvents st) = Some e ->
  exists before after,
    sessionEvents st = before ++ e :: after /\
    forallb (fun e' => negb (hasId eventId e')) before = true /\
    sessionEvents (confirmPothole eventId st)
    = before ++ resolve true pothole_confirmed e :: after /\
    sessionEvents (markFalsePositive eventId st)
    = before ++ resolve false false_positive e :: after.
Proof.
  pose proof (setConfirmation_session true eventId st) as Ht.
  pose proof (setConfirmation_session false eventId st) as Hf.
  simpl in Ht, Hf.
  unfold sessionEvents. rewrite Ht, Hf.
  destruct (currentSession st) as [s | ]; simpl; [ | discriminate ].
  intros Hfind.
  destruct (updateFirst_split eventId (events s) e Hfind)
    as [before [after [Hl [Hb Hu]]]].
  exists before, after. rewrite !Hu. now repeat split.
Qed.

(** A session holding two events with the same identifier. *)
Lemma ledger_changes_first_match_only_witness :
  find (hasId "e1")
       (sessionEvents
          (handleAccelerometerData recordAll jolt22 "e1"
             (handleAccelerometerData recordAll jolt30 "e1"
                                      (activeWithFix recordAll))))
  = Some (newEvent "e1" jolt30 fixA high) /\
  exists before after,
    sessionEvents
      (handleAccelerometerData recordAll jolt22 "e1"
         (handleAccelerometerData recordAll jolt30 "e1"
                                  (activeWithFix recordAll)))
    = before ++ newEvent "e1" jolt30 fixA high :: after /\
    forallb (fun e' => negb (hasId "e1" e')) before = true /\
    sessionEvents
      (confirmPothole "e1"
         (handleAccelerometerData recordAll jolt22 "e1"
            (handleAccelerometerData recordAll jolt30 "e1"
                                     (activeWithFix recordAll))))
    = before ++ resolve true pothole_confirmed
                        (newEvent "e1" jolt30 fixA high) :: after /\
    sessionEvents
      (markFalsePositive "e1"
         (handleAccelerometerData recordAll jolt22 "e1"
            (handleAccelerometerData recordAll jolt30 "e1"
                                     (activeWithFix recordAll))))
    = before ++ resolve false false_positive
                        (newEvent "e1" jolt30 fixA high) :: after.
Proof.
  split; [ reflexivity | ].
  exact (ledger_changes_first_match_only
           "e1"
           (handleAccelerometerData recordAll jolt22 "e1"
              (handleAccelerometerData recordAll jolt30 "e1"
                                       (activeWithFix recordAll)))
           (newEvent "e1" jolt30 fixA high) eq_refl).
Defined.

Example duplicate_identifier_stays_pending :
  map userConfirmed
      (sessionEvents
         (confirmPothole "e1"
            (handleAccelerometerData recordAll jolt22 "e1"
               (handleAccelerometerData recordAll jolt30 "e1"
                                        (activeWithFix recordAll)))))
  = [Some true; None].
Proof. reflexivity. Qed.

(** * The sensors *)

(** ** The class [SensorManager] *)

Section Calls.

Import SensorManager.

Context {M L : Type}.

Implicit Types (br : Browser M L) (sm : t) (c : Call M L).

Lemma filter_below {A} (n : nat) (l : list (nat * A)) :
  forallb (fun x => Nat.ltb (fst x) n) l = true ->
  filter (fun x => negb (Nat.eqb (fst x) n)) l = l.
Proof.
  induction l as [ | [h a] l IH ]; simpl; [ easy | ].
  intros Hl. apply andb_prop in Hl as [Hx Hl].
  apply Nat.ltb_lt in Hx.
  destruct (Nat.eqb_spec h n) as [E | _]; [ lia | ].
  simpl. now rewrite IH.
Qed.

Lemma forallb_below_mono {A} (n m : nat) (l : list (nat * A)) :
  (n <= m)%nat ->
  forallb (fun x => Nat.ltb (fst x) n) l = true ->
  forallb (fun x => Nat.ltb (fst x) m) l = true.
Proof.
  intros Hnm Hl. rewrite forallb_forall in *. intros x Hx.
  specialize (Hl x Hx). apply Nat.ltb_lt in Hl. apply Nat.ltb_lt. lia.
Qed.

Lemma forallb_filter_keeps {A} (p q : A -> bool) (l : list A) :
  forallb p l = true -> forallb p (filter q l) = true.
Proof.
  rewrite !forallb_forall. intros Hl x Hx.
  apply filter_In in Hx as [Hx _]. now apply Hl.
Qed.

Lemma handlesFresh_stopAllSensors sm br :
  handlesFresh br = true ->
  handlesFresh (snd (stopAllSensors sm br)) = true /\
  motionListeners (snd (stopAllSensors sm br)) = motionListeners br /\
  nextHandle (snd (stopAllSensors sm br)) = S (nextHandle br) /\
  geolocation (snd (stopAllSensors sm br)) = geolocation br.
Proof.
  unfold handlesFresh, stopAllSensors. intros Hf.
  apply andb_prop in Hf as [Hm Hw].
  assert (Hcommon :
    forall br1 : Browser M L,
      motionListeners br1 = motionListeners br ->
      nextHandle br1 = nextHandle br ->
      geolocation br1 = geolocation br ->
      forallb (fun w => Nat.ltb (fst w) (nextHandle br)) (positionWatches br1)
      = true ->
      let br2 := mkBrowser (motionListeners br1) (positionWatches br1)
                           (S (nextHandle br1)) (geolocation br1) in
      (forallb (fun l => Nat.ltb (fst l) (nextHandle (removeMotionListener (nextHandle br1) br2)))
               (motionListeners (removeMotionListener (nextHandle br1) br2))
       && forallb (fun w => Nat.ltb (fst w) (nextHandle (removeMotionListener (nextHandle br1) br2)))
                  (positionWatches (removeMotionListener (nextHandle br1) br2)))
      = true /\
      motionListeners (removeMotionListener (nextHandle br1) br2)
      = motionListeners br /\
      nextHandle (removeMotionListener (nextHandle br1) br2)
      = S (nextHandle br) /\
      geolocation (removeMotionListener (nextHandle br1) br2) = geolocation br).
  { intros br1 E1 E2 E3 Hw1. simpl. rewrite E1, E2, E3.
    rewrite (filter_below _ _ Hm).
    repeat split.
    apply andb_true_intro. split.
    - now apply (forallb_below_mono (nextHandle br)); [ lia | ].
    - now apply (forallb_below_mono (nextHandle br)); [ lia | ]. }
  simpl. destruct (watchId sm) as [id | ].
  - apply (Hcommon (clearWatch id br)); try reflexivity.
    simpl. now apply forallb_filter_keeps.
  - now apply (Hcommon br).
Qed.

Lemma stopAllSensors_watches sm br :
  positionWatches (snd (stopAllSensors sm br))
  = match watchId sm with
    | Some id => filter (fun w => negb (Nat.eqb (fst w) id)) (positionWatches br)
    | None => positionWatches br
    end.
Proof. unfold stopAllSensors. now destruct (watchId sm). Qed.

Lemma startLocationTracking_cases (callback : L) sm br :
  startLocationTracking callback sm br = (sm, br) \/
  (_locationPermission sm = true /\ geolocation br = true /\
   startLocationTracking callback sm br
   = (mk (_accelerometerPermission sm) (_locationPermission sm)
         (Some (nextHandle br)) (accelerometerInterval sm),
      mkBrowser (motionListeners br)
                (positionWatches br ++ [(nextHandle br, callback)])
                (S (nextHandle br)) (geolocation br))).
Proof.
  unfold startLocationTracking.
  destruct (_locationPermission sm) eqn:Ep, (geolocation br) eqn:Eg; simpl;
    try (now left).
  right. rewrite ?Ep, ?Eg. now repeat split.
Qed.

Lemma handlesFresh_add_watch (callback : L) br :
  handlesFresh br = true ->
  handlesFresh (mkBrowser (motionListeners br)
                          (positionWatches br ++ [(nextHandle br, callback)])
                          (S (nextHandle br)) (geolocation br)) = true.
Proof.
  unfold handlesFresh. simpl. intros Hf. apply andb_prop in Hf as [Hm Hw].
  apply andb_true_intro. split.
  - now apply (forallb_below_mono (nextHandle br)); [ lia | ].
  - rewrite forallb_app. apply andb_true_intro. split.
    + now apply (forallb_below_mono (nextHandle br)); [ lia | ].
    + simpl. rewrite andb_true_r. apply Nat.ltb_lt. lia.
Qed.

Lemma handlesFresh_addMotionListener (callback : M) br :
  handlesFresh br = true ->
  handlesFresh (addMotionListener callback br) = true.
Proof.
  unfold handlesFresh, addMotionListener. simpl. intros Hf.
  apply andb_prop in Hf as [Hm Hw].
  apply andb_true_intro. split.
  - rewrite forallb_app. apply andb_true_intro. split.
    + now apply (forallb_below_mono (nextHandle br)); [ lia | ].
    + simpl. rewrite andb_true_r. apply Nat.ltb_lt. lia.
  - now apply (forallb_below_mono (nextHandle br)); [ lia | ].
Qed.

Lemma handlesFresh_startAccelerometer (callback : M) sm br :
  handlesFresh br = true ->
  handlesFresh (startAccelerometer callback sm br) = true.
Proof.
  unfold startAccelerometer. destruct (negb _); [ easy | ].
  apply handlesFresh_addMotionListener.
Qed.

Lemma handlesFresh_startLocationTracking (callback : L) sm br :
  handlesFresh br = true ->
  handlesFresh (snd (startLocationTracking callback sm br)) = true.
Proof.
  intros Hf.
  destruct (startLocationTracking_cases callback sm br) as [-> | (_ & _ & ->)];
    [ easy | ].
  now apply handlesFresh_add_watch.
Qed.

(** Each call keeps the handles fresh and the listeners registered before
    it, in their order. *)
Lemma call_listeners c (w : t * Browser M L) :
  handlesFresh (snd w) = true ->
  handlesFresh (snd (call c w)) = true /\
  exists added,
    motionListeners (snd (call c w)) = motionListeners (snd w) ++ added.
Proof.
  destruct w as [sm br]. simpl. intros Hf. destruct c as [ | cb | cb | ]; simpl.
  - split; [ easy | ]. exists []. now rewrite app_nil_r.
  - split; [ now apply handlesFresh_startAccelerometer | ].
    unfold startAccelerometer. destruct (negb _).
    + exists []. now rewrite app_nil_r.
    + now exists [(nextHandle br, cb)].
  - split; [ now apply handlesFresh_startLocationTracking | ].
    destruct (startLocationTracking_cases cb sm br) as [-> | (_ & _ & ->)];
      exists []; now rewrite app_nil_r.
  - destruct (handlesFresh_stopAllSensors sm br Hf) as (Hf' & Hl & _).
    split; [ easy | ]. exists []. now rewrite app_nil_r.
Qed.

Lemma calls_app (cs1 cs2 : list (Call M L)) w :
  calls (cs1 ++ cs2) w = calls cs2 (calls cs1 w).
Proof. apply fold_left_app. Qed.

(** X9.  Nothing the class offers removes a [devicemotion] listener: after
    any sequence of calls, [stopAllSensors] included, the listeners that
    were registered are still registered, in the same order and before any
    listener added since. *)
Theorem registered_listener_is_never_removed
        (cs : list (Call M L)) (w : t * Browser M L) :
  handlesFresh (snd w) = true ->
  exists added,
    motionListeners (snd (calls cs w)) = motionListeners (snd w) ++ added.
Proof.
  revert w. induction cs as [ | c cs IH ]; intros w Hf.
  - exists []. now rewrite app_nil_r.
  - destruct (call_listeners c w Hf) as (Hf' & added1 & E1).
    destruct (IH (call c w) Hf') as (added2 & E2).
    exists (added1 ++ added2).
    change (calls (c :: cs) w) with (calls cs (call c w)).
    now rewrite E2, E1, app_assoc.
Qed.

Lemma orphaned_call id c (w : t * Browser M L) :
  orphaned id w -> orphaned id (call c w).
Proof.
  destruct w as [sm br]. unfold orphaned. simpl. intros (Hf & Hin & Hne).
  destruct c as [ | cb | cb | ]; cbn [call fst snd].
  - easy.
  - split; [ now apply handlesFresh_startAccelerometer | ].
    split; [ | easy ].
    unfold startAccelerometer. now destruct (negb _).
  - split; [ now apply handlesFresh_startLocationTracking | ].
    destruct (startLocationTracking_cases cb sm br) as [-> | (_ & _ & ->)];
      [ easy | ].
    simpl. unfold watchIds in *. simpl. rewrite map_app, in_app_iff.
    split; [ now left | ].
    intros [= E]. subst id.
    unfold handlesFresh in Hf. apply andb_prop in Hf as [_ Hw].
    rewrite forallb_forall in Hw.
    apply in_map_iff in Hin as (x & Ex & Hx).
    specialize (Hw x Hx). apply Nat.ltb_lt in Hw. lia.
  - destruct (handlesFresh_stopAllSensors sm br Hf) as (Hf' & _).
    split; [ easy | ]. split; [ | easy ].
    unfold watchIds in *. rewrite stopAllSensors_watches.
    destruct (watchId sm) as [id' | ]; [ | easy ].
    apply in_map_iff in Hin as (x & Ex & Hx).
    apply in_map_iff. exists x. split; [ easy | ].
    apply filter_In. split; [ easy | ].
    apply negb_true_iff, Nat.eqb_neq. congruence.
Qed.

Lemma orphaned_calls id cs (w : t * Browser M L) :
  orphaned id w -> orphaned id (calls cs w).
Proof.
  revert w. induction cs as [ | c cs IH ]; intros w Ho; [ easy | ].
  simpl. apply IH. now apply orphaned_call.
Qed.

(** X10.  [startLocationTracking] called while a watch is running starts a
    second watch and overwrites [watchId]: the earlier watch is then out
    of reach, and it keeps running through every later call,
    [stopAllSensors] included. *)
Theorem earlier_watch_is_never_cleared
        (callback : L) (cs : list (Call M L)) sm br (id : nat) :
  handlesFresh br = true ->
  watchId sm = Some id ->
  In id (watchIds br) ->
  _locationPermission sm = true ->
  geolocation br = true ->
  In id (watchIds
           (snd (calls (CallStartLocationTracking callback :: cs) (sm, br)))) /\
  watchId (fst (call (CallStartLocationTracking callback) (sm, br)))
  = Some (nextHandle br).
Proof.
  intros Hf Hid Hin Hp Hg.
  assert (E : call (CallStartLocationTracking callback) (sm, br)
              = (mk (_accelerometerPermission sm) (_locationPermission sm)
                    (Some (nextHandle br)) (accelerometerInterval sm),
                 mkBrowser (motionListeners br)
                           (positionWatches br ++ [(nextHandle br, callback)])
                           (S (nextHandle br)) (geolocation br))).
  { destruct (startLocationTracking_cases callback sm br)
      as [E0 | (_ & _ & E0)]; [ | exact E0 ].
    unfold startLocationTracking in E0. rewrite Hp, Hg in E0. simpl in E0.
    injection E0 as _ E0. apply (f_equal nextHandle) in E0. simpl in E0. lia. }
  split; [ | now rewrite E ].
  change (calls (CallStartLocationTracking callback :: cs) (sm, br))
    with (calls cs (call (CallStartLocationTracking callback) (sm, br))).
  apply orphaned_calls. rewrite E. unfold orphaned. simpl.
  split; [ now apply handlesFresh_add_watch | ].
  split.
  - unfold watchIds in *. simpl. rewrite map_app, in_app_iff. now left.
  - intros [= E']. subst id.
    unfold handlesFresh in Hf. apply andb_prop in Hf as [_ Hw].
    rewrite forallb_forall in Hw.
    apply in_map_iff in Hin as (x & Ex & Hx).
    specialize (Hw x Hx). apply Nat.ltb_lt in Hw. lia.
Qed.

End Calls.

Lemma registered_listener_is_never_removed_witness :
  SensorManager.handlesFresh
    (snd (SensorManager.calls [SensorManager.CallStartAccelerometer tt]
                              (trackingManager, trackingBrowser))) = true /\
  exists added,
    SensorManager.motionListeners
      (snd (SensorManager.calls
              [SensorManager.CallStopAllSensors;
               SensorManager.CallStartAccelerometer tt;
               SensorManager.CallStopAllSensors]
              (SensorManager.calls [SensorManager.CallStartAccelerometer tt]
                                   (trackingManager, trackingBrowser))))
    = SensorManager.motionListeners
        (snd (SensorManager.calls [SensorManager.CallStartAccelerometer tt]
                                  (trackingManager, trackingBrowser)))
      ++ added.
Proof.
  split; [ reflexivity | ].
  exact (registered_listener_is_never_removed
           [SensorManager.CallStopAllSensors;
            SensorManager.CallStartAccelerometer tt;
            SensorManager.CallStopAllSensors]
           (SensorManager.calls [SensorManager.CallStartAccelerometer tt]
                                (trackingManager, trackingBrowser))
           eq_refl).
Defined.

Lemma earlier_watch_is_never_cleared_witness :
  (SensorManager.handlesFresh trackingBrowser = true /\
   SensorManager.watchId trackingManager = Some 0%nat /\
   In 0%nat (SensorManager.watchIds trackingBrowser) /\
   SensorManager._locationPermission trackingManager = true /\
   SensorManager.geolocation trackingBrowser = true) /\
  In 0%nat
     (SensorManager.watchIds
        (snd (SensorManager.calls
                [SensorManager.CallStartLocationTracking tt;
                 SensorManager.CallStopAllSensors]
                (trackingManager, trackingBrowser)))) /\
  SensorManager.watchId
    (fst (SensorManager.call (SensorManager.CallStartLocationTracking tt)
                             (trackingManager, trackingBrowser)))
  = Some (SensorManager.nextHandle trackingBrowser).
Proof.
  split.
  - repeat split. simpl. now left.
  - exact (earlier_watch_is_never_cleared
             tt [SensorManager.CallStopAllSensors]
             trackingManager trackingBrowser 0%nat
             eq_refl eq_refl (or_introl eq_refl) eq_refl eq_refl).
Defined.

(** ** The page and its sensors *)

Section World.

Context `{JSMath}.

Variable v : PageVariant.

Lemma keepsFrame_id : keepsFrame (fun st => st).
Proof. now intros st. Qed.

Lemma keepsFrame_reactiveStats : keepsFrame reactiveStats.
Proof.
  intros st. unfold reactiveStats.
  destruct (currentSession st) eqn:E; simpl; now rewrite ?E.
Qed.

Lemma keepsFrame_compose f g :
  keepsFrame f -> keepsFrame g -> keepsFrame (fun st => g (f st)).
Proof.
  intros Hf Hg st. destruct (Hf st) as (F1 & F2 & F3).
  destruct (Hg (f st)) as (G1 & G2 & G3).
  repeat split; congruence.
Qed.

Lemma keepsFrame_handleAccelerometerData r newId :
  keepsFrame (handleAccelerometerData v r newId).
Proof.
  intros st.
  destruct (handleAccelerometerData_cases v r newId st)
    as [-> | (loc & s & _ & Es & _ & _ & ->)]; simpl; [ easy | ].
  now rewrite Es.
Qed.

Lemma keepsFrame_handleLocationData loc : keepsFrame (handleLocationData loc).
Proof.
  intros st. unfold handleLocationData.
  destruct (lastLocation st), (currentSession st) eqn:E; simpl;
    now rewrite ?E.
Qed.

Lemma keepsFrame_selectStart c : keepsFrame (selectStart c).
Proof. now intros st. Qed.

Lemma keepsFrame_selectDestination c : keepsFrame (selectDestination c).
Proof. now intros st. Qed.

Lemma keepsFrame_confirmPothole eventId : keepsFrame (confirmPothole eventId).
Proof.
  intros st. unfold confirmPothole.
  destruct (currentSession st) as [s | ] eqn:E; [ | now rewrite E ].
  destruct (find _ _); simpl; now rewrite ?E.
Qed.

Lemma keepsFrame_markFalsePositive eventId :
  keepsFrame (markFalsePositive eventId).
Proof.
  intros st. unfold markFalsePositive.
  destruct (currentSession st) as [s | ] eqn:E; [ | now rewrite E ].
  destruct (find _ _); simpl; now rewrite ?E.
Qed.

Lemma keepsFrame_alert msg : keepsFrame (alert msg).
Proof. now intros st. Qed.

Lemma keepsFrame_dispatchMotion acc env :
  forall listeners k,
    Forall (fun l => snd l = handleAccelerometerData v) listeners ->
    keepsFrame (dispatchMotion acc env k listeners).
Proof.
  induction listeners as [ | [h callback] listeners IH ]; intros k Hl.
  - apply keepsFrame_id.
  - inversion Hl as [ | ? ? Hc Hl' ]; subst. simpl in Hc. subst callback.
    simpl. destruct (handleMotion acc (fst (env k))) as [reading | ].
    + apply (keepsFrame_compose
               (fun st => reactiveStats
                            (handleAccelerometerData v reading (snd (env k)) st))
               (dispatchMotion acc env (S k) listeners)); [ | now apply IH ].
      apply (keepsFrame_compose _ reactiveStats);
        [ apply keepsFrame_handleAccelerometerData
        | apply keepsFrame_reactiveStats ].
    + now apply IH.
Qed.

Lemma sessionCount_frame (a b : option DrivingSession) :
  isNull a = isNull b ->
  match a with Some _ => 1%nat | None => 0%nat end
  = match b with Some _ => 1%nat | None => 0%nat end.
Proof. now destruct a, b. Qed.

(** A change of the page alone that keeps the frame keeps the invariant. *)
Lemma worldInvariant_page (st' : State) (w : World) :
  permissionDetails st' = permissionDetails (page w) ->
  exported st' = exported (page w) ->
  isNull (currentSession st') = isNull (currentSession (page w)) ->
  worldInvariant v w ->
  worldInvariant v (mkWorld st' (sensorManager w) (browser w)).
Proof.
  intros E1 E2 E3 (I1 & I2 & I3 & I4 & I5 & I6).
  unfold worldInvariant. simpl.
  rewrite E1, E2, (sessionCount_frame _ _ E3). now repeat split.
Qed.

Lemma worldInvariant_onPage f w :
  keepsFrame f -> worldInvariant v w -> worldInvariant v (onPage f w).
Proof.
  intros Hf Hw. unfold onPage.
  destruct (keepsFrame_compose f reactiveStats Hf keepsFrame_reactiveStats
                               (page w)) as (E1 & E2 & E3).
  now apply worldInvariant_page.
Qed.

Lemma worldInvariant_mounted geo : worldInvariant v (mounted geo).
Proof.
  unfold worldInvariant, mounted. simpl.
  repeat split; try constructor. discriminate.
Qed.

Lemma requestPermissions_location prompt probe (w : World) :
  (SensorManager._locationPermission (sensorManager w) = true ->
   SensorManager.geolocation (browser w) = true) ->
  SensorManager._locationPermission
    (snd (SensorManager.requestPermissions prompt probe (browser w)
                                           (sensorManager w))) = true ->
  SensorManager.geolocation (browser w) = true.
Proof.
  unfold SensorManager.requestPermissions. simpl.
  destruct (SensorManager.geolocation (browser w)); [ easy | ].
  intros I5 E. now apply I5.
Qed.

Lemma worldInvariant_pageRequestPermissions prompt probe w :
  worldInvariant v w ->
  worldInvariant v (pageRequestPermissions prompt probe w).
Proof.
  intros (I1 & I2 & I3 & I4 & I5 & I6).
  pose proof (requestPermissions_location prompt probe w I5) as I5'.
  unfold pageRequestPermissions.
  destruct (SensorManager.requestPermissions prompt probe (browser w)
                                             (sensorManager w))
    as [granted sm] eqn:E.
  simpl in I5'. unfold worldInvariant.
  destruct (negb granted); simpl; now repeat split.
Qed.

Lemma worldInvariant_enableLocation prompt probe w :
  worldInvariant v w ->
  worldInvariant v (enableLocation prompt probe w).
Proof.
  intros (I1 & I2 & I3 & I4 & I5 & I6).
  pose proof (requestPermissions_location prompt probe w I5) as I5'.
  unfold enableLocation.
  destruct (SensorManager.requestPermissions prompt probe (browser w)
                                             (sensorManager w))
    as [granted sm] eqn:E.
  simpl in I5'. cbn [p_location p_accelerometer].
  assert (W2 :
    worldInvariant v
      (if SensorManager._locationPermission sm
       then
         let '(sm', br') :=
           SensorManager.startLocationTracking handleLocationData sm
                                               (browser w) in
         mkWorld
           (set_permissionDetails
              (mkPermissions (SensorManager._accelerometerPermission sm)
                             (SensorManager._locationPermission sm))
              (page w)) sm' br'
       else
         mkWorld
           (alert "Location access is required for navigation features. Please grant location permissions."
              (set_permissionDetails
                 (mkPermissions (SensorManager._accelerometerPermission sm)
                                (SensorManager._locationPermission sm))
                 (page w)))
           sm (browser w))).
  { destruct (SensorManager._locationPermission sm) eqn:El.
    - destruct (startLocationTracking_cases handleLocationData sm (browser w))
        as [-> | (_ & Hg & ->)]; unfold worldInvariant; simpl.
      + rewrite El. now repeat split.
      + rewrite El. repeat split; try easy.
        * now apply handlesFresh_add_watch.
        * apply Forall_app. split; [ easy | ]. now constructor.
    - unfold worldInvariant. simpl. rewrite El. now repeat split. }
  destruct (negb (SensorManager._accelerometerPermission sm)); [ | exact W2 ].
  destruct W2 as (J1 & J2 & J3 & J4 & J5 & J6).
  unfold worldInvariant. simpl. now repeat split.
Qed.

Lemma worldInvariant_worldStartSession now newId w :
  worldInvariant v w ->
  worldInvariant v (worldStartSession v now newId w).
Proof.
  intros Hw. pose proof Hw as (I1 & I2 & I3 & I4 & I5 & I6).
  unfold worldStartSession, startSession.
  destruct (p_accelerometer (permissionDetails (page w))) eqn:Ea; simpl;
    [ | now apply worldInvariant_page ].
  destruct (p_location (permissionDetails (page w))) eqn:El; simpl;
    [ | now apply worldInvariant_page ].
  destruct (isNull (startCoords (page w)) || isNull (destinationCoords (page w)));
    simpl; [ now apply worldInvariant_page | ].
  rewrite I4 in Ea, El. simpl in Ea, El.
  unfold SensorManager.startAccelerometer. rewrite Ea. simpl.
  pose proof (handlesFresh_addMotionListener (handleAccelerometerData v)
                                             (browser w) I1) as I1'.
  destruct (startLocationTracking_cases
              handleLocationData (sensorManager w)
              (SensorManager.addMotionListener (handleAccelerometerData v)
                                               (browser w)))
    as [-> | (_ & Hg & ->)]; unfold worldInvariant; simpl.
  - repeat split; try easy.
    + apply Forall_app. split; [ easy | ]. now constructor.
    + rewrite length_app. simpl. unfold MotionCallback in *.
      destruct (currentSession (page w)); lia.
  - repeat split; try easy.
    + now apply (handlesFresh_add_watch handleLocationData) in I1'.
    + apply Forall_app. split; [ easy | ]. now constructor.
    + apply Forall_app. split; [ easy | ]. now constructor.
    + rewrite length_app. simpl. unfold MotionCallback in *.
      destruct (currentSession (page w)); lia.
Qed.

Lemma worldInvariant_worldStopSession now w :
  worldInvariant v w -> worldInvariant v (worldStopSession now w).
Proof.
  intros Hw. pose proof Hw as (I1 & I2 & I3 & I4 & I5 & I6).
  unfold worldStopSession, stopSession.
  destruct (currentSession (page w)) as [s | ] eqn:Es; [ | easy ].
  destruct (handlesFresh_stopAllSensors (sensorManager w) (browser w) I1)
    as (J1 & J2 & _ & J4).
  pose proof (stopAllSensors_watches (sensorManager w) (browser w)) as J3.
  destruct (SensorManager.stopAllSensors (sensorManager w) (browser w))
    as [sm br] eqn:E.
  assert (Esm : sm = SensorManager.mk
                       (SensorManager._accelerometerPermission (sensorManager w))
                       (SensorManager._locationPermission (sensorManager w))
                       None None).
  { unfold SensorManager.stopAllSensors in E. now injection E as <- _. }
  simpl in J1, J2, J3, J4. unfold worldInvariant. simpl.
  rewrite J2, J4, Esm. simpl. repeat split; try easy.
  - rewrite J3. destruct (SensorManager.watchId (sensorManager w)); [ | easy ].
    rewrite Forall_forall in *. intros x Hx.
    apply filter_In in Hx as [Hx _]. now apply I3.
  - rewrite length_app. simpl. unfold MotionCallback in *. lia.
Qed.

Lemma worldInvariant_dispatchPosition id coords now w :
  worldInvariant v w -> worldInvariant v (dispatchPosition id coords now w).
Proof.
  intros Hw. pose proof Hw as (I1 & I2 & I3 & I4 & I5 & I6).
  unfold dispatchPosition.
  destruct (find _ _) as [[h callback] | ] eqn:Ef; [ | easy ].
  apply find_some in Ef as [Hin _].
  rewrite Forall_forall in I3. specialize (I3 _ Hin). simpl in I3. subst.
  apply (worldInvariant_onPage
           (handleLocationData (positionCallback coords now)) w);
    [ apply keepsFrame_handleLocationData | easy ].
Qed.

Lemma react_invariant ev w :
  worldInvariant v w -> worldInvariant v (react v ev w).
Proof.
  intros Hw. destruct ev; simpl.
  - apply worldInvariant_onPage; [ apply keepsFrame_id | ].
    now apply worldInvariant_pageRequestPermissions.
  - apply worldInvariant_onPage; [ apply keepsFrame_id | ].
    now apply worldInvariant_enableLocation.
  - apply worldInvariant_onPage; [ apply keepsFrame_selectStart | easy ].
  - apply worldInvariant_onPage; [ apply keepsFrame_selectDestination | easy ].
  - apply worldInvariant_onPage; [ apply keepsFrame_id | ].
    now apply worldInvariant_worldStartSession.
  - apply worldInvariant_onPage; [ apply keepsFrame_id | ].
    now apply worldInvariant_worldStopSession.
  - pose proof Hw as (_ & I2 & _).
    destruct (keepsFrame_dispatchMotion
                acc env (SensorManager.motionListeners (browser w)) 0%nat I2
                (page w)) as (E1 & E2 & E3).
    now apply worldInvariant_page.
  - now apply worldInvariant_dispatchPosition.
  - apply worldInvariant_onPage; [ apply keepsFrame_confirmPothole | easy ].
  - apply worldInvariant_onPage; [ apply keepsFrame_markFalsePositive | easy ].
Qed.

Lemma play_invariant evs w :
  worldInvariant v w -> worldInvariant v (play v evs w).
Proof.
  revert w. induction evs as [ | ev evs IH ]; intros w Hw; [ easy | ].
  simpl. apply IH. now apply react_invariant.
Qed.

End World.

(** The timestamp of a reading plays no part in its classification. *)
Lemma classifier_ignores_timestamp ax ay az env (j k : nat) :
  detectPothole (readingAt ax ay az env j)
  = detectPothole (readingAt ax ay az env k) /\
  calculateSeverity (readingAt ax ay az env j)
  = calculateSeverity (readingAt ax ay az env k).
Proof. split; reflexivity. Qed.

Lemma currentAccelerometer_reactiveStats st :
  currentAccelerometer (reactiveStats st) = currentAccelerometer st.
Proof. unfold reactiveStats. now destruct (currentSession st). Qed.

Lemma handleAccelerometerData_currentAccelerometer v r newId st :
  currentAccelerometer (reactiveStats (handleAccelerometerData v r newId st))
  = Some r.
Proof.
  rewrite currentAccelerometer_reactiveStats.
  now destruct (handleAccelerometerData_cases v r newId st)
    as [-> | (loc & s & _ & _ & _ & _ & ->)].
Qed.

Lemma handleAccelerometerData_records v r newId st s loc :
  currentSession st = Some s ->
  currentLocation st = Some loc ->
  detectPothole r = true ->
  (v = recordMediumHigh -> calculateSeverity r <> low) ->
  currentSession (reactiveStats (handleAccelerometerData v r newId st))
  = Some (with_events
            (events s ++ [newEvent newId r loc (calculateSeverity r)]) s) /\
  currentLocation (reactiveStats (handleAccelerometerData v r newId st))
  = Some loc.
Proof.
  intros Es El Hd Hs.
  rewrite currentSession_reactiveStats, currentLocation_reactiveStats.
  destruct v; simpl;
    unfold handleAccelerometerData_all, handleAccelerometerData_filtered;
    simpl; rewrite Hd, El, Es.
  - now split.
  - destruct (calculateSeverity r) eqn:E; [ now destruct Hs | | ]; now split.
Qed.

Lemma dispatchMotion_records v ax ay az env :
  forall listeners k st s loc,
    Forall (fun l => snd l = handleAccelerometerData v) listeners ->
    currentSession st = Some s ->
    currentLocation st = Some loc ->
    detectPothole (readingAt ax ay az env 0) = true ->
    (v = recordMediumHigh ->
     calculateSeverity (readingAt ax ay az env 0) <> low) ->
    sessionEvents (dispatchMotion (Some (ax, ay, az)) env k listeners st)
    = events s
      ++ map (fun j => newEvent (snd (env j)) (readingAt ax ay az env j) loc
                                (calculateSeverity (readingAt ax ay az env j)))
             (seq k (List.length listeners)).
Proof.
  induction listeners as [ | [h callback] listeners IH ];
    intros k st s loc Hl Es El Hd Hs.
  - simpl. unfold sessionEvents. now rewrite Es, app_nil_r.
  - inversion Hl as [ | ? ? Hc Hl' ]; subst. simpl in Hc. subst callback.
    cbn [dispatchMotion handleMotion List.length seq map].
    change (mkReading (orZero ax) (orZero ay) (orZero az) (fst (env k)))
      with (readingAt ax ay az env k).
    destruct (handleAccelerometerData_records
                v (readingAt ax ay az env k) (snd (env k)) st s loc Es El)
      as [Es' El'].
    + now rewrite (proj1 (classifier_ignores_timestamp ax ay az env k 0)).
    + now rewrite (proj2 (classifier_ignores_timestamp ax ay az env k 0)).
    + rewrite (IH (S k) _ _ loc Hl' Es' El' Hd Hs). simpl.
      now rewrite <- app_assoc.
Qed.

Lemma dispatchMotion_currentAccelerometer v ax ay az env :
  forall listeners k st,
    Forall (fun l => snd l = handleAccelerometerData v) listeners ->
    listeners <> [] ->
    currentAccelerometer (dispatchMotion (Some (ax, ay, az)) env k listeners st)
    = Some (readingAt ax ay az env (k + List.length listeners - 1)).
Proof.
  induction listeners as [ | [h callback] listeners IH ];
    intros k st Hl Hne; [ easy | ].
  inversion Hl as [ | ? ? Hc Hl' ]; subst. simpl in Hc. subst callback.
  cbn [dispatchMotion handleMotion List.length].
  destruct listeners as [ | l listeners ].
  - simpl. rewrite handleAccelerometerData_currentAccelerometer.
    now replace (k + 1 - 1)%nat with k by lia.
  - rewrite IH; [ | easy | easy ].
    now replace (S k + List.length (l :: listeners) - 1)%nat
      with (k + S (List.length (l :: listeners)) - 1)%nat by lia.
Qed.

(** X11.  Refusing the position request does not keep the page from
    tracking: in a browser with geolocation, [enableLocation] ends with
    the location permission shown as granted and with one more position
    watch, which the manager remembers, whatever the user answered; the
    only alert is the one about the motion sensor, when that was denied. *)
Theorem refused_location_is_still_tracked `{JSMath}
        (v : PageVariant) (prompt : SensorManager.MotionPrompt) (w : World) :
  SensorManager.geolocation (browser w) = true ->
  p_location
    (permissionDetails
       (page (react v (EnableLocation prompt SensorManager.positionRejects) w)))
  = true /\
  SensorManager.positionWatches
    (browser (react v (EnableLocation prompt SensorManager.positionRejects) w))
  = SensorManager.positionWatches (browser w)
    ++ [(SensorManager.nextHandle (browser w), handleLocationData)] /\
  SensorManager.watchId
    (sensorManager
       (react v (EnableLocation prompt SensorManager.positionRejects) w))
  = Some (SensorManager.nextHandle (browser w)) /\
  alerts (page (react v (EnableLocation prompt SensorManager.positionRejects) w))
  = alerts (page w)
    ++ match prompt with
       | SensorManager.noPrompt | SensorManager.promptAnswers true => []
       | _ => ["Motion sensor access is required for pothole detection. Please grant motion sensor permissions."%string]
       end.
Proof.
  destruct w as [st sm [listeners watches next geo]]. simpl. intros ->.
  unfold enableLocation, SensorManager.requestPermissions,
    SensorManager.startLocationTracking. simpl.
  unfold reactiveStats.
  destruct prompt as [ | [ | ] | ]; simpl;
    destruct (currentSession st); simpl; now rewrite ?app_nil_r.
Qed.

Lemma refused_location_is_still_tracked_witness :
  SensorManager.geolocation (browser (mounted true)) = true /\
  p_location
    (permissionDetails
       (page (@react seriesMath recordAll
                     (EnableLocation SensorManager.noPrompt
                                     SensorManager.positionRejects)
                     (mounted true))))
  = true.
Proof.
  split; [ reflexivity | ].
  exact (proj1 (@refused_location_is_still_tracked
                  seriesMath recordAll SensorManager.noPrompt (mounted true)
                  eq_refl)).
Defined.

(** X12.  No [devicemotion] listener is ever removed, and every session
    started registers one more.  So in a session with a current location
    a jolt that is a candidate (and not of low severity, on the page that
    filters) is recorded once by every listener registered so far: as many
    events are appended as there are listeners, and there are more
    listeners than sessions exported before. *)
Theorem jolt_is_recorded_by_every_listener `{JSMath}
        (v : PageVariant) (geo : bool) (evs : list Event)
        (ax ay az : option float) (env : nat -> float * string)
        (s : DrivingSession) (loc : LocationData) :
  currentSession (page (play v evs (mounted geo))) = Some s ->
  currentLocation (page (play v evs (mounted geo))) = Some loc ->
  detectPothole (readingAt ax ay az env 0) = true ->
  (v = recordMediumHigh ->
   calculateSeverity (readingAt ax ay az env 0) <> low) ->
  sessionEvents
    (page (react v (DeviceMotion (Some (ax, ay, az)) env)
                 (play v evs (mounted geo))))
  = events s
    ++ map (fun k => newEvent (snd (env k)) (readingAt ax ay az env k) loc
                              (calculateSeverity (readingAt ax ay az env k)))
           (seq 0 (List.length
                     (SensorManager.motionListeners
                        (browser (play v evs (mounted geo)))))) /\
  (List.length (exported (page (play v evs (mounted geo))))
   < List.length (SensorManager.motionListeners
                    (browser (play v evs (mounted geo)))))%nat.
Proof.
  intros Es El Hd Hs.
  destruct (play_invariant v evs (mounted geo) (worldInvariant_mounted v geo))
    as (_ & I2 & _ & _ & _ & I6).
  split.
  - simpl. now apply (dispatchMotion_records v).
  - rewrite Es in I6. unfold MotionCallback in *. lia.
Qed.

(** X13.  Stopping a session does not stop the motion events: once a
    session has been exported, every [devicemotion] event that carries an
    acceleration still reaches the page and sets [currentAccelerometer],
    which [stopSession] had reset; it exports nothing and, while there is
    no session, opens none. *)
Theorem stopped_page_still_receives_readings `{JSMath}
        (v : PageVariant) (geo : bool) (evs : list Event)
        (ax ay az : option float) (env : nat -> float * string) :
  exported (page (play v evs (mounted geo))) <> [] ->
  currentAccelerometer
    (page (react v (DeviceMotion (Some (ax, ay, az)) env)
                 (play v evs (mounted geo))))
  = Some (readingAt ax ay az env
            (List.length (SensorManager.motionListeners
                            (browser (play v evs (mounted geo)))) - 1)) /\
  exported (page (react v (DeviceMotion (Some (ax, ay, az)) env)
                        (play v evs (mounted geo))))
  = exported (page (play v evs (mounted geo))) /\
  (currentSession (page (play v evs (mounted geo))) = None ->
   currentSession (page (react v (DeviceMotion (Some (ax, ay, az)) env)
                               (play v evs (mounted geo)))) = None).
Proof.
  intros Hx.
  destruct (play_invariant v evs (mounted geo) (worldInvariant_mounted v geo))
    as (_ & I2 & _ & _ & _ & I6).
  destruct (keepsFrame_dispatchMotion
              v (Some (ax, ay, az)) env
              (SensorManager.motionListeners (browser (play v evs (mounted geo))))
              0%nat I2 (page (play v evs (mounted geo)))) as (_ & E2 & E3).
  simpl. repeat split.
  - rewrite (dispatchMotion_currentAccelerometer v); [ easy | easy | ].
    intros E. rewrite E in I6. simpl in I6.
    destruct (exported (page (play v evs (mounted geo)))); [ easy | ].
    simpl in I6. lia.
  - exact E2.
  - intros En. rewrite En in E3. simpl in E3.
    now destruct (currentSession (dispatchMotion _ _ _ _ _)).
Qed.

Lemma jolt_is_recorded_by_every_listener_witness :
  (currentSession
     (page (@play seriesMath recordMediumHigh secondSessionWithFix
                  (mounted true)))
   = Some (mkSession "session-2" 3000 None [] 0 0) /\
   currentLocation
     (page (@play seriesMath recordMediumHigh secondSessionWithFix
                  (mounted true)))
   = Some (positionCallback (mkCoordinates 0.5 32.5 None 5) 3500) /\
   detectPothole (readingAt (Some 0) (Some 0) (Some 30) clock 0) = true /\
   (recordMediumHigh = recordMediumHigh ->
    calculateSeverity (readingAt (Some 0) (Some 0) (Some 30) clock 0) <> low)) /\
  List.length
    (sessionEvents
       (page (@react seriesMath recordMediumHigh
                     (DeviceMotion (Some (Some 0, Some 0, Some 30)) clock)
                     (@play seriesMath recordMediumHigh secondSessionWithFix
                            (mounted true)))))
  = 2%nat.
Proof.
  assert (Hs : recordMediumHigh = recordMediumHigh ->
               calculateSeverity (readingAt (Some 0) (Some 0) (Some 30) clock 0)
               <> low)
    by (intros _; vm_compute; discriminate).
  split;
    [ split; [ reflexivity
             | split; [ reflexivity | split; [ reflexivity | exact Hs ] ] ]
    | ].
  rewrite (proj1 (@jolt_is_recorded_by_every_listener
                    seriesMath recordMediumHigh true secondSessionWithFix
                    (Some 0) (Some 0) (Some 30) clock
                    (mkSession "session-2" 3000 None [] 0 0)
                    (positionCallback (mkCoordinates 0.5 32.5 None 5) 3500)
                    eq_refl eq_refl eq_refl Hs)).
  reflexivity.
Defined.

Lemma stopped_page_still_receives_readings_witness :
  exported (page (@play seriesMath recordAll oneSessionStopped (mounted true)))
  <> [] /\
  currentAccelerometer
    (page (@react seriesMath recordAll
                  (DeviceMotion (Some (Some 0, Some 0, Some 30)) clock)
                  (@play seriesMath recordAll oneSessionStopped (mounted true))))
  = Some (readingAt (Some 0) (Some 0) (Some 30) clock
            (List.length
               (SensorManager.motionListeners
                  (browser (@play seriesMath recordAll oneSessionStopped
                                  (mounted true)))) - 1)).
Proof.
  assert (Hx : exported (page (@play seriesMath recordAll oneSessionStopped
                                     (mounted true))) <> [])
    by (vm_compute; discriminate).
  split; [ exact Hx | ].
  exact (proj1 (@stopped_page_still_receives_readings
                  seriesMath recordAll true oneSessionStopped
                  (Some 0) (Some 0) (Some 30) clock Hx)).
Defined.

(** * The distance *)

(** ** Over a trace *)

Lemma SFleb_trans x y z :
  SFleb x y = true -> SFleb y z = true -> SFleb x z = true.
Proof.
  unfold SFleb.
  destruct x as [[ | ] | [ | ] | | [ | ] mx ex];
    destruct y as [[ | ] | [ | ] | | [ | ] my ey];
    destruct z as [[ | ] | [ | ] | | [ | ] mz ez];
    simpl; try easy;
    change (Pos.compare_cont Eq) with Pos.compare;
    destruct (Z.compare_spec ex ey); simpl; try easy;
    destruct (Z.compare_spec ey ez); simpl; try easy;
    destruct (Z.compare_spec ex ez); simpl; try easy; try lia;
    subst;
    destruct (Pos.compare_spec mx my); simpl; try easy;
    destruct (Pos.compare_spec my mz); simpl; try easy;
    destruct (Pos.compare_spec mx mz); simpl; try easy; try lia.
Qed.

Lemma leb_trans (x y z : float) :
  (x <=? y) = true -> (y <=? z) = true -> (x <=? z) = true.
Proof. rewrite !leb_spec. apply SFleb_trans. Qed.

Lemma fixesOf_app tr1 tr2 : fixesOf (tr1 ++ tr2) = fixesOf tr1 ++ fixesOf tr2.
Proof. apply flat_map_app. Qed.

(** [lastLocation] is written by [handleLocationData] only. *)
Lemma lastLocation_step `{JSMath} v a st :
  lastLocation (step v a st) = lastLocation st \/
  exists loc, a = LocationFix loc /\ lastLocation (step v a st) = Some loc.
Proof.
  unfold step.
  assert (Hr : forall s0, lastLocation (reactiveStats s0) = lastLocation s0)
    by (intros s0; unfold reactiveStats; now destruct (currentSession s0)).
  rewrite Hr. destruct a; simpl.
  - left. unfold requestPermissions. now destruct acc.
  - now left.
  - now left.
  - left. unfold startSession.
    now destruct (p_accelerometer (permissionDetails st)),
                 (p_location (permissionDetails st)),
                 (startCoords st), (destinationCoords st).
  - left. unfold stopSession. now destruct (currentSession st).
  - left.
    now destruct (handleAccelerometerData_cases v reading newId st)
      as [-> | (loc & s & _ & _ & _ & _ & ->)].
  - right. exists loc. split; [ easy | ]. unfold handleLocationData.
    now destruct (lastLocation st), (currentSession st).
  - left. unfold confirmPothole.
    destruct (currentSession st) as [s | ]; [ | easy ].
    now destruct (find (hasId eventId) (events s)).
  - left. unfold markFalsePositive.
    destruct (currentSession st) as [s | ]; [ | easy ].
    now destruct (find (hasId eventId) (events s)).
Qed.

Section DistanceOverTrace.

Context `{JSMath}.

Variable v : PageVariant.
Variable fixes : list LocationData.
Hypothesis Hfixes : distancesAreNumbers fixes.

Lemma measured_step a st :
  (forall loc, a = LocationFix loc -> In loc fixes) ->
  measured fixes st ->
  measured fixes (step v a st) /\
  (isStart a = false ->
   (totalDistance st <=? totalDistance (step v a st)) = true).
Proof.
  intros Ha [Ht Hl].
  destruct (totalDistance_nondecreasing v a st Ht) as [Ht' Hle].
  { intros loc prev E Ep. apply Hfixes; [ now apply Hl | now apply Ha ]. }
  split; [ split; [ exact Ht' | ] | ].
  - intros prev Ep.
    destruct (lastLocation_step v a st) as [E | (loc & E1 & E2)].
    + apply Hl. now rewrite <- E.
    + rewrite E2 in Ep. injection Ep as <-. now apply Ha.
  - intros Hs. apply Hle. intros now newId ->. discriminate.
Qed.

Lemma measured_run tr :
  forall st,
    incl (fixesOf tr) fixes ->
    measured fixes st ->
    measured fixes (run v tr st) /\
    (forallb (fun a => negb (isStart a)) tr = true ->
     (totalDistance st <=? totalDistance (run v tr st)) = true).
Proof.
  induction tr as [ | a tr IH ]; intros st Hin Hm.
  - split; [ exact Hm | intros _ ].
    apply FloatFacts.leb_refl. destruct Hm as [Ht _].
    now apply FloatFacts.leb_not_nan in Ht.
  - rewrite run_cons.
    destruct (measured_step a st) as [Hm' Hle]; [ | exact Hm | ].
    { intros loc ->. apply Hin. simpl. now left. }
    destruct (IH (step v a st)) as [Hm'' Hle']; [ | exact Hm' | ].
    { intros loc Hloc. apply Hin.
      change (fixesOf (a :: tr))
        with ((match a with LocationFix l => [l] | _ => [] end) ++ fixesOf tr).
      apply in_or_app. now right. }
    split; [ exact Hm'' | ].
    simpl. intros Hs. apply andb_prop in Hs as [Ha Hs].
    apply negb_true_iff in Ha.
    apply (leb_trans _ (totalDistance (step v a st))); auto.
Qed.

End DistanceOverTrace.

(** X14.  As long as the distances computed between the samples delivered
    are numbers and not negative, the distance the page shows is a number,
    is not negative, and never decreases except when [startSession] resets
    it: after any continuation without [startSession] it is at least what
    it was. *)
Theorem distance_never_decreases_without_start `{JSMath}
        (v : PageVariant) (tr1 tr2 : list Action) :
  distancesAreNumbers (fixesOf (tr1 ++ tr2)) ->
  forallb (fun a => negb (isStart a)) tr2 = true ->
  (0 <=? totalDistance (run v tr1 initialState)) = true /\
  (totalDistance (run v tr1 initialState)
   <=? totalDistance (run v (tr1 ++ tr2) initialState)) = true.
Proof.
  intros Hd Hs. rewrite run_app.
  destruct (measured_run v (fixesOf (tr1 ++ tr2)) Hd tr1 initialState)
    as [[Ht Hl] _].
  { rewrite fixesOf_app. now apply incl_appl. }
  { split; [ reflexivity | discriminate ]. }
  split; [ exact Ht | ].
  destruct (measured_run v (fixesOf (tr1 ++ tr2)) Hd tr2
                         (run v tr1 initialState)) as [_ Hle].
  { rewrite fixesOf_app. now apply incl_appr. }
  { now split. }
  now apply Hle.
Qed.

Lemma sample_distances_are_numbers :
  @distancesAreNumbers seriesMath (fixesOf (driveOut ++ driveBack)).
Proof.
  intros prev loc Hp Hl.
  change (fixesOf (driveOut ++ driveBack)) with [fixA; fixB; fixA] in Hp, Hl.
  destruct Hp as [<- | [<- | [<- | []]]];
    destruct Hl as [<- | [<- | [<- | []]]]; now vm_compute.
Qed.

Lemma distance_never_decreases_without_start_witness :
  (@distancesAreNumbers seriesMath (fixesOf (driveOut ++ driveBack)) /\
   forallb (fun a => negb (isStart a)) driveBack = true) /\
  (totalDistance (@run seriesMath recordAll driveOut initialState)
   <=? totalDistance (@run seriesMath recordAll (driveOut ++ driveBack)
                           initialState)) = true.
Proof.
  split; [ split; [ exact sample_distances_are_numbers | reflexivity ] | ].
  exact (proj2 (@distance_never_decreases_without_start
                  seriesMath recordAll driveOut driveBack
                  sample_distances_are_numbers eq_refl)).
Defined.

(** ** Between equal points *)

Lemma is_finite_spec (x : float) :
  is_finite x = true ->
  (exists s, Prim2SF x = S754_zero s) \/
  (exists s m e, Prim2SF x = S754_finite s m e).
Proof.
  unfold is_finite, is_infinity, is_nan.
  rewrite !eqb_spec, abs_spec.
  destruct (Prim2SF x) as [s | s | | s m e] eqn:E.
  - intros _. left. now exists s.
  - simpl. intros Hf. exfalso. revert Hf.
    change (Prim2SF infinity) with (S754_infinity false).
    unfold SFeqb. simpl. now rewrite orb_true_r.
  - unfold SFeqb. simpl. discriminate.
  - intros _. right. now exists s, m, e.
Qed.

Lemma sub_diag (x : float) : is_finite x = true -> x - x = 0.
Proof.
  intros Hf. apply Prim2SF_inj. rewrite sub_spec.
  change (Prim2SF 0) with (S754_zero false).
  destruct (is_finite_spec x Hf) as [[s ->] | (s & m & e & ->)].
  - now destruct s.
  - unfold SF64sub, SFsub. rewrite Z.min_id.
    unfold shl_align. rewrite Z.sub_diag. simpl.
    reflexivity.
Qed.

Lemma mul_zero_r (c : float) :
  is_finite c = true -> c * 0 = 0 \/ c * 0 = -0.
Proof.
  intros Hf.
  assert (E : exists s, Prim2SF (c * 0) = S754_zero s).
  { rewrite mul_spec. change (Prim2SF 0) with (S754_zero false).
    destruct (is_finite_spec c Hf) as [[s ->] | (s & m & e & ->)];
      simpl; now eexists. }
  destruct E as [[ | ] E].
  - right. apply Prim2SF_inj. now rewrite E.
  - left. apply Prim2SF_inj. now rewrite E.
Qed.

Lemma add_zero_mul_zero (c : float) :
  is_finite c = true -> 0 * 0 + c * 0 * 0 = 0.
Proof.
  intros Hf. destruct (mul_zero_r c Hf) as [-> | ->]; reflexivity.
Qed.

(** X15.  [calculateDistance] between a point and itself is exactly 0, for
    finite coordinates, when [Math.sin] and [Math.atan2] are exact at zero
    as the language requires and the product of the two cosines is a
    finite number: a sample that repeats the previous coordinates adds
    nothing to the distance. *)
Theorem calculateDistance_same_point `{JSMath} (lat1 lon1 : float) :
  is_finite lat1 = true ->
  is_finite lon1 = true ->
  exactAtZero ->
  is_finite (Math_cos (lat1 * Math_PI / 180) * Math_cos (lat1 * Math_PI / 180))
  = true ->
  calculateDistance lat1 lon1 lat1 lon1 = 0.
Proof.
  intros Hlat Hlon [Hs Ha] Hc. unfold calculateDistance.
  rewrite (sub_diag lat1 Hlat), (sub_diag lon1 Hlon).
  change (0 * Math_PI / 180 / 2) with 0.
  rewrite Hs, (add_zero_mul_zero _ Hc).
  change (sqrt 0) with 0. change (sqrt (1 - 0)) with 1.
  rewrite Ha. reflexivity.
Qed.

Lemma calculateDistance_same_point_witness :
  (is_finite 40 = true /\ is_finite (-73) = true /\ @exactAtZero seriesMath) /\
  @calculateDistance seriesMath 40 (-73) 40 (-73) = 0.
Proof.
  split; [ split; [ reflexivity | split; [ reflexivity | now split ] ] | ].
  exact (@calculateDistance_same_point
           seriesMath 40 (-73) eq_refl eq_refl (conj eq_refl eq_refl) eq_refl).
Defined.

(** * The permissions *)

Lemma play_app `{JSMath} v (evs1 evs2 : list Event) w :
  play v (evs1 ++ evs2) w = play v evs2 (play v evs1 w).
Proof. apply fold_left_app. Qed.

Lemma locationPermission_requestPermissions {M L} prompt probe
      (br : SensorManager.Browser M L) sm :
  SensorManager._locationPermission sm = true ->
  SensorManager._locationPermission
    (snd (SensorManager.requestPermissions prompt probe br sm)) = true.
Proof.
  unfold SensorManager.requestPermissions. simpl. intros ->.
  destruct (SensorManager.geolocation br) eqn:E; [ | easy ].
  now destruct probe.
Qed.

Lemma locationPermission_startLocationTracking {M L} (callback : L)
      (br : SensorManager.Browser M L) sm :
  SensorManager._locationPermission
    (fst (SensorManager.startLocationTracking callback sm br))
  = SensorManager._locationPermission sm.
Proof.
  now destruct (startLocationTracking_cases callback sm br)
    as [-> | (_ & _ & ->)].
Qed.

(** No event takes the location permission away from the manager. *)
Lemma locationPermission_react `{JSMath} v ev w :
  SensorManager._locationPermission (sensorManager w) = true ->
  SensorManager._locationPermission (sensorManager (react v ev w)) = true.
Proof.
  intros Hl. destruct ev; cbn [react onPage sensorManager]; try exact Hl.
  - unfold pageRequestPermissions.
    pose proof (locationPermission_requestPermissions
                  prompt probe (browser w) (sensorManager w) Hl) as Hr.
    now destruct (SensorManager.requestPermissions _ _ _ _).
  - unfold enableLocation.
    pose proof (locationPermission_requestPermissions
                  prompt probe (browser w) (sensorManager w) Hl) as Hr.
    destruct (SensorManager.requestPermissions _ _ _ _) as [granted sm].
    simpl in Hr. cbn [p_location p_accelerometer]. rewrite Hr.
    pose proof (locationPermission_startLocationTracking
                  handleLocationData (browser w) sm) as Ht.
    destruct (SensorManager.startLocationTracking _ _ _) as [sm' br'].
    simpl in Ht.
    destruct (negb (SensorManager._accelerometerPermission sm)); simpl;
      congruence.
  - unfold worldStartSession.
    destruct (_ || _); simpl; [ exact Hl | ].
    pose proof (locationPermission_startLocationTracking
                  handleLocationData
                  (SensorManager.startAccelerometer
                     (handleAccelerometerData v) (sensorManager w) (browser w))
                  (sensorManager w)) as Ht.
    destruct (SensorManager.startLocationTracking _ _ _) as [sm' br'].
    simpl in Ht. simpl. congruence.
  - unfold worldStopSession.
    destruct (currentSession (page w)); [ | exact Hl ].
    unfold SensorManager.stopAllSensors. simpl. exact Hl.
  - unfold dispatchPosition.
    now destruct (find _ _) as [[h callback] | ].
Qed.

(** X16.  The page never takes a location permission back: once
    [permissionDetails.location] is true it stays true after every event,
    a later refused position request included, so the location guard of
    [startSession] keeps passing. *)
Theorem location_permission_is_never_revoked `{JSMath}
        (v : PageVariant) (geo : bool) (evs1 evs2 : list Event) :
  p_location (permissionDetails (page (play v evs1 (mounted geo)))) = true ->
  p_location (permissionDetails (page (play v (evs1 ++ evs2) (mounted geo))))
  = true.
Proof.
  rewrite play_app.
  pose proof (play_invariant v evs1 (mounted geo) (worldInvariant_mounted v geo))
    as Hw.
  revert Hw. generalize (play v evs1 (mounted geo)).
  induction evs2 as [ | ev evs2 IH ]; intros w Hw Hp; [ exact Hp | ].
  simpl. apply IH; [ now apply react_invariant | ].
  pose proof (react_invariant v ev w Hw) as (_ & _ & _ & I4' & _).
  destruct Hw as (_ & _ & _ & I4 & _).
  rewrite I4 in Hp. simpl in Hp. rewrite I4'. simpl.
  now apply locationPermission_react.
Qed.

Lemma location_permission_is_never_revoked_witness :
  p_location
    (permissionDetails
       (page (@play seriesMath recordAll oneSessionStopped (mounted true))))
  = true /\
  p_location
    (permissionDetails
       (page (@play seriesMath recordAll
                    (oneSessionStopped
                     ++ [EnableLocation (SensorManager.promptAnswers false)
                                        SensorManager.positionRejects])
                    (mounted true))))
  = true.
Proof.
  split; [ reflexivity | ].
  exact (@location_permission_is_never_revoked
           seriesMath recordAll true oneSessionStopped
           [EnableLocation (SensorManager.promptAnswers false)
                           SensorManager.positionRejects]
           eq_refl).
Defined.

(** * The classifier, further *)

Ltac order_cases mx my mz ex ey ez :=
  simpl; try easy;
  change (Pos.compare_cont Eq) with Pos.compare;
  destruct (Z.compare_spec ex ey); simpl; try easy;
  destruct (Z.compare_spec ey ez); simpl; try easy;
  destruct (Z.compare_spec ex ez); simpl; try easy; try lia;
  subst;
  destruct (Pos.compare_spec mx my); simpl; try easy;
  destruct (Pos.compare_spec my mz); simpl; try easy;
  destruct (Pos.compare_spec mx mz); simpl; try easy; try lia.

Lemma SFltb_leb_trans x y z :
  SFltb x y = true -> SFleb y z = true -> SFltb x z = true.
Proof.
  unfold SFltb, SFleb.
  destruct x as [[ | ] | [ | ] | | [ | ] mx ex];
    destruct y as [[ | ] | [ | ] | | [ | ] my ey];
    destruct z as [[ | ] | [ | ] | | [ | ] mz ez];
    order_cases mx my mz ex ey ez.
Qed.

Lemma ltb_leb_trans (x y z : float) :
  (x <? y) = true -> (y <=? z) = true -> (x <? z) = true.
Proof. rewrite !ltb_spec, leb_spec. apply SFltb_leb_trans. Qed.

Lemma ltb_leb (x y : float) : (x <? y) = true -> (x <=? y) = true.
Proof.
  rewrite ltb_spec, leb_spec. unfold SFltb, SFleb.
  now destruct (SFcompare _ _) as [[ | | ] | ].
Qed.

Lemma mul_opp_opp (a : float) : (- a) * (- a) = a * a.
Proof.
  apply Prim2SF_inj. rewrite !mul_spec, opp_spec.
  now destruct (Prim2SF a) as [[ | ] | [ | ] | | [ | ] m e].
Qed.

(** Above a bound is above every smaller bound. *)
Lemma gt_weaken (m lo hi : float) :
  (lo <? hi) = true -> gt m hi = true -> gt m lo = true.
Proof.
  unfold gt. intros Hlh Hm.
  apply (ltb_leb_trans lo hi m Hlh). now apply ltb_leb.
Qed.

(** Above a bound and at most another magnitude: that one is above too. *)
Lemma gt_mono (m1 m2 c : float) :
  (m1 <=? m2) = true -> gt m1 c = true -> gt m2 c = true.
Proof. unfold gt. intros Hle Hc. exact (ltb_leb_trans c m1 m2 Hc Hle). Qed.

(** X17.  A reading whose severity is medium or high is a candidate: the
    two functions agree, and a reading that is no candidate is always of
    severity low. *)
Theorem severe_reading_is_a_candidate (r : AccelerometerReading) :
  calculateSeverity r <> low -> detectPothole r = true.
Proof.
  unfold calculateSeverity, detectPothole, POTHOLE_THRESHOLD. intros Hs.
  destruct (gt (magnitude r) 25) eqn:H25.
  - now apply (gt_weaken _ 15 25).
  - destruct (gt (magnitude r) 20) eqn:H20; [ | easy ].
    now apply (gt_weaken _ 15 20).
Qed.

Lemma severe_reading_is_a_candidate_witness :
  calculateSeverity jolt22 <> low /\ detectPothole jolt22 = true.
Proof.
  assert (Hs : calculateSeverity jolt22 <> low) by (vm_compute; discriminate).
  split; [ exact Hs | exact (severe_reading_is_a_candidate jolt22 Hs) ].
Defined.

(** X18.  The classification follows the magnitude: of two readings, the
    one with the larger magnitude is a candidate if the other is, and its
    severity is at least the other's. *)
Theorem classification_is_monotone (r1 r2 : AccelerometerReading) :
  (magnitude r1 <=? magnitude r2) = true ->
  (detectPothole r1 = true -> detectPothole r2 = true) /\
  (rank (calculateSeverity r1) <= rank (calculateSeverity r2))%nat.
Proof.
  intros Hle. split; [ apply (gt_mono _ _ _ Hle) | ].
  unfold calculateSeverity.
  destruct (gt (magnitude r1) 25) eqn:H25.
  - now rewrite (gt_mono _ _ _ Hle H25).
  - destruct (gt (magnitude r1) 20) eqn:H20.
    + rewrite (gt_mono _ _ _ Hle H20).
      destruct (gt (magnitude r2) 25); simpl; lia.
    + simpl. lia.
Qed.

Lemma classification_is_monotone_witness :
  (magnitude jolt18 <=? magnitude jolt22) = true /\
  (detectPothole jolt18 = true -> detectPothole jolt22 = true) /\
  (rank (calculateSeverity jolt18) <= rank (calculateSeverity jolt22))%nat.
Proof.
  split; [ reflexivity | exact (classification_is_monotone jolt18 jolt22 eq_refl) ].
Defined.

(** X19.  On the page that filters by severity, the threshold that decides
    whether an event is recorded is 20 and not 15: with a session and a
    current location, the handler appends one event exactly when the
    magnitude is above 20. *)
Theorem filtering_page_records_above_20
        (r : AccelerometerReading) (newId : string) (st : State)
        (s : DrivingSession) (loc : LocationData) :
  currentSession st = Some s ->
  currentLocation st = Some loc ->
  sessionEvents (handleAccelerometerData recordMediumHigh r newId st)
  = if gt (magnitude r) 20
    then events s ++ [newEvent newId r loc (calculateSeverity r)]
    else events s.
Proof.
  intros Es El. simpl. unfold handleAccelerometerData_filtered. simpl.
  rewrite El, Es.
  unfold calculateSeverity, detectPothole, POTHOLE_THRESHOLD.
  destruct (gt (magnitude r) 20) eqn:H20.
  - rewrite (gt_weaken _ 15 20 eq_refl H20).
    now destruct (gt (magnitude r) 25).
  - destruct (gt (magnitude r) 25) eqn:H25.
    + now rewrite (gt_weaken _ 20 25 eq_refl H25) in H20.
    + unfold sessionEvents.
      destruct (gt (magnitude r) 15); simpl; now rewrite Es.
Qed.

Lemma filtering_page_records_above_20_witness :
  (currentSession (activeWithFix recordMediumHigh)
   = Some (mkSession "s1" 1000 None [] 0 0) /\
   currentLocation (activeWithFix recordMediumHigh) = Some fixA) /\
  sessionEvents
    (handleAccelerometerData recordMediumHigh jolt18 "e1"
                             (activeWithFix recordMediumHigh))
  = [].
Proof.
  split; [ split; reflexivity | ].
  exact (filtering_page_records_above_20
           jolt18 "e1" (activeWithFix recordMediumHigh)
           (mkSession "s1" 1000 None [] 0 0) fixA eq_refl eq_refl).
Defined.

(** X20.  The classification depends on the size of the three axes only:
    reading an axis in the opposite direction, or at another time, changes
    neither the magnitude nor the candidate test nor the severity. *)
Theorem classification_ignores_direction
        (bx by' bz : bool) (ax ay az t t' : float) :
  magnitude (mkReading (flip bx ax) (flip by' ay) (flip bz az) t')
  = magnitude (mkReading ax ay az t) /\
  detectPothole (mkReading (flip bx ax) (flip by' ay) (flip bz az) t')
  = detectPothole (mkReading ax ay az t) /\
  calculateSeverity (mkReading (flip bx ax) (flip by' ay) (flip bz az) t')
  = calculateSeverity (mkReading ax ay az t).
Proof.
  assert (Hm : magnitude (mkReading (flip bx ax) (flip by' ay) (flip bz az) t')
               = magnitude (mkReading ax ay az t)).
  { unfold magnitude, flip. simpl.
    destruct bx, by', bz; now rewrite ?mul_opp_opp. }
  unfold detectPothole, calculateSeverity. now rewrite Hm.
Qed.
